(** * Piggyback data: staleness and lifecycle

    A shallow embedding of [cmk/utils/piggyback.py]: the time-settings
    resolver, the file info inspector, the raw data accessor, the status
    file writer and the cleanup sweeper, over a model of the two directory
    trees the module works on.

    Conventions of the model.
    - The storage keeps timestamps as integers in nanoseconds (what the
      kernel keeps as [st_atime_ns], [st_mtime_ns]), and a reading of the
      clock is an integer in nanoseconds; configured periods are integers
      in seconds, as in the rules.
    - The program sees the times as Python floats, which are binary64
      numbers, Rocq's primitive floats: [time.time()], [st_atime] and
      [st_mtime] are the floats CPython makes of the nanoseconds,
      [os.stat(p)[8]] is the whole seconds, and [os.utime] stores the
      nanoseconds CPython makes of the floats it is given.  Arithmetic on
      floats rounds as the processor does; a float is compared with an
      [int] exactly, as Python does.
    - Times are within the range of [time_t]: what Python raises for a
      float that is not a finite number ([round], [os.utime]) or for an
      [int] beyond the range of a float is not modelled.
    - One call of a reader or of the sweep runs at one reading [now] of the
      clock; the writer is given the instant of its payload writes and the
      instant at which it creates the temporary status file.
    - [logger.debug] calls have no effect on storage and are left out.
    - [HostName(...)] is the identity on strings; host names are single
      path components, and the two roots hold
      nothing but what the module puts there: folders of payload files
      under the piggyback root, files under the sources root. *)

From Stdlib Require Import ZArith Lia Floats.
From Stdlib.Strings Require Import Byte Ascii.
From stdpp Require Import base option list gmap strings pretty.

Open Scope Z_scope.

(** ** Names, bytes and paths *)

Abbreviation HostName := string (only parsing).
Abbreviation bytes := (list byte) (only parsing).

#[global] Instance byte_eq_decision : EqDecision byte := byte_eq_dec.

(** The paths the module builds.  The terminology block of the source:
    [tmp/check_mk/piggyback/HOST] is a piggybacked host folder,
    [tmp/check_mk/piggyback/HOST/SOURCE] a piggybacked host source (the
    payload file) and [tmp/check_mk/piggyback_sources/SOURCE] a source
    state file. *)
Inductive Path : Type :=
| PiggybackDir                                    (* cmk.utils.paths.piggyback_dir *)
| PiggybackSourceDir                              (* cmk.utils.paths.piggyback_source_dir *)
| HostFolder (piggybacked : string)               (* piggyback_dir / HOST *)
| HostSource (piggybacked source : string)        (* piggyback_dir / HOST / SOURCE *)
| SourceState (name : string).                    (* piggyback_source_dir / SOURCE *)

#[global] Instance Path_eq_dec : EqDecision Path.
Proof. solve_decision. Defined.

(** [Path.name] *)
Definition name (p : Path) : string :=
  match p with
  | PiggybackDir => "piggyback"
  | PiggybackSourceDir => "piggyback_sources"
  | HostFolder h => h
  | HostSource _ s => s
  | SourceState n => n
  end.

(** [Path.parent] *)
Definition parent (p : Path) : Path :=
  match p with
  | PiggybackDir | PiggybackSourceDir => p
  | HostFolder _ => PiggybackDir
  | HostSource h _ => HostFolder h
  | SourceState _ => PiggybackSourceDir
  end.

(** [str(path)], relative to the site's root. *)
Definition str_path (p : Path) : string :=
  match p with
  | PiggybackDir => "tmp/check_mk/piggyback"
  | PiggybackSourceDir => "tmp/check_mk/piggyback_sources"
  | HostFolder h => "tmp/check_mk/piggyback/" +:+ h
  | HostSource h s => "tmp/check_mk/piggyback/" +:+ h +:+ "/" +:+ s
  | SourceState n => "tmp/check_mk/piggyback_sources/" +:+ n
  end.

(** [_get_source_status_file_path] *)
Definition _get_source_status_file_path (source_hostname : HostName) : Path :=
  SourceState source_hostname.

(** [_get_piggybacked_file_path] *)
Definition _get_piggybacked_file_path
  (source_hostname piggybacked_hostname : HostName) : Path :=
  HostSource piggybacked_hostname source_hostname.

(** [str.startswith] *)
Definition startswith (s prefix : string) : bool := String.prefix prefix s.

(** ** Floats *)

Definition ns_per_s : Z := 1000000000.

(** [float(n)] of an [int]: the nearest float, a tie going to the even
    one. *)
Definition float_of_Z (n : Z) : float := SF2Prim (binary_normalize prec emax n 0 false).

(** A float against an [int], compared as the numbers they are; [None] for
    a nan, which compares with nothing. *)
Definition float_compare_Z (x : float) (n : Z) : option comparison :=
  match Prim2SF x with
  | S754_nan => None
  | S754_infinity s => Some (if s then Lt else Gt)
  | S754_zero _ => Some (0 ?= n)
  | S754_finite s m e =>
      let v := cond_Zopp s (Zpos m) in
      Some (if 0 <=? e then v * 2 ^ e ?= n else v ?= n * 2 ^ (- e))
  end.

(** [x > n] *)
Definition float_gt_Z (x : float) (n : Z) : bool :=
  match float_compare_Z x n with Some Gt => true | _ => false end.

(** [x <= n] *)
Definition float_le_Z (x : float) (n : Z) : bool :=
  match float_compare_Z x n with Some (Lt | Eq) => true | _ => false end.

(** [round(x)] of a float: the nearest integer, a tie going to the even
    one. *)
Definition float_round (x : float) : Z :=
  match Prim2SF x with
  | S754_finite s m e =>
      let v := cond_Zopp s (Zpos m) in
      if 0 <=? e then v * 2 ^ e
      else
        let d := 2 ^ (- e) in
        let q := v / d in
        let r := v mod d in
        if 2 * r <? d then q
        else if d <? 2 * r then q + 1
        else if Z.even q then q else q + 1
  | _ => 0
  end.

(** The integral part of a float (C's [modf]), and [floor]. *)
Definition float_trunc (x : float) : Z :=
  match Prim2SF x with
  | S754_finite s m e =>
      let v := cond_Zopp s (Zpos m) in
      if 0 <=? e then v * 2 ^ e else Z.quot v (2 ^ (- e))
  | _ => 0
  end.

Definition float_floor (x : float) : Z :=
  match Prim2SF x with
  | S754_finite s m e =>
      let v := cond_Zopp s (Zpos m) in
      if 0 <=? e then v * 2 ^ e else v / 2 ^ (- e)
  | _ => 0
  end.

(** The float a stat result gives for a timestamp, [st_atime] or
    [st_mtime]: CPython computes [sec + 1e-9 * nsec] in floats. *)
Definition st_time (ns : Z) : float :=
  (float_of_Z (ns / ns_per_s)
   + float_of_Z 1 / float_of_Z ns_per_s * float_of_Z (ns mod ns_per_s))%float.

(** The timestamp [os.utime] stores for a float: CPython splits the float
    into its integral and its fractional part, multiplies the fraction by
    [1e9] in floats and rounds down. *)
Definition utime_ns (d : float) : Z :=
  let intpart := float_trunc d in
  let floatpart := (d - float_of_Z intpart)%float in
  let n := float_floor (floatpart * float_of_Z ns_per_s)%float in
  if ns_per_s <=? n then (intpart + 1) * ns_per_s + (n - ns_per_s)
  else if n <? 0 then (intpart - 1) * ns_per_s + (n + ns_per_s)
  else intpart * ns_per_s + n.

(** [time.time()] at the reading [now] of the clock: CPython divides the
    nanoseconds by [1e9] in floats, and in integers when that is exact. *)
Definition time_time (now : Z) : float :=
  if now mod ns_per_s =? 0 then float_of_Z (now / ns_per_s)
  else (float_of_Z now / float_of_Z ns_per_s)%float.

(** A Python number: an [int] or a [float]. *)
Inductive Number : Type :=
| Int (n : Z)
| Float (x : float).

(** ** Storage *)

Record File : Type := mkFile {
  contents : bytes;
  st_atime_ns : Z;
  st_mtime_ns : Z
}.

(** The piggyback root holds one folder per piggybacked host, a folder
    holds one payload file per source; the sources root holds one status
    file per source (and the writer's temporary files). *)
Record FS : Type := mkFS {
  piggyback_tree : gmap string (gmap string File);
  source_tree : gmap string File
}.

(** The float attributes [st_atime] and [st_mtime] of a stat result keep
    the fraction, as far as a float can; the tuple view, [os.stat(p)[8]],
    is the modification time as an [int]: whole seconds. *)
Definition st_atime (f : File) : float := st_time (st_atime_ns f).

Definition st_mtime (f : File) : float := st_time (st_mtime_ns f).

Definition stat_8 (f : File) : Z := st_mtime_ns f / ns_per_s.

Definition lookup_file (fs : FS) (p : Path) : option File :=
  match p with
  | HostSource h s => piggyback_tree fs !! h ≫= (.!! s)
  | SourceState n => source_tree fs !! n
  | _ => None
  end.

Definition set_piggyback_tree (t : gmap string (gmap string File)) (fs : FS) : FS :=
  {| piggyback_tree := t; source_tree := source_tree fs |}.

Definition set_source_tree (t : gmap string File) (fs : FS) : FS :=
  {| piggyback_tree := piggyback_tree fs; source_tree := t |}.

(** Stores [f] at [p]; a payload file needs its folder. *)
Definition put_file (p : Path) (f : File) (fs : FS) : option FS :=
  match p with
  | HostSource h s =>
      d ← piggyback_tree fs !! h;
      Some (set_piggyback_tree (<[h := <[s := f]> d]> (piggyback_tree fs)) fs)
  | SourceState n => Some (set_source_tree (<[n := f]> (source_tree fs)) fs)
  | _ => None
  end.

Definition remove_file (p : Path) (fs : FS) : FS :=
  match p with
  | HostSource h s =>
      match piggyback_tree fs !! h with
      | Some d => set_piggyback_tree (<[h := delete s d]> (piggyback_tree fs)) fs
      | None => fs
      end
  | SourceState n => set_source_tree (delete n (source_tree fs)) fs
  | _ => fs
  end.

Arguments lookup_file : simpl never.
Arguments put_file : simpl never.
Arguments remove_file : simpl never.

(** ** Exceptions *)

Inductive Errno : Type := ENOENT | EEXIST | ENOTDIR | ENOTEMPTY.

#[global] Instance Errno_eq_dec : EqDecision Errno.
Proof. solve_decision. Defined.

Inductive Exception : Type :=
| OSError (errno : Errno) (filename : Path)   (* FileNotFoundError is errno ENOENT *)
| KeyError (key : option string * string)
| ReError (pattern : string)                  (* re.error *)
| ValueError (msg : string).

Definition is_FileNotFoundError (e : Exception) : bool :=
  match e with OSError ENOENT _ => true | _ => false end.

Definition is_OSError (e : Exception) : bool :=
  match e with OSError _ _ => true | _ => false end.

Definition strerror (e : Errno) : string :=
  match e with
  | ENOENT => "[Errno 2] No such file or directory"
  | EEXIST => "[Errno 17] File exists"
  | ENOTDIR => "[Errno 20] Not a directory"
  | ENOTEMPTY => "[Errno 39] Directory not empty"
  end.

(** [str(exc)] *)
Definition str_exc (e : Exception) : string :=
  match e with
  | OSError errno p => strerror errno +:+ ": '" +:+ str_path p +:+ "'"
  | KeyError (_, k) => "'" +:+ k +:+ "'"
  | ReError pat => pat
  | ValueError msg => msg
  end.

(** ** Computations on storage

    A computation takes the storage it starts from and gives its result (a
    value or the exception it raised), the storage it leaves and the file
    system calls it made, in order. *)

Inductive Syscall : Type :=
| sys_stat (p : Path)
| sys_iterdir (p : Path)
| sys_read (p : Path)
| sys_save (p : Path) (data : bytes)
| sys_utime (p : Path) (atime mtime : float)
| sys_unlink (p : Path)
| sys_rmdir (p : Path)
| sys_makedirs (p : Path)
| sys_mkstemp (p : Path)
| sys_rename (src dst : Path).

Record Outcome (A : Type) : Type := mkOutcome {
  res : Exception + A;
  fs_after : FS;
  trace : list Syscall
}.
Arguments mkOutcome {A} _ _ _.
Arguments res {A} _.
Arguments fs_after {A} _.
Arguments trace {A} _.

Definition M (A : Type) : Type := FS → Outcome A.

Definition ret {A} (a : A) : M A := λ fs, mkOutcome (inr a) fs [].

Definition raise {A} (e : Exception) : M A := λ fs, mkOutcome (inl e) fs [].

(** The outcome [o] of a continuation, after the calls [t] made before it. *)
Definition after {A} (t : list Syscall) (o : Outcome A) : Outcome A :=
  mkOutcome (res o) (fs_after o) (t ++ trace o).

Definition bind {A B} (m : M A) (k : A → M B) : M B := λ fs,
  match m fs with
  | mkOutcome (inl e) fs1 t1 => mkOutcome (inl e) fs1 t1
  | mkOutcome (inr a) fs1 t1 => after t1 (k a fs1)
  end.

Notation "x <- m ;; k" := (bind m (λ x, k))
  (at level 100, m at next level, right associativity).
Notation "m ;;; k" := (bind m (λ _, k))
  (at level 100, right associativity).

(** [try: m except <class>: h], the class given by its test. *)
Definition try_except {A} (m : M A) (catches : Exception → bool)
  (h : Exception → M A) : M A := λ fs,
  match m fs with
  | mkOutcome (inl e) fs1 t1 =>
      if catches e then after t1 (h e fs1) else mkOutcome (inl e) fs1 t1
  | o => o
  end.

(** A pure computation that may raise. *)
Definition lift {A} (r : Exception + A) : M A :=
  match r with inl e => raise e | inr a => ret a end.

(** [for x in xs: body(x)] *)
Fixpoint for_each {A} (xs : list A) (body : A → M unit) : M unit :=
  match xs with
  | [] => ret tt
  | x :: xs' => body x ;;; for_each xs' body
  end.

(** [[body(x) for x in xs]] *)
Fixpoint list_comp {A B} (xs : list A) (body : A → M B) : M (list B) :=
  match xs with
  | [] => ret []
  | x :: xs' => y <- body x ;; ys <- list_comp xs' body ;; ret (y :: ys)
  end.

(** ** File system calls *)

Definition syscall {A} (c : Syscall) (r : Exception + A) (fs' : FS) : Outcome A :=
  mkOutcome r fs' [c].

(** [os.stat], [Path.stat] *)
Definition os_stat (p : Path) : M File := λ fs,
  match lookup_file fs p with
  | Some f => syscall (sys_stat p) (inr f) fs
  | None => syscall (sys_stat p) (inl (OSError ENOENT p)) fs
  end.

(** [Path.iterdir], fully consumed. *)
Definition iterdir (p : Path) : M (list Path) := λ fs,
  match p with
  | PiggybackDir =>
      syscall (sys_iterdir p) (inr (HostFolder <$> (map_to_list (piggyback_tree fs)).*1)) fs
  | PiggybackSourceDir =>
      syscall (sys_iterdir p) (inr (SourceState <$> (map_to_list (source_tree fs)).*1)) fs
  | HostFolder h =>
      match piggyback_tree fs !! h with
      | Some d => syscall (sys_iterdir p) (inr (HostSource h <$> (map_to_list d).*1)) fs
      | None => syscall (sys_iterdir p) (inl (OSError ENOENT p)) fs
      end
  | _ =>
      match lookup_file fs p with
      | Some _ => syscall (sys_iterdir p) (inl (OSError ENOTDIR p)) fs
      | None => syscall (sys_iterdir p) (inl (OSError ENOENT p)) fs
      end
  end.

(** [Path.unlink] *)
Definition unlink (p : Path) : M unit := λ fs,
  match lookup_file fs p with
  | Some _ => syscall (sys_unlink p) (inr tt) (remove_file p fs)
  | None => syscall (sys_unlink p) (inl (OSError ENOENT p)) fs
  end.

(** [Path.rmdir].  A root that is missing is not told apart from an empty
    one: every listing goes through [_files_in], which reads both as
    empty. *)
Definition rmdir (p : Path) : M unit := λ fs,
  match p with
  | HostFolder h =>
      match piggyback_tree fs !! h with
      | Some d =>
          if bool_decide (d = ∅)
          then syscall (sys_rmdir p) (inr tt)
                 (set_piggyback_tree (delete h (piggyback_tree fs)) fs)
          else syscall (sys_rmdir p) (inl (OSError ENOTEMPTY p)) fs
      | None => syscall (sys_rmdir p) (inl (OSError ENOENT p)) fs
      end
  | PiggybackDir =>
      if bool_decide (piggyback_tree fs = ∅)
      then syscall (sys_rmdir p) (inr tt) fs
      else syscall (sys_rmdir p) (inl (OSError ENOTEMPTY p)) fs
  | PiggybackSourceDir =>
      if bool_decide (source_tree fs = ∅)
      then syscall (sys_rmdir p) (inr tt) fs
      else syscall (sys_rmdir p) (inl (OSError ENOTEMPTY p)) fs
  | _ =>
      match lookup_file fs p with
      | Some _ => syscall (sys_rmdir p) (inl (OSError ENOTDIR p)) fs
      | None => syscall (sys_rmdir p) (inl (OSError ENOENT p)) fs
      end
  end.

(** [os.utime(p, (atime, mtime))] with two floats. *)
Definition os_utime (p : Path) (times : float * float) : M unit := λ fs,
  match lookup_file fs p with
  | Some f =>
      match put_file p (mkFile (contents f) (utime_ns times.1) (utime_ns times.2)) fs with
      | Some fs' => syscall (sys_utime p times.1 times.2) (inr tt) fs'
      | None => syscall (sys_utime p times.1 times.2) (inl (OSError ENOENT p)) fs
      end
  | None => syscall (sys_utime p times.1 times.2) (inl (OSError ENOENT p)) fs
  end.

(** [os.rename(src, dst)]: the file keeps its content and its times. *)
Definition os_rename (src dst : Path) : M unit := λ fs,
  match lookup_file fs src with
  | Some f =>
      match put_file dst f (remove_file src fs) with
      | Some fs' => syscall (sys_rename src dst) (inr tt) fs'
      | None => syscall (sys_rename src dst) (inl (OSError ENOENT dst)) fs
      end
  | None => syscall (sys_rename src dst) (inl (OSError ENOENT src)) fs
  end.

(** [tempfile.NamedTemporaryFile("wb", dir=dir, prefix=prefix, delete=False)]
    and the empty write: an empty file [dir / (prefix + suffix)] created now,
    where [suffix] stands for the characters [tempfile] draws.  The name has
    to be unused (the file is opened with [O_EXCL]). *)
Definition NamedTemporaryFile (now : Z) (dir : Path) (prefix suffix : string)
  : M Path := λ fs,
  let tmp :=
    match dir with
    | PiggybackSourceDir => SourceState (prefix +:+ suffix)
    | HostFolder h => HostSource h (prefix +:+ suffix)
    | _ => dir
    end in
  match lookup_file fs tmp with
  | Some _ => syscall (sys_mkstemp tmp) (inl (OSError EEXIST tmp)) fs
  | None =>
      match put_file tmp (mkFile [] now now) fs with
      | Some fs' => syscall (sys_mkstemp tmp) (inr tmp) fs'
      | None => syscall (sys_mkstemp tmp) (inl (OSError ENOENT tmp)) fs
      end
  end.

(** Modelled from the spec: [cmk.utils.store] is not among the sources.
    [store.load_bytes_from_file] gives the bytes of the file; a file that is
    gone is a read failure, an [OSError]. *)
Definition load_bytes_from_file (p : Path) : M bytes := λ fs,
  match lookup_file fs p with
  | Some f => syscall (sys_read p) (inr (contents f)) fs
  | None => syscall (sys_read p) (inl (OSError ENOENT p)) fs
  end.

(** Modelled from the spec: [cmk.utils.store] is not among the sources.
    [store.save_bytes_to_file] overwrites the file with [data]; the folder is
    made when it is missing, and the file written now carries the current
    time. *)
Definition save_bytes_to_file (now : Z) (p : Path) (data : bytes) : M unit := λ fs,
  let f := mkFile data now now in
  match p with
  | HostSource h s =>
      let d := default ∅ (piggyback_tree fs !! h) in
      syscall (sys_save p data) (inr tt)
        (set_piggyback_tree (<[h := <[s := f]> d]> (piggyback_tree fs)) fs)
  | SourceState n =>
      syscall (sys_save p data) (inr tt)
        (set_source_tree (<[n := f]> (source_tree fs)) fs)
  | _ => syscall (sys_save p data) (inl (OSError ENOTDIR p)) fs
  end.

(** Modelled from the spec: [cmk.utils.store] is not among the sources.
    [store.makedirs] makes the directory unless it is there; on a root of
    the model nothing changes. *)
Definition makedirs (p : Path) : M unit := λ fs,
  match p with
  | HostFolder h =>
      syscall (sys_makedirs p) (inr tt)
        (set_piggyback_tree
           (<[h := default ∅ (piggyback_tree fs !! h)]> (piggyback_tree fs)) fs)
  | PiggybackDir | PiggybackSourceDir => syscall (sys_makedirs p) (inr tt) fs
  | _ => syscall (sys_makedirs p) (inl (OSError EEXIST p)) fs
  end.

(** ** Records *)

Record PiggybackFileInfo : Type := mkPiggybackFileInfo {
  source : HostName;
  file_path : Path;
  valid : bool;
  message : string;
  status : Z
}.

(** The dataclass constructor with its [__post_init__]. *)
Definition PiggybackFileInfo_new (source : HostName) (file_path : Path)
  (valid : bool) (message : string) (status : Z) : Exception + PiggybackFileInfo :=
  match message with
  | EmptyString => inl (ValueError message)
  | String _ _ => inr (mkPiggybackFileInfo source file_path valid message status)
  end.

Record PiggybackRawDataInfo : Type := mkPiggybackRawDataInfo {
  info : PiggybackFileInfo;
  raw_data : bytes
}.

(** ** Time settings *)

Abbreviation _PiggybackTimeSetting := (option string * string * Z)%type (only parsing).
Abbreviation PiggybackTimeSettings := (list (option string * string * Z)) (only parsing).

(** Python's [re.match(pattern, string)] as a test: [Some true] when it gives
    a match object, [Some false] when it gives [None], and [None] when the
    pattern does not compile ([re.error] is raised). *)
Class Regex : Type := { re_match : string → string → option bool }.

(** [dict.setdefault] *)
Definition setdefault `{Countable K} {V} (k : K) (v : V) (m : gmap K V) : gmap K V :=
  match m !! k with
  | Some _ => m
  | None => <[k := v]> m
  end.

(** [expr[1:]] *)
Definition str_tail (s : string) : string :=
  match s with
  | EmptyString => EmptyString
  | String _ r => r
  end.

Record _TimeSettingsMap : Type := mk_TimeSettingsMap {
  _expanded_settings : gmap (option string * string) Z
}.

Section TimeSettings.
Context `{Regex}.

(** The body of the loop of [_TimeSettingsMap.__init__]. *)
Definition _TimeSettingsMap_register (source_hostnames : list HostName)
  (piggybacked_hostname : HostName)
  (matching_time_settings : gmap (option string * string) Z)
  (rule : option string * string * Z)
  : Exception + gmap (option string * string) Z :=
  let '(expr, key, value) := rule in
  match expr with
  | None => inr (setdefault (None, key) value matching_time_settings)
  | Some e =>
      if bool_decide (e ∈ source_hostnames) || bool_decide (e = piggybacked_hostname)
      then inr (setdefault (Some e, key) value matching_time_settings)
      else if startswith e "~" then
        match re_match (str_tail e) piggybacked_hostname with
        | Some true =>
            inr (setdefault (Some piggybacked_hostname, key) value matching_time_settings)
        | Some false => inr matching_time_settings
        | None => inl (ReError (str_tail e))
        end
      else inr matching_time_settings
  end.

Fixpoint _TimeSettingsMap_loop (source_hostnames : list HostName)
  (piggybacked_hostname : HostName) (time_settings : PiggybackTimeSettings)
  (matching_time_settings : gmap (option string * string) Z)
  : Exception + gmap (option string * string) Z :=
  match time_settings with
  | [] => inr matching_time_settings
  | rule :: rest =>
      match _TimeSettingsMap_register source_hostnames piggybacked_hostname
              matching_time_settings rule with
      | inl e => inl e
      | inr m => _TimeSettingsMap_loop source_hostnames piggybacked_hostname rest m
      end
  end.

(** [_TimeSettingsMap.__init__] *)
Definition _TimeSettingsMap_init (source_hostnames : list HostName)
  (piggybacked_hostname : HostName) (time_settings : PiggybackTimeSettings)
  : Exception + _TimeSettingsMap :=
  match _TimeSettingsMap_loop source_hostnames piggybacked_hostname time_settings ∅ with
  | inl e => inl e
  | inr m => inr (mk_TimeSettingsMap m)
  end.

End TimeSettings.

(** [_TimeSettingsMap._match]: each [suppress(KeyError)] block falls through
    to the next lookup, the last lookup raises. *)
Definition _match (self : _TimeSettingsMap) (key : string)
  (source_hostname piggybacked_hostname : HostName) : Exception + Z :=
  match _expanded_settings self !! (Some piggybacked_hostname, key) with
  | Some v => inr v
  | None =>
      match _expanded_settings self !! (Some source_hostname, key) with
      | Some v => inr v
      | None =>
          match _expanded_settings self !! (None, key) with
          | Some v => inr v
          | None => inl (KeyError (None, key))
          end
      end
  end.

Definition max_cache_age (self : _TimeSettingsMap)
  (source_hostname piggybacked_hostname : HostName) : Exception + Z :=
  _match self "max_cache_age" source_hostname piggybacked_hostname.

(** [_match] raises nothing but [KeyError], which is caught here. *)
Definition validity_period (self : _TimeSettingsMap)
  (source_hostname piggybacked_hostname : HostName) : option Z :=
  match _match self "validity_period" source_hostname piggybacked_hostname with
  | inr v => Some v
  | inl _ => None
  end.

Definition validity_state (self : _TimeSettingsMap)
  (source_hostname piggybacked_hostname : HostName) : Z :=
  match _match self "validity_state" source_hostname piggybacked_hostname with
  | inr v => v
  | inl _ => 0
  end.

(** ** Rendering of time differences *)

(** [round(value)]: an [int] is its own rounding. *)
Definition py_round (value : Number) : Z :=
  match value with
  | Int n => n
  | Float x => float_round x
  end.

(** ["%02d"] *)
Definition fmt_02d (n : Z) : string :=
  if (0 <=? n) && (n <? 10) then "0" +:+ pretty n else pretty n.

(** [str(datetime.timedelta(seconds=n))] for an integer [n]; the range limit
    of [timedelta] (a thousand million days) is not modelled. *)
Definition str_timedelta (n : Z) : string :=
  let days := n / 86400 in
  let seconds := n mod 86400 in
  let mm := seconds / 60 in
  let ss := seconds mod 60 in
  let hh := mm / 60 in
  let mm := mm mod 60 in
  let s := pretty hh +:+ ":" +:+ fmt_02d mm +:+ ":" +:+ fmt_02d ss in
  if days =? 0 then s
  else pretty days +:+ " day" +:+ (if Z.abs days =? 1 then "" else "s") +:+ ", " +:+ s.

(** [_render_time] *)
Definition _render_time (value : Number) : string := str_timedelta (py_round value).

(** ** File info inspector *)

(** [_time_since_last_modification]: [time.time() - path.stat().st_mtime] *)
Definition _time_since_last_modification (now : Z) (path : Path) : M float :=
  st <- os_stat path ;;
  ret (time_time now - st_mtime st)%float.

(** [bool(s)] of a string *)
Definition str_bool (s : string) : bool :=
  match s with
  | EmptyString => false
  | String _ _ => true
  end.

(** In [validity_period - file_age] the [int] becomes a float. *)
Definition _validity_period_message (file_age : float) (validity_period : option Z)
  : string :=
  match validity_period with
  | None => ""
  | Some p =>
      let time_left := (float_of_Z p - file_age)%float in
      if float_le_Z time_left 0 then ""
      else " (still valid, " +:+ _render_time (Float time_left) +:+ " left)"
  end.

(** The two [os.stat] calls are read through index 8 of the stat tuple:
    whole seconds. *)
Definition _is_piggybacked_host_abandoned (status_file_path piggyback_file_path : Path)
  : M bool :=
  try_except
    (s <- os_stat status_file_path ;;
     p <- os_stat piggyback_file_path ;;
     ret (stat_8 p <? stat_8 s))
    is_FileNotFoundError
    (λ _, ret true).

Definition _get_piggyback_processed_file_info (now : Z) (source_hostname : HostName)
  (piggybacked_hostname : HostName) (piggyback_file_path : Path)
  (settings : _TimeSettingsMap) : M PiggybackFileInfo :=
  age <- try_except
           (file_age <- _time_since_last_modification now piggyback_file_path ;;
            ret (Some file_age))
           is_FileNotFoundError
           (λ _, ret None) ;;
  match age with
  | None =>
      lift (PiggybackFileInfo_new source_hostname piggyback_file_path false
              "Piggyback file is missing" 0)
  | Some file_age =>
      allowed <- lift (max_cache_age settings source_hostname piggybacked_hostname) ;;
      if float_gt_Z file_age allowed then
        lift (PiggybackFileInfo_new source_hostname piggyback_file_path false
                ("Piggyback file too old (age: " +:+ _render_time (Float file_age)
                 +:+ ", allowed: " +:+ _render_time (Int allowed) +:+ ")") 0)
      else
        let validity_period := validity_period settings source_hostname piggybacked_hostname in
        let validity_state := validity_state settings source_hostname piggybacked_hostname in
        let status_file_path := _get_source_status_file_path source_hostname in
        abandoned <- _is_piggybacked_host_abandoned status_file_path piggyback_file_path ;;
        if abandoned : bool then
          let valid_msg := _validity_period_message file_age validity_period in
          lift (PiggybackFileInfo_new source_hostname piggyback_file_path
                  (str_bool valid_msg)
                  ("Piggyback data not updated by source '" +:+ source_hostname
                   +:+ "'" +:+ valid_msg)
                  (if str_bool valid_msg then validity_state else 0))
        else
          lift (PiggybackFileInfo_new source_hostname piggyback_file_path true
                  ("Successfully processed from source '" +:+ source_hostname +:+ "'") 0)
  end.

(** ** Folders and files *)

Definition _files_in (path : Path) : M (list Path) :=
  try_except
    (entries <- iterdir path ;;
     ret (List.filter (λ f, negb (startswith (name f) ".")) entries))
    is_FileNotFoundError
    (λ _, ret []).

Definition _get_piggybacked_host_folders : M (list Path) := _files_in PiggybackDir.

Definition _get_source_state_files : M (list Path) := _files_in PiggybackSourceDir.

Definition get_source_hostnames (piggybacked_hostname : option HostName)
  : M (list HostName) :=
  match piggybacked_hostname with
  | None =>
      folders <- _get_piggybacked_host_folders ;;
      per_folder <- list_comp folders
                      (λ piggybacked_host_folder,
                         files <- _files_in piggybacked_host_folder ;;
                         ret (name <$> files)) ;;
      ret (concat per_folder)
  | Some h =>
      let piggybacked_host_folder := HostFolder h in
      files <- _files_in piggybacked_host_folder ;;
      ret (name <$> files)
  end.

Section Readers.
Context `{Regex}.

Definition _get_piggyback_processed_file_infos (now : Z) (piggybacked_hostname : HostName)
  (time_settings : PiggybackTimeSettings) : M (list PiggybackFileInfo) :=
  source_hostnames <- get_source_hostnames (Some piggybacked_hostname) ;;
  expanded_time_settings <-
    lift (_TimeSettingsMap_init source_hostnames piggybacked_hostname time_settings) ;;
  list_comp source_hostnames
    (λ source_hostname,
       _get_piggyback_processed_file_info now source_hostname piggybacked_hostname
         (_get_piggybacked_file_path source_hostname piggybacked_hostname)
         expanded_time_settings).

(** ** Raw data accessor *)

(** The body of the loop of [get_piggyback_raw_data]. *)
Definition get_piggyback_raw_data_entry (file_info : PiggybackFileInfo)
  : M PiggybackRawDataInfo :=
  try_except
    (data <- load_bytes_from_file (file_path file_info) ;;
     ret (mkPiggybackRawDataInfo file_info data))
    is_OSError
    (λ exc,
       degraded <- lift (PiggybackFileInfo_new (source file_info) (file_path file_info)
                           false
                           ("Cannot read piggyback raw data from source '"
                            +:+ source file_info +:+ "': " +:+ str_exc exc)
                           0) ;;
       ret (mkPiggybackRawDataInfo degraded [])).

(** [not piggybacked_hostname]: [None] or the empty string. *)
Definition not_hostname (h : option HostName) : bool :=
  match h with
  | None => true
  | Some s => negb (str_bool s)
  end.

Definition get_piggyback_raw_data (now : Z) (piggybacked_hostname : option HostName)
  (time_settings : PiggybackTimeSettings) : M (list PiggybackRawDataInfo) :=
  match piggybacked_hostname with
  | None => ret []
  | Some h =>
      if not_hostname (Some h) then ret []
      else
        piggyback_file_infos <- _get_piggyback_processed_file_infos now h time_settings ;;
        match piggyback_file_infos with
        | [] => ret []
        | _ => list_comp piggyback_file_infos get_piggyback_raw_data_entry
        end
  end.

(** [get_source_and_piggyback_hosts], the generator consumed to its end.
    When the generator raises, the pairs it yielded before are not part of
    the result of the model. *)
Definition get_source_and_piggyback_hosts (now : Z) (time_settings : PiggybackTimeSettings)
  : M (list (HostName * HostName)) :=
  folders <- _get_piggybacked_host_folders ;;
  per_folder <-
    list_comp folders
      (λ piggybacked_host_folder,
         file_infos <- _get_piggyback_processed_file_infos now
                         (name piggybacked_host_folder) time_settings ;;
         ret ((λ file_info, (source file_info, name piggybacked_host_folder))
                <$> List.filter valid file_infos)) ;;
  ret (concat per_folder).

Definition has_piggyback_raw_data (now : Z) (piggybacked_hostname : HostName)
  (time_settings : PiggybackTimeSettings) : M bool :=
  file_infos <- _get_piggyback_processed_file_infos now piggybacked_hostname time_settings ;;
  ret (existsb valid file_infos).

End Readers.

(** ** Status file writer *)

Definition _remove_piggyback_file (piggyback_file_path : Path) : M bool :=
  try_except
    (unlink piggyback_file_path ;;; ret true)
    is_FileNotFoundError
    (λ _, ret false).

Definition remove_source_status_file (source_hostname : HostName) : M bool :=
  let source_status_path := _get_source_status_file_path source_hostname in
  _remove_piggyback_file source_status_path.

Definition newline : byte := x0a.

(** [sep.join(lines)] *)
Fixpoint bytes_join (sep : bytes) (lines : list bytes) : bytes :=
  match lines with
  | [] => []
  | [l] => l
  | l :: rest => l ++ sep ++ bytes_join sep rest
  end.

(** [b"%s\n" % b"\n".join(lines)] *)
Definition payload_bytes (lines : list bytes) : bytes :=
  bytes_join [newline] lines ++ [newline].

(** The temporary file is created at [now]; [suffix] stands for the
    characters [tempfile] appends to the prefix. *)
Definition _store_status_file_of (now : Z) (suffix : string)
  (status_file_path : Path) (piggyback_file_paths : list Path) : M unit :=
  makedirs (parent status_file_path) ;;;
  tmp_path <- NamedTemporaryFile now (parent status_file_path)
                ("." +:+ name status_file_path +:+ ".new") suffix ;;
  tmp_stats <- os_stat tmp_path ;;
  let status_file_times := (st_atime tmp_stats, st_mtime tmp_stats) in
  for_each piggyback_file_paths
    (λ piggyback_file_path,
       try_except
         (os_utime piggyback_file_path status_file_times)
         is_FileNotFoundError
         (λ _, ret tt)) ;;;
  os_rename tmp_path status_file_path.

(** The mapping is given by its items, in the order of the dict (the keys
    of a dict are distinct).  The payload files are written at [written],
    the temporary status file is created at [created]. *)
Definition store_piggyback_raw_data (written created : Z) (suffix : string)
  (source_hostname : HostName)
  (piggybacked_raw_data : list (HostName * list bytes)) : M unit :=
  match piggybacked_raw_data with
  | [] =>
      remove_source_status_file source_hostname ;;;
      ret tt
  | _ =>
      piggyback_file_paths <-
        list_comp piggybacked_raw_data
          (λ '(piggybacked_hostname, lines),
             let piggyback_file_path :=
               _get_piggybacked_file_path source_hostname piggybacked_hostname in
             save_bytes_to_file written piggyback_file_path (payload_bytes lines) ;;;
             ret piggyback_file_path) ;;
      let status_file_path := _get_source_status_file_path source_hostname in
      _store_status_file_of created suffix status_file_path piggyback_file_paths
  end.

(** ** Cleanup *)

Section Cleanup.
Context `{Regex}.

Definition _get_piggybacked_hosts_settings (time_settings : PiggybackTimeSettings)
  : M (list (Path * list Path * _TimeSettingsMap)) :=
  folders <- _get_piggybacked_host_folders ;;
  list_comp folders
    (λ piggybacked_host_folder,
       source_hosts <- _files_in piggybacked_host_folder ;;
       time_settings_map <-
         lift (_TimeSettingsMap_init (name <$> source_hosts)
                 (name piggybacked_host_folder) time_settings) ;;
       ret (piggybacked_host_folder, source_hosts, time_settings_map)).

End Cleanup.

(** The update of [max_cache_age_by_sources] for one source file. *)
Definition keep_greatest (max_cache_age_by_sources : gmap string Z)
  (source : string) (max_cache_age : Z) : gmap string Z :=
  match max_cache_age_by_sources !! source with
  | None => <[source := max_cache_age]> max_cache_age_by_sources
  | Some max_cache_age_of_source =>
      if max_cache_age_of_source <=? max_cache_age
      then <[source := max_cache_age]> max_cache_age_by_sources
      else max_cache_age_by_sources
  end.

(** The first loop nest of [_cleanup_old_source_status_files]; it reads no
    file. *)
Fixpoint max_cache_age_of_folder (piggybacked_host_folder : Path)
  (time_settings : _TimeSettingsMap) (source_hosts : list Path)
  (max_cache_age_by_sources : gmap string Z) : Exception + gmap string Z :=
  match source_hosts with
  | [] => inr max_cache_age_by_sources
  | source_host :: rest =>
      match max_cache_age time_settings (name source_host)
              (name piggybacked_host_folder) with
      | inl e => inl e
      | inr age =>
          max_cache_age_of_folder piggybacked_host_folder time_settings rest
            (keep_greatest max_cache_age_by_sources (name source_host) age)
      end
  end.

Fixpoint max_cache_age_of_folders
  (piggybacked_hosts_settings : list (Path * list Path * _TimeSettingsMap))
  (max_cache_age_by_sources : gmap string Z) : Exception + gmap string Z :=
  match piggybacked_hosts_settings with
  | [] => inr max_cache_age_by_sources
  | (piggybacked_host_folder, source_hosts, time_settings) :: rest =>
      match max_cache_age_of_folder piggybacked_host_folder time_settings
              source_hosts max_cache_age_by_sources with
      | inl e => inl e
      | inr m => max_cache_age_of_folders rest m
      end
  end.

(** The body of the second loop of [_cleanup_old_source_status_files]. *)
Definition _cleanup_old_source_status_file (now : Z)
  (max_cache_age_by_sources : gmap string Z) (source_state_file : Path) : M unit :=
  age <- try_except
           (file_age <- _time_since_last_modification now source_state_file ;;
            ret (Some file_age))
           is_FileNotFoundError
           (λ _, ret None) ;;
  match age with
  | None => ret tt
  | Some file_age =>
      match max_cache_age_by_sources !! name source_state_file with
      | None => ret tt
      | Some max_cache_age_of_source =>
          if float_gt_Z file_age max_cache_age_of_source then
            _remove_piggyback_file source_state_file ;;;
            ret tt
          else ret tt
      end
  end.

Definition _cleanup_old_source_status_files (now : Z)
  (piggybacked_hosts_settings : list (Path * list Path * _TimeSettingsMap)) : M unit :=
  max_cache_age_by_sources <- lift (max_cache_age_of_folders piggybacked_hosts_settings ∅) ;;
  source_state_files <- _get_source_state_files ;;
  for_each source_state_files
    (_cleanup_old_source_status_file now max_cache_age_by_sources).

(** The body of the inner loop of [_cleanup_old_piggybacked_files]. *)
Definition _cleanup_old_piggybacked_file (now : Z) (piggybacked_host_folder : Path)
  (time_settings : _TimeSettingsMap) (piggybacked_host_source : Path) : M unit :=
  let src := name piggybacked_host_source in
  let dst := name piggybacked_host_folder in
  age <- try_except
           (file_age <- _time_since_last_modification now piggybacked_host_source ;;
            ret (Some file_age))
           is_FileNotFoundError
           (λ _, ret None) ;;
  match age with
  | None => ret tt
  | Some file_age =>
      max_cache_age <- lift (max_cache_age time_settings src dst) ;;
      let validity_period := default 0 (validity_period time_settings src dst) in
      if float_le_Z file_age max_cache_age || float_le_Z file_age validity_period
      then ret tt
      else
        _remove_piggyback_file piggybacked_host_source ;;;
        ret tt
  end.

(** The removal of the folder at the end of the outer loop's body. *)
Definition _remove_empty_folder (piggybacked_host_folder : Path) : M unit :=
  try_except
    (rmdir piggybacked_host_folder)
    is_OSError
    (λ e,
       match e with
       | OSError ENOTEMPTY _ => ret tt
       | _ => raise e
       end).

Definition _cleanup_old_piggybacked_files (now : Z)
  (piggybacked_hosts_settings : list (Path * list Path * _TimeSettingsMap)) : M unit :=
  for_each piggybacked_hosts_settings
    (λ '(piggybacked_host_folder, source_hosts, time_settings),
       for_each source_hosts
         (_cleanup_old_piggybacked_file now piggybacked_host_folder time_settings) ;;;
       _remove_empty_folder piggybacked_host_folder).

Definition cleanup_piggyback_files `{Regex} (now : Z)
  (time_settings : PiggybackTimeSettings) : M unit :=
  piggybacked_hosts_settings <- _get_piggybacked_hosts_settings time_settings ;;
  _cleanup_old_source_status_files now piggybacked_hosts_settings ;;;
  _cleanup_old_piggybacked_files now piggybacked_hosts_settings.

(** ** Definitions used to state the properties *)

Section Resolution.
Context `{Regex}.

(** The scope a rule registers under for the given known sources and
    target, if it applies at all: its own literal scope when it is global,
    names a known source or names the target; the target's scope when it is
    a regex (marker [~]) that matches the target. *)
Definition rule_scope (source_hostnames : list HostName) (piggybacked_hostname : HostName)
  (expr : option string) : option (option string) :=
  match expr with
  | None => Some None
  | Some e =>
      if bool_decide (e ∈ source_hostnames) || bool_decide (e = piggybacked_hostname)
      then Some (Some e)
      else if startswith e "~" then
        match re_match (str_tail e) piggybacked_hostname with
        | Some true => Some (Some piggybacked_hostname)
        | _ => None
        end
      else None
  end.

(** First-wins: the value of the first rule of the sequence that registers
    under [scope] for [key]. *)
Fixpoint first_registered (source_hostnames : list HostName)
  (piggybacked_hostname : HostName) (time_settings : PiggybackTimeSettings)
  (scope : option string) (key : string) : option Z :=
  match time_settings with
  | [] => None
  | (expr, k, value) :: rest =>
      if bool_decide (rule_scope source_hostnames piggybacked_hostname expr = Some scope)
         && bool_decide (k = key)
      then Some value
      else first_registered source_hostnames piggybacked_hostname rest scope key
  end.

(** The setting [key] resolves nowhere for the pair: not under the target,
    not under the source, not globally. *)
Definition resolves_nowhere (source_hostnames : list HostName)
  (piggybacked_hostname : HostName) (time_settings : PiggybackTimeSettings)
  (key : string) (source_hostname : HostName) : Prop :=
  first_registered source_hostnames piggybacked_hostname time_settings
    (Some piggybacked_hostname) key = None
  ∧ first_registered source_hostnames piggybacked_hostname time_settings
      (Some source_hostname) key = None
  ∧ first_registered source_hostnames piggybacked_hostname time_settings None key = None.

(** The lookup order of the spec for a source and the target: the
    target-scoped value, else the source-scoped value, else the global
    value, each the first registered; [None] when the setting resolves
    nowhere. *)
Definition resolved_setting (source_hostnames : list HostName)
  (piggybacked_hostname : HostName) (time_settings : PiggybackTimeSettings)
  (key : string) (source_hostname : HostName) : option Z :=
  match first_registered source_hostnames piggybacked_hostname time_settings
          (Some piggybacked_hostname) key with
  | Some v => Some v
  | None =>
      match first_registered source_hostnames piggybacked_hostname time_settings
              (Some source_hostname) key with
      | Some v => Some v
      | None =>
          first_registered source_hostnames piggybacked_hostname time_settings None key
      end
  end.

End Resolution.

(** Abandonment as the inspector tests it: no status file, or a status file
    whose mtime in whole seconds is greater than the payload's. *)
Definition abandoned_whole_seconds (fs : FS) (source_hostname : HostName)
  (payload : File) : bool :=
  match lookup_file fs (_get_source_status_file_path source_hostname) with
  | None => true
  | Some s => stat_8 payload <? stat_8 s
  end.

(** Abandonment on the full timestamps: no status file, or a status file
    whose mtime is greater than the payload's. *)
Definition abandoned_mtime (fs : FS) (source_hostname : HostName)
  (payload : File) : bool :=
  match lookup_file fs (_get_source_status_file_path source_hostname) with
  | None => true
  | Some s => st_mtime_ns payload <? st_mtime_ns s
  end.

(** The age of a file at the reading [now] of the clock, as
    [_time_since_last_modification] computes it: a difference of floats. *)
Definition file_age (now : Z) (f : File) : float := (time_time now - st_mtime f)%float.

(** A validity period resolves, and the period minus the age, a difference
    of floats, is not [<= 0]. *)
Definition still_valid (settings : _TimeSettingsMap)
  (source_hostname piggybacked_hostname : HostName) (file_age : float) : bool :=
  match validity_period settings source_hostname piggybacked_hostname with
  | Some p => negb (float_le_Z (float_of_Z p - file_age)%float 0)
  | None => false
  end.

(** What [iterdir] yields for a directory of the model (nothing for a
    folder that is missing), and the part of it [_files_in] keeps. *)
Definition dir_entries (fs : FS) (p : Path) : list Path :=
  match p with
  | PiggybackDir => HostFolder <$> (map_to_list (piggyback_tree fs)).*1
  | PiggybackSourceDir => SourceState <$> (map_to_list (source_tree fs)).*1
  | HostFolder h =>
      match piggyback_tree fs !! h with
      | Some d => HostSource h <$> (map_to_list d).*1
      | None => []
      end
  | _ => []
  end.

Definition visible_entries (fs : FS) (p : Path) : list Path :=
  List.filter (λ f, negb (startswith (name f) ".")) (dir_entries fs p).

Definition is_dir_path (p : Path) : bool :=
  match p with
  | PiggybackDir | PiggybackSourceDir | HostFolder _ => true
  | _ => false
  end.

(** The name of the writer's temporary status file. *)
Definition tmp_status_name (source_hostname : HostName) (suffix : string) : string :=
  ("." +:+ name (_get_source_status_file_path source_hostname) +:+ ".new") +:+ suffix.

(** A file after [os.utime] with two floats: the content stays, the times
    are what the floats give. *)
Definition with_times (times : float * float) (f : File) : File :=
  mkFile (contents f) (utime_ns times.1) (utime_ns times.2).

(** The timestamp a file gets when [os.utime] is given the float a stat
    result holds for the timestamp [ns]. *)
Definition utime_round_trip (ns : Z) : Z := utime_ns (st_time ns).

(** The way through the float does not take the timestamp into an earlier
    whole second. *)
Definition whole_second_kept (ns : Z) : bool :=
  ns / ns_per_s <=? utime_round_trip ns / ns_per_s.

(** The payload files a batch of a source is written to. *)
Definition payload_paths (source_hostname : HostName)
  (piggybacked_raw_data : list (HostName * list bytes)) : list Path :=
  (λ item, _get_piggybacked_file_path source_hostname item.1) <$> piggybacked_raw_data.

(** The entry of the accessor for a file info that could not be read. *)
Definition degraded (file_info : PiggybackFileInfo) (exc : Exception) : PiggybackFileInfo :=
  mkPiggybackFileInfo (source file_info) (file_path file_info) false
    ("Cannot read piggyback raw data from source '" +:+ source file_info
     +:+ "': " +:+ str_exc exc)
    0.

(** The entry of the accessor for a file info, by what the storage holds
    at its path when the payload is read. *)
Definition raw_data_entry_of (fs : FS) (file_info : PiggybackFileInfo)
  : PiggybackRawDataInfo :=
  match lookup_file fs (file_path file_info) with
  | Some f => mkPiggybackRawDataInfo file_info (contents f)
  | None =>
      mkPiggybackRawDataInfo
        (degraded file_info (OSError ENOENT (file_path file_info))) []
  end.

(** The rules resolve [max_cache_age] for every pair with the given
    piggybacked host: a global default is among them, and every regex
    among them compiles. *)
Definition resolvable `{Regex} (time_settings : PiggybackTimeSettings)
  (piggybacked_hostname : HostName) : Prop :=
  (∃ value, (None, "max_cache_age", value) ∈ time_settings)
  ∧ ∀ e key value, (Some e, key, value) ∈ time_settings →
      startswith e "~" = true →
      re_match (str_tail e) piggybacked_hostname ≠ None.

(** [data.split(b"\n")] *)
Fixpoint split_newline (data : bytes) : list bytes :=
  match data with
  | [] => [[]]
  | b :: rest =>
      if bool_decide (b = newline) then [] :: split_newline rest
      else match split_newline rest with
           | l :: ls => (b :: l) :: ls
           | [] => [[b]]
           end
  end.

(** Modelled from the spec: the reader that splits a payload into lines is
    not among the sources.  The payload is newline-joined and its trailing
    newline is stripped by the reader's line splitting: the pieces between
    newlines, without the empty piece after the last newline. *)
Definition read_lines (data : bytes) : list bytes := removelast (split_newline data).

(** The resolved [max_cache_age] values of the pairs of one folder, and of
    all folders of the list, whose source file has the given name. *)
Definition folder_candidates (piggybacked_host_folder : Path)
  (time_settings : _TimeSettingsMap) (source_hosts : list Path) (source : string)
  : list Z :=
  source_hosts ≫= λ source_host,
    if bool_decide (name source_host = source) then
      match max_cache_age time_settings (name source_host)
              (name piggybacked_host_folder) with
      | inr age => [age]
      | inl _ => []
      end
    else [].

Definition retention_candidates
  (piggybacked_hosts_settings : list (Path * list Path * _TimeSettingsMap))
  (source : string) : list Z :=
  piggybacked_hosts_settings ≫= λ '(piggybacked_host_folder, source_hosts, time_settings),
    folder_candidates piggybacked_host_folder time_settings source_hosts source.

(** [greatest] is the maximum of the list, if the list has one. *)
Definition is_greatest (l : list Z) (greatest : option Z) : Prop :=
  match greatest with
  | None => l = []
  | Some m => m ∈ l ∧ ∀ v, v ∈ l → v ≤ m
  end.

(** The status file at [p] is older than the retention kept for its name. *)
Definition status_file_expired (now : Z) (max_cache_age_by_sources : gmap string Z)
  (fs : FS) (p : Path) : bool :=
  match lookup_file fs p, max_cache_age_by_sources !! name p with
  | Some f, Some max_cache_age_of_source =>
      float_gt_Z (file_age now f) max_cache_age_of_source
  | _, _ => false
  end.

(** The age of the payload file [f] is within neither the resolved
    [max_cache_age] nor the resolved [validity_period] of the pair (a
    [validity_period] that does not resolve counting as 0): neither test
    [file_age <= ...] of the sweep holds. *)
Definition payload_expired (now : Z) (time_settings : _TimeSettingsMap)
  (src dst : HostName) (f : File) : bool :=
  match max_cache_age time_settings src dst with
  | inr allowed =>
      negb (float_le_Z (file_age now f) allowed)
      && negb (float_le_Z (file_age now f)
                 (default 0 (validity_period time_settings src dst)))
  | inl _ => false
  end.

(** The calls that only read the storage. *)
Definition reads_only (c : Syscall) : bool :=
  match c with
  | sys_stat _ | sys_iterdir _ | sys_read _ => true
  | _ => false
  end.

(** The validity flag and the status of the record the inspector builds for
    a payload file that is there, by the three tests it makes. *)
Definition verdict (now : Z) (settings : _TimeSettingsMap)
  (source_hostname piggybacked_hostname : HostName) (allowed : Z) (fs : FS) (f : File)
  : bool * Z :=
  if float_gt_Z (file_age now f) allowed then (false, 0)
  else if abandoned_whole_seconds fs source_hostname f then
    if still_valid settings source_hostname piggybacked_hostname (file_age now f)
    then (true, validity_state settings source_hostname piggybacked_hostname)
    else (false, 0)
  else (true, 0).

(** The record of one source host with a payload file [f], under the
    settings of its piggybacked host. *)
Definition record_of (now : Z) (settings : _TimeSettingsMap)
  (piggybacked_hostname : HostName) (fs : FS)
  (source_hostname : HostName) (i : PiggybackFileInfo) : Prop :=
  source i = source_hostname
  ∧ file_path i = HostSource piggybacked_hostname source_hostname
  ∧ message i ≠ ""
  ∧ ∃ f allowed,
      lookup_file fs (HostSource piggybacked_hostname source_hostname) = Some f
      ∧ max_cache_age settings source_hostname piggybacked_hostname = inr allowed
      ∧ (valid i, status i)
        = verdict now settings source_hostname piggybacked_hostname allowed fs f.

(** A payload file the inspector takes as valid: [max_cache_age] resolves
    and the test [file_age > max_cache_age] fails, and the pair is not
    abandoned or still within its validity period. *)
Definition usable (now : Z) (settings : _TimeSettingsMap)
  (source_hostname piggybacked_hostname : HostName) (fs : FS) (f : File) : Prop :=
  ∃ allowed,
    max_cache_age settings source_hostname piggybacked_hostname = inr allowed
    ∧ float_gt_Z (file_age now f) allowed = false
    ∧ (abandoned_whole_seconds fs source_hostname f = false
       ∨ still_valid settings source_hostname piggybacked_hostname (file_age now f)
         = true).

(** The rule reaches the regex test of [_TimeSettingsMap.__init__] (it names
    no known source and not the target, and carries the marker [~]) and its
    pattern does not compile. *)
Definition pattern_fails `{Regex} (source_hostnames : list HostName)
  (piggybacked_hostname : HostName) (rule : option string * string * Z) : bool :=
  match rule with
  | (Some e, _, _) =>
      negb (bool_decide (e ∈ source_hostnames) || bool_decide (e = piggybacked_hostname))
      && startswith e "~"
      && bool_decide (re_match (str_tail e) piggybacked_hostname = None)
  | (None, _, _) => false
  end.

(** The files the listings of the sweep can reach: no name on the way to
    the file starts with a dot. *)
Definition listed_file (p : Path) : bool :=
  match p with
  | HostSource h s => negb (startswith h ".") && negb (startswith s ".")
  | SourceState n => negb (startswith n ".")
  | _ => false
  end.

(** ** Concrete inputs *)

(** A matcher for concrete runs: a pattern is read as a literal, which
    [re.match] finds when the string starts with it. *)
Definition literal_regex : Regex :=
  {| re_match pattern s := Some (String.prefix pattern s) |}.

Definition seconds (n : Z) : Z := n * ns_per_s.

Definition example_rules : list (option string * string * Z) :=
  [ (Some "~host", "max_cache_age", 600);
    (Some "host1", "max_cache_age", 900);
    (Some "srv1", "validity_period", 60);
    (None, "max_cache_age", 3600);
    (Some "~other", "validity_state", 2) ].

(** A payload written at 100.2 s and a status file of the same source
    renewed at 100.7 s: the source reported again, within the same second,
    without data for [host1]. *)
Definition payload_100_2 : File := mkFile [] 100200000000 100200000000.

Definition status_100_7 : File := mkFile [] 100700000000 100700000000.

Definition fs_same_second : FS :=
  mkFS {[ "host1" := {[ "srv1" := payload_100_2 ]} ]} {[ "srv1" := status_100_7 ]}.

(** Two sources with a payload for [host1], and rules that give a
    [max_cache_age] to the pairs of [srv1] only. *)
Definition fs_two_sources : FS :=
  mkFS {[ "host1" := <[ "srv2" := payload_100_2 ]> {[ "srv1" := payload_100_2 ]} ]}
    {[ "srv1" := status_100_7 ]}.

Definition rules_srv1_only : list (option string * string * Z) :=
  [ (Some "srv1", "max_cache_age", 3600) ].

(** The same payload with no status file of its source. *)
Definition fs_no_status : FS :=
  mkFS {[ "host1" := {[ "srv1" := payload_100_2 ]} ]} ∅.

(** A payload written at 4.4 s, with no status file of its source, and the
    settings with 60 s as the global [max_cache_age]. *)
Definition payload_4_4 : File := mkFile [] 4400000000 4400000000.



Definition settings_max_cache_age : _TimeSettingsMap :=
  mk_TimeSettingsMap {[ (None, "max_cache_age") := 3600 ]}.

Definition settings_with_validity : _TimeSettingsMap :=
  mk_TimeSettingsMap
    (<[ (None, "max_cache_age") := 3600 ]>
       (<[ (None, "validity_period") := 7200 ]>
          {[ (None, "validity_state") := 1 ]})).

(** A batch of a source for two piggybacked hosts. *)
Definition example_batch : list (string * list (list byte)) :=
  [ ("host1", [[x61; x62]; [x63]]); ("host2", [[x64]]) ].

(** The sources state directory in the middle of a write: the status file
    of [srv1] and the temporary file of its writer. *)
Definition fs_during_write : FS :=
  mkFS {[ "host1" := {[ "srv1" := payload_100_2 ]} ]}
    (<[ ".srv1.newabcd1234" := status_100_7 ]> {[ "srv1" := payload_100_2 ]}).

Definition info_host1 : PiggybackFileInfo :=
  mkPiggybackFileInfo "srv1" (HostSource "host1" "srv1") true
    "Successfully processed from source 'srv1'" 0.

Definition info_vanished : PiggybackFileInfo :=
  mkPiggybackFileInfo "srv2" (HostSource "host1" "srv2") true
    "Successfully processed from source 'srv2'" 0.

(** A status file of a source that no piggybacked host folder holds a file
    of. *)
Definition fs_orphan : FS := mkFS ∅ {[ "orphan" := payload_100_2 ]}.

(** The storage after a source of the name [.srv1] has written one line for
    [host1] to an empty storage. *)
Definition fs_hidden_source : FS :=
  fs_after (store_piggyback_raw_data (seconds 499) (seconds 500) "abcd1234" ".srv1"
              [("host1", [[x61]])] (mkFS ∅ ∅)).

(** One folder with the payload of [srv1], and its settings as the sweep
    lists them. *)
Definition example_settings_list : list (Path * list Path * _TimeSettingsMap) :=
  [ (HostFolder "host1", [HostSource "host1" "srv1"], settings_with_validity) ].

(** ** Proof automation *)

(** Closes a goal that says every call of a trace is of one kind. *)
Ltac stat_trace :=
  simpl;
  repeat first
    [ assumption
    | apply Forall_nil_2
    | apply Forall_cons; split; [by eexists|]
    | apply Forall_app; split ].

(** * Properties *)

(** ** Floats *)

Lemma float_compare_Z_is_Some x n : is_nan x = false → is_Some (float_compare_Z x n).
Proof.
  intros Hnan. unfold float_compare_Z, Prim2SF. rewrite Hnan.
  destruct (is_zero x); [by eexists|].
  destruct (is_infinity x); [by eexists|].
  destruct (Z.frexp x) as [r e].
  destruct (shr_fexp prec emax _ _ _) as [shr e'].
  destruct (shr_m shr); by eexists.
Qed.

(** For a float that is a number, [x <= n] fails exactly when [x > n]
    holds. *)
Lemma float_le_gt x n : is_nan x = false → float_le_Z x n = negb (float_gt_Z x n).
Proof.
  intros Hnan. destruct (float_compare_Z_is_Some x n Hnan) as [c Hc].
  unfold float_le_Z, float_gt_Z. rewrite Hc. by destruct c.
Qed.

Lemma float_gt_not_le x n : float_gt_Z x n = true → float_le_Z x n = false.
Proof.
  unfold float_le_Z, float_gt_Z. by destruct (float_compare_Z x n) as [[]|].
Qed.

Lemma float_gt_Z_mono x m n : n ≤ m → float_gt_Z x m = true → float_gt_Z x n = true.
Proof.
  intros Hle. unfold float_gt_Z, float_compare_Z.
  destruct (Prim2SF x) as [sg|sg| |sg mx e]; try done.
  - destruct (0 ?= m) eqn:Hm; try done. intros _.
    apply Z.compare_gt_iff in Hm.
    by rewrite (proj2 (Z.compare_gt_iff 0 n)) by lia.
  - destruct (0 <=? e) eqn:He.
    + destruct (_ ?= m) eqn:Hm; try done. intros _.
      apply Z.compare_gt_iff in Hm.
      by rewrite (proj2 (Z.compare_gt_iff _ n)) by lia.
    + destruct (_ ?= m * _) eqn:Hm; try done. intros _.
      apply Z.compare_gt_iff in Hm. apply Z.leb_gt in He.
      assert (0 < 2 ^ (- e)) by (apply Z.pow_pos_nonneg; lia).
      by rewrite (proj2 (Z.compare_gt_iff _ (n * 2 ^ (- e)))) by nia.
Qed.

(** A file modified at 4.4 s, read when the clock is at 64.4 s: the age the
    program computes is the float 60.00000000000001, above 60. *)
Example file_age_at_the_threshold :
  float_gt_Z (file_age 64400000000 payload_4_4) 60 = true
  ∧ float_le_Z (file_age 64400000000 payload_4_4) 60 = false.
Proof. split; vm_compute; reflexivity. Qed.

(** ** Computations *)

Lemma bind_inr {A B} (m : M A) (k : A → M B) fs a fs1 t1 :
  m fs = mkOutcome (inr a) fs1 t1 → bind m k fs = after t1 (k a fs1).
Proof. intros Hm. unfold bind. by rewrite Hm. Qed.

Lemma bind_inl {A B} (m : M A) (k : A → M B) fs e fs1 t1 :
  m fs = mkOutcome (inl e) fs1 t1 → bind m k fs = mkOutcome (inl e) fs1 t1.
Proof. intros Hm. unfold bind. by rewrite Hm. Qed.

(** ** File system calls *)

Lemma os_stat_run p fs :
  os_stat p fs =
  mkOutcome (match lookup_file fs p with
             | Some f => inr f
             | None => inl (OSError ENOENT p)
             end) fs [sys_stat p].
Proof. unfold os_stat, syscall. by destruct (lookup_file fs p). Qed.

(** The age of a file, or [None] when it is missing: the [try] block shared
    by the inspector and both cleanup passes. *)
Lemma file_age_run now p fs :
  try_except
    (file_age <- _time_since_last_modification now p ;; ret (Some file_age))
    is_FileNotFoundError (λ _, ret None) fs
  = mkOutcome (inr (file_age now <$> lookup_file fs p)) fs [sys_stat p].
Proof.
  unfold try_except, _time_since_last_modification, bind. rewrite os_stat_run.
  by destruct (lookup_file fs p).
Qed.

Lemma _is_piggybacked_host_abandoned_run fs source_hostname piggyback_file_path f :
  lookup_file fs piggyback_file_path = Some f →
  ∃ t, _is_piggybacked_host_abandoned (_get_source_status_file_path source_hostname)
         piggyback_file_path fs
       = mkOutcome (inr (abandoned_whole_seconds fs source_hostname f)) fs t.
Proof.
  intros Hf. unfold _is_piggybacked_host_abandoned, abandoned_whole_seconds, try_except, bind.
  rewrite os_stat_run.
  destruct (lookup_file fs (_get_source_status_file_path source_hostname)) as [s|];
    [|by eexists].
  rewrite os_stat_run, Hf. by eexists.
Qed.

Lemma str_bool_validity_period_message settings source_hostname piggybacked_hostname age :
  str_bool (_validity_period_message age
              (validity_period settings source_hostname piggybacked_hostname))
  = still_valid settings source_hostname piggybacked_hostname age.
Proof.
  unfold _validity_period_message, still_valid.
  destruct (validity_period settings source_hostname piggybacked_hostname) as [p|]; [|done].
  by destruct (float_le_Z (float_of_Z p - age) 0).
Qed.

(** ** File info inspector *)

(** C1 (as amended): the record of one pair.  A missing payload file gives
    the invalid record with status 0 and the message "Piggyback file is
    missing".  Otherwise the age is the float [time.time() - st_mtime], and
    with the resolved [max_cache_age]: an age above it gives an invalid
    record with status 0, whatever the status file; else an abandoned pair
    (status file missing, or its mtime in whole seconds greater than the
    payload's mtime in whole seconds) gives a valid record with the resolved
    [validity_state] exactly when a [validity_period] resolves and the
    float [validity_period - age] is not [<= 0], and an invalid record with
    status 0 otherwise; else the record is valid with status 0. *)
Theorem file_info_cascade now source_hostname piggybacked_hostname settings fs :
  let path := _get_piggybacked_file_path source_hostname piggybacked_hostname in
  let r := res (_get_piggyback_processed_file_info now source_hostname
                  piggybacked_hostname path settings fs) in
  (lookup_file fs path = None →
   r = inr (mkPiggybackFileInfo source_hostname path false "Piggyback file is missing" 0))
  ∧ (∀ f allowed,
       lookup_file fs path = Some f →
       max_cache_age settings source_hostname piggybacked_hostname = inr allowed →
       ∃ i, r = inr i ∧ source i = source_hostname ∧ file_path i = path
         ∧ (valid i, status i) =
           if float_gt_Z (file_age now f) allowed then (false, 0)
           else if abandoned_whole_seconds fs source_hostname f then
             if still_valid settings source_hostname piggybacked_hostname
                  (file_age now f)
             then (true, validity_state settings source_hostname piggybacked_hostname)
             else (false, 0)
           else (true, 0)).
Proof.
  intros path r. subst r. split.
  - intros Hnone. unfold _get_piggyback_processed_file_info.
    erewrite bind_inr by apply file_age_run. by rewrite Hnone.
  - intros f allowed Hf Hallowed. unfold _get_piggyback_processed_file_info.
    erewrite bind_inr by apply file_age_run. rewrite Hf. cbn [fmap option_fmap option_map].
    rewrite Hallowed. cbn [lift]. erewrite bind_inr by reflexivity.
    destruct (float_gt_Z (file_age now f) allowed).
    { cbn [String.append PiggybackFileInfo_new lift ret after res]. eauto 10. }
    destruct (_is_piggybacked_host_abandoned_run fs source_hostname path f Hf) as [t Ht].
    erewrite bind_inr by exact Ht.
    destruct (abandoned_whole_seconds fs source_hostname f).
    + cbn [String.append PiggybackFileInfo_new lift ret after res].
      eexists. split; [reflexivity|]. cbn [source file_path valid status].
      rewrite str_bool_validity_period_message.
      by destruct (still_valid settings source_hostname piggybacked_hostname _).
    + cbn [String.append PiggybackFileInfo_new lift ret after res]. eauto 10.
Qed.

Lemma file_info_cascade_witness :
  ∃ i, res (_get_piggyback_processed_file_info (seconds 3000) "srv1" "host1"
              (_get_piggybacked_file_path "srv1" "host1")
              settings_with_validity fs_no_status) = inr i
       ∧ valid i = true ∧ status i = 1.
Proof.
  destruct (file_info_cascade (seconds 3000) "srv1" "host1"
              settings_with_validity fs_no_status) as [_ Hpresent].
  destruct (Hpresent payload_100_2 3600 eq_refl eq_refl) as (i & Hres & _ & _ & Hvs).
  exists i. split; [exact Hres|].
  vm_compute in Hvs. by inversion Hvs.
Defined.

(** C1 as stated fails where the status file is newer than the payload
    within one second.  The status file is strictly newer (100.7 s against
    100.2 s), the age is below [max_cache_age] and no [validity_period]
    resolves, so the claim asks for an invalid record with status 0; the
    inspector compares whole seconds, does not take the abandoned branch and
    returns a valid record. *)
Lemma file_info_same_second_counterexample :
  lookup_file fs_same_second (_get_piggybacked_file_path "srv1" "host1")
    = Some payload_100_2
  ∧ lookup_file fs_same_second (_get_source_status_file_path "srv1") = Some status_100_7
  ∧ st_mtime_ns payload_100_2 < st_mtime_ns status_100_7
  ∧ (st_mtime payload_100_2 <? st_mtime status_100_7)%float = true
  ∧ abandoned_mtime fs_same_second "srv1" payload_100_2 = true
  ∧ max_cache_age settings_max_cache_age "srv1" "host1" = inr 3600
  ∧ float_gt_Z (file_age (seconds 200) payload_100_2) 3600 = false
  ∧ still_valid settings_max_cache_age "srv1" "host1"
      (file_age (seconds 200) payload_100_2) = false
  ∧ res (_get_piggyback_processed_file_info (seconds 200) "srv1" "host1"
           (_get_piggybacked_file_path "srv1" "host1")
           settings_max_cache_age fs_same_second)
    = inr (mkPiggybackFileInfo "srv1" (HostSource "host1" "srv1") true
             "Successfully processed from source 'srv1'" 0).
Proof. repeat split; vm_compute; reflexivity. Qed.

(** ** Removal of files *)

Lemma _remove_piggyback_file_run p fs :
  _remove_piggyback_file p fs =
  mkOutcome (inr (bool_decide (is_Some (lookup_file fs p))))
    (remove_file p fs) [sys_unlink p].
Proof.
  unfold _remove_piggyback_file, try_except, bind, unlink, syscall.
  destruct (lookup_file fs p) as [f|] eqn:Hf; simpl; [done|].
  f_equal. unfold remove_file. destruct p; try done.
    + unfold lookup_file in Hf. destruct (piggyback_tree fs !! piggybacked) as [d|] eqn:Hd; [|done].
      simpl in Hf. rewrite (delete_id d) by done. rewrite insert_id by done. by destruct fs.
    + unfold lookup_file in Hf. rewrite delete_id by done. by destruct fs.
Qed.

Lemma lookup_remove_file_eq p fs : lookup_file (remove_file p fs) p = None.
Proof.
  destruct p; try done; unfold lookup_file, remove_file; simpl.
  - destruct (piggyback_tree fs !! piggybacked) as [d|] eqn:Hd; simpl.
    + by rewrite lookup_insert_eq; simpl; rewrite lookup_delete_eq.
    + by rewrite Hd.
  - by rewrite lookup_delete_eq.
Qed.

Lemma lookup_remove_file_ne p q fs :
  p ≠ q → lookup_file (remove_file p fs) q = lookup_file fs q.
Proof.
  intros Hne. destruct p, q; try done; unfold lookup_file, remove_file; simpl.
  - destruct (piggyback_tree fs !! piggybacked) as [d|] eqn:Hd; simpl; [|done].
    destruct (decide (piggybacked = piggybacked0)) as [->|Hh].
    + rewrite lookup_insert_eq, Hd. simpl. rewrite lookup_delete_ne; [done|congruence].
    + by rewrite lookup_insert_ne.
  - by destruct (piggyback_tree fs !! piggybacked).
  - rewrite lookup_delete_ne; [done|congruence].
Qed.

(** ** Status file writer: the empty batch *)

(** C8: with an empty batch the writer deletes the status file of the source
    and returns normally, whether or not the file was there; it makes this
    one call, and every other file (each payload file with its content and
    times, each other status file) is as before. *)
Theorem empty_batch_removes_status_file_only written created suffix source_hostname fs :
  store_piggyback_raw_data written created suffix source_hostname [] fs
  = mkOutcome (inr tt)
      (remove_file (_get_source_status_file_path source_hostname) fs)
      [sys_unlink (_get_source_status_file_path source_hostname)]
  ∧ lookup_file (remove_file (_get_source_status_file_path source_hostname) fs)
      (_get_source_status_file_path source_hostname) = None
  ∧ piggyback_tree (remove_file (_get_source_status_file_path source_hostname) fs)
    = piggyback_tree fs
  ∧ ∀ p, p ≠ _get_source_status_file_path source_hostname →
         lookup_file (remove_file (_get_source_status_file_path source_hostname) fs) p
         = lookup_file fs p.
Proof.
  split; [|split; [|split]].
  - unfold store_piggyback_raw_data, remove_source_status_file.
    erewrite bind_inr by apply _remove_piggyback_file_run.
    unfold after, ret. simpl. done.
  - apply lookup_remove_file_eq.
  - done.
  - intros p Hp. by apply lookup_remove_file_ne.
Qed.

(** ** Listings *)

Lemma _files_in_dir p fs :
  is_dir_path p = true →
  _files_in p fs = mkOutcome (inr (visible_entries fs p)) fs [sys_iterdir p].
Proof.
  intros Hdir. unfold _files_in, try_except, bind, iterdir, visible_entries, dir_entries, syscall.
  destruct p; try done.
  by destruct (piggyback_tree fs !! piggybacked).
Qed.

Lemma _files_in_file p fs :
  is_dir_path p = false →
  _files_in p fs =
  mkOutcome (match lookup_file fs p with
             | Some _ => inl (OSError ENOTDIR p)
             | None => inr []
             end) fs [sys_iterdir p].
Proof.
  intros Hdir. unfold _files_in, try_except, bind, iterdir, syscall.
  destruct p; try done; by destruct (lookup_file fs _).
Qed.

Lemma _files_in_run p fs :
  ∃ r, _files_in p fs = mkOutcome r fs [sys_iterdir p]
       ∧ ∀ entries, r = inr entries → entries = visible_entries fs p.
Proof.
  destruct (is_dir_path p) eqn:Hdir.
  - rewrite _files_in_dir by done. eexists. split; [done|]. by intros ? [= <-].
  - rewrite _files_in_file by done. eexists. split; [done|].
    intros entries. destruct (lookup_file fs p); [done|]. intros [= <-].
    unfold visible_entries, dir_entries. by destruct p.
Qed.

Lemma visible_entries_not_hidden fs p e :
  e ∈ visible_entries fs p → startswith (name e) "." = false.
Proof.
  unfold visible_entries. rewrite list_elem_of_In, filter_In.
  intros [_ Hv]. by apply negb_true_iff in Hv.
Qed.

Lemma list_comp_pure {A B} (xs : list A) (body : A → M B) (f : A → B)
  (calls : A → list Syscall) fs :
  (∀ x, x ∈ xs → body x fs = mkOutcome (inr (f x)) fs (calls x)) →
  list_comp xs body fs = mkOutcome (inr (f <$> xs)) fs (xs ≫= calls).
Proof.
  induction xs as [|x xs IH]; intros Hbody; [done|].
  cbn [list_comp]. erewrite bind_inr by (apply Hbody; left).
  erewrite bind_inr by (apply IH; intros; apply Hbody; by right).
  unfold after, ret. simpl. by rewrite app_nil_r.
Qed.

Lemma tmp_status_name_hidden source_hostname suffix :
  startswith (tmp_status_name source_hostname suffix) "." = true.
Proof.
  unfold startswith, tmp_status_name.
  change (String.prefix "." (String "."%char
            ((name (_get_source_status_file_path source_hostname) +:+ ".new") +:+ suffix))
          = true).
  by destruct (_ +:+ _).
Qed.

(** ** Files put in place *)

Lemma lookup_put_file_eq p f fs fs' :
  put_file p f fs = Some fs' → lookup_file fs' p = Some f.
Proof.
  destruct p; try done; unfold put_file, lookup_file; simpl.
  - destruct (piggyback_tree fs !! piggybacked) as [d|]; [|done]. intros [= <-]. simpl.
    rewrite lookup_insert_eq. simpl. by rewrite lookup_insert_eq.
  - intros [= <-]. simpl. by rewrite lookup_insert_eq.
Qed.

Lemma lookup_put_file_ne p q f fs fs' :
  put_file p f fs = Some fs' → q ≠ p → lookup_file fs' q = lookup_file fs q.
Proof.
  destruct p, q; try done; unfold put_file, lookup_file; simpl;
    try (destruct (piggyback_tree fs !! piggybacked) as [d|] eqn:Hd; [|done]);
    intros [= <-] Hne; simpl; try done.
  - destruct (decide (piggybacked = piggybacked0)) as [->|Hh].
    + rewrite lookup_insert_eq, Hd. simpl. rewrite lookup_insert_ne; [done|congruence].
    + by rewrite lookup_insert_ne.
  - rewrite lookup_insert_ne; [done|congruence].
Qed.

Lemma put_file_exists p f g fs :
  lookup_file fs p = Some g → is_Some (put_file p f fs).
Proof.
  destruct p; try done; unfold put_file, lookup_file; simpl.
  destruct (piggyback_tree fs !! piggybacked); [by eexists|done].
Qed.

Lemma os_utime_run p times fs :
  ∃ fs', try_except (os_utime p times) is_FileNotFoundError (λ _, ret tt) fs
         = mkOutcome (inr tt) fs' [sys_utime p times.1 times.2]
         ∧ ∀ q, lookup_file fs' q =
                if bool_decide (q = p) then with_times times <$> lookup_file fs q
                else lookup_file fs q.
Proof.
  unfold try_except, os_utime, syscall.
  destruct (lookup_file fs p) as [f|] eqn:Hf.
  - destruct (put_file_exists p (mkFile (contents f) (utime_ns times.1) (utime_ns times.2))
                f fs Hf) as [fs' Hput].
    rewrite Hput. exists fs'. split; [done|]. intros q. case_bool_decide as Hq.
    + subst q. rewrite Hf. simpl. by apply (lookup_put_file_eq _ _ _ _ Hput).
    + by apply (lookup_put_file_ne _ _ _ _ _ Hput).
  - exists fs. split; [done|]. intros q. case_bool_decide as Hq; [|done].
    subst q. by rewrite Hf.
Qed.

Lemma os_utime_loop paths times fs :
  ∃ fs', for_each paths
           (λ piggyback_file_path,
              try_except (os_utime piggyback_file_path times)
                is_FileNotFoundError (λ _, ret tt)) fs
         = mkOutcome (inr tt) fs' ((λ p, sys_utime p times.1 times.2) <$> paths)
         ∧ ∀ q, lookup_file fs' q =
                if bool_decide (q ∈ paths) then with_times times <$> lookup_file fs q
                else lookup_file fs q.
Proof.
  revert fs. induction paths as [|p paths IH]; intros fs.
  - exists fs. split; [done|]. intros q. rewrite bool_decide_eq_false_2; [done|].
    by intros ?%elem_of_nil.
  - destruct (os_utime_run p times fs) as (fs1 & Hrun & Hlook1).
    destruct (IH fs1) as (fs2 & Hloop & Hlook2).
    exists fs2. split.
    + cbn [for_each]. erewrite bind_inr by exact Hrun. rewrite Hloop. done.
    + intros q. rewrite Hlook2, Hlook1.
      destruct (decide (q = p)) as [->|Hne].
      * rewrite (bool_decide_eq_true_2 (p = p)) by done.
        rewrite (bool_decide_eq_true_2 (p ∈ p :: paths)) by left.
        case_bool_decide; [|done]. by destruct (lookup_file fs p).
      * rewrite (bool_decide_eq_false_2 (q = p)) by done.
        rewrite (bool_decide_ext (q ∈ p :: paths) (q ∈ paths)); [done|].
        rewrite elem_of_cons. split; [by intros [?|?] | by right].
Qed.

Lemma string_length_append (s1 s2 : string) :
  String.length (s1 +:+ s2) = (String.length s1 + String.length s2)%nat.
Proof.
  induction s1 as [|a s1 IH]; [done|].
  change (S (String.length (s1 +:+ s2)) = S (String.length s1 + String.length s2)).
  by rewrite IH.
Qed.

Lemma tmp_status_name_ne source_hostname suffix :
  tmp_status_name source_hostname suffix ≠ source_hostname.
Proof.
  unfold tmp_status_name. simpl. intros Heq.
  apply (f_equal String.length) in Heq.
  rewrite !string_length_append in Heq. simpl in Heq. lia.
Qed.

Lemma NamedTemporaryFile_run now suffix source_hostname fs :
  let status := _get_source_status_file_path source_hostname in
  let tmp := SourceState (tmp_status_name source_hostname suffix) in
  NamedTemporaryFile now (parent status) ("." +:+ name status +:+ ".new") suffix fs
  = match lookup_file fs tmp with
    | Some _ => mkOutcome (inl (OSError EEXIST tmp)) fs [sys_mkstemp tmp]
    | None =>
        mkOutcome (inr tmp)
          (set_source_tree
             (<[tmp_status_name source_hostname suffix := mkFile [] now now]>
                (source_tree fs)) fs)
          [sys_mkstemp tmp]
    end.
Proof. done. Qed.

(** The run of [_store_status_file_of] for the status file of a source,
    when the temporary name is unused: the result, the calls in order, and
    every file of the storage left. *)
Lemma _store_status_file_of_run_any now suffix source_hostname paths fs :
  let status := _get_source_status_file_path source_hostname in
  let tmp := SourceState (tmp_status_name source_hostname suffix) in
  let renamed :=
    if bool_decide (tmp ∈ paths)
    then with_times (st_time now, st_time now) (mkFile [] now now)
    else mkFile [] now now in
  lookup_file fs tmp = None →
  ∃ fs', _store_status_file_of now suffix status paths fs
         = mkOutcome (inr tt) fs'
             ([sys_makedirs PiggybackSourceDir; sys_mkstemp tmp; sys_stat tmp]
              ++ ((λ p, sys_utime p (st_time now) (st_time now)) <$> paths)
              ++ [sys_rename tmp status])
         ∧ ∀ q, lookup_file fs' q =
                if bool_decide (q = status) then Some renamed
                else if bool_decide (q = tmp) then None
                else if bool_decide (q ∈ paths)
                     then with_times (st_time now, st_time now) <$> lookup_file fs q
                     else lookup_file fs q.
Proof.
  intros status tmp renamed Hfresh.
  assert (Hne : tmp ≠ status).
  { unfold tmp, status, _get_source_status_file_path. intros [= Heq].
    by apply tmp_status_name_ne in Heq. }
  set (fs1 := set_source_tree
                (<[tmp_status_name source_hostname suffix := mkFile [] now now]>
                   (source_tree fs)) fs).
  assert (Hlook1 : ∀ q, lookup_file fs1 q =
                        if bool_decide (q = tmp) then Some (mkFile [] now now)
                        else lookup_file fs q).
  { intros q. case_bool_decide as Hq.
    - subst q. unfold lookup_file, fs1, tmp. simpl. by rewrite lookup_insert_eq.
    - unfold lookup_file, fs1. destruct q; try done. simpl.
      rewrite lookup_insert_ne; [done|]. unfold tmp in Hq. congruence. }
  destruct (os_utime_loop paths (st_time now, st_time now) fs1) as (fs2 & Hloop & Hlook2).
  assert (Htmp2 : lookup_file fs2 tmp = Some renamed).
  { rewrite Hlook2, Hlook1, (bool_decide_eq_true_2 (tmp = tmp)) by done.
    unfold renamed. by case_bool_decide. }
  destruct (put_file status renamed (remove_file tmp fs2)) as [fs3|] eqn:Hput; [|done].
  exists fs3. split.
  - unfold _store_status_file_of.
    erewrite bind_inr by reflexivity.
    erewrite bind_inr.
    2:{ unfold status. rewrite NamedTemporaryFile_run. fold tmp. rewrite Hfresh.
        reflexivity. }
    fold fs1. erewrite bind_inr.
    2:{ rewrite os_stat_run, Hlook1, bool_decide_eq_true_2 by done. reflexivity. }
    unfold st_atime, st_mtime. cbn [st_atime_ns st_mtime_ns].
    erewrite bind_inr by exact Hloop.
    unfold os_rename. rewrite Htmp2, Hput. unfold after, syscall. simpl. done.
  - intros q. case_bool_decide as Hqs.
    { subst q. by apply (lookup_put_file_eq _ _ _ _ Hput). }
    rewrite (lookup_put_file_ne _ _ _ _ _ Hput) by done.
    case_bool_decide as Hqt.
    { subst q. apply lookup_remove_file_eq. }
    rewrite lookup_remove_file_ne by done.
    rewrite Hlook2, Hlook1, (bool_decide_eq_false_2 _ Hqt). done.
Qed.

Lemma _store_status_file_of_run now suffix source_hostname paths fs :
  let status := _get_source_status_file_path source_hostname in
  let tmp := SourceState (tmp_status_name source_hostname suffix) in
  lookup_file fs tmp = None →
  tmp ∉ paths →
  ∃ fs', _store_status_file_of now suffix status paths fs
         = mkOutcome (inr tt) fs'
             ([sys_makedirs PiggybackSourceDir; sys_mkstemp tmp; sys_stat tmp]
              ++ ((λ p, sys_utime p (st_time now) (st_time now)) <$> paths)
              ++ [sys_rename tmp status])
         ∧ ∀ q, lookup_file fs' q =
                if bool_decide (q = status) then Some (mkFile [] now now)
                else if bool_decide (q = tmp) then None
                else if bool_decide (q ∈ paths)
                     then with_times (st_time now, st_time now) <$> lookup_file fs q
                     else lookup_file fs q.
Proof.
  intros status tmp Hfresh Hpaths.
  destruct (_store_status_file_of_run_any now suffix source_hostname paths fs Hfresh)
    as (fs' & Hrun & Hlook).
  exists fs'. split; [done|]. intros q. rewrite Hlook.
  by rewrite (bool_decide_eq_false_2 (SourceState _ ∈ paths)).
Qed.

(** ** Status file writer: a batch with data *)

Lemma save_bytes_to_file_run now h s data fs :
  ∃ fs', save_bytes_to_file now (HostSource h s) data fs
         = mkOutcome (inr tt) fs' [sys_save (HostSource h s) data]
         ∧ ∀ q, lookup_file fs' q =
                if bool_decide (q = HostSource h s) then Some (mkFile data now now)
                else lookup_file fs q.
Proof.
  eexists. split; [reflexivity|]. intros q. case_bool_decide as Hq.
  - subst q. unfold lookup_file. simpl. rewrite lookup_insert_eq. simpl.
    by rewrite lookup_insert_eq.
  - unfold lookup_file. destruct q; try done. simpl.
    destruct (decide (piggybacked = h)) as [->|Hh].
    + rewrite lookup_insert_eq. simpl. rewrite lookup_insert_ne by congruence.
      by destruct (piggyback_tree fs !! h).
    + by rewrite lookup_insert_ne.
Qed.

Lemma save_loop written source_hostname batch fs :
  ∃ fs',
    list_comp batch
      (λ '(piggybacked_hostname, lines),
         let piggyback_file_path :=
           _get_piggybacked_file_path source_hostname piggybacked_hostname in
         save_bytes_to_file written piggyback_file_path (payload_bytes lines) ;;;
         ret piggyback_file_path) fs
    = mkOutcome (inr (payload_paths source_hostname batch)) fs'
        ((λ item, sys_save (_get_piggybacked_file_path source_hostname item.1)
                    (payload_bytes item.2)) <$> batch)
    ∧ (∀ piggybacked_hostname, piggybacked_hostname ∈ batch.*1 →
         ∃ lines, (piggybacked_hostname, lines) ∈ batch
           ∧ lookup_file fs' (_get_piggybacked_file_path source_hostname piggybacked_hostname)
             = Some (mkFile (payload_bytes lines) written written))
    ∧ (∀ q, q ∉ payload_paths source_hostname batch → lookup_file fs' q = lookup_file fs q).
Proof.
  revert fs. induction batch as [|[h lines] rest IH]; intros fs.
  - exists fs. split; [done|]. split; [|done]. by intros ? ?%elem_of_nil.
  - destruct (save_bytes_to_file_run written h source_hostname (payload_bytes lines) fs)
      as (fs1 & Hsave & Hlook1).
    destruct (IH fs1) as (fs2 & Hloop & Hin & Hout).
    exists fs2. split; [|split].
    + cbn [list_comp]. unfold _get_piggybacked_file_path in *.
      erewrite bind_inr.
      2:{ erewrite bind_inr by exact Hsave. reflexivity. }
      cbn [after res fs_after trace ret].
      erewrite bind_inr by exact Hloop. unfold after, ret. simpl.
      by rewrite app_nil_r.
    + intros t Ht. destruct (decide (t ∈ rest.*1)) as [Hrest|Hrest].
      * destruct (Hin t Hrest) as (l & Hl & Hfile). exists l. split; [by right|done].
      * assert (t = h) as -> by (cbn in Ht; apply elem_of_cons in Ht as [?|?]; done).
        exists lines. split; [left|].
        rewrite Hout, Hlook1; [by rewrite bool_decide_eq_true_2|].
        unfold payload_paths, _get_piggybacked_file_path.
        intros ([t l] & [= ->] & Hmem)%list_elem_of_fmap.
        apply Hrest. apply list_elem_of_fmap. by exists (t, l).
    + intros q Hq. cbn in Hq. apply not_elem_of_cons in Hq as [Hne Hq].
      rewrite Hout, Hlook1 by done. by rewrite bool_decide_eq_false_2.
Qed.

Lemma store_piggyback_raw_data_run written created suffix source_hostname batch fs :
  let status := _get_source_status_file_path source_hostname in
  let tmp := SourceState (tmp_status_name source_hostname suffix) in
  batch ≠ [] →
  lookup_file fs tmp = None →
  ∃ fs',
    store_piggyback_raw_data written created suffix source_hostname batch fs
    = mkOutcome (inr tt) fs'
        (((λ item, sys_save (_get_piggybacked_file_path source_hostname item.1)
                     (payload_bytes item.2)) <$> batch)
         ++ [sys_makedirs PiggybackSourceDir; sys_mkstemp tmp; sys_stat tmp]
         ++ ((λ p, sys_utime p (st_time created) (st_time created))
               <$> payload_paths source_hostname batch)
         ++ [sys_rename tmp status])
    ∧ lookup_file fs' status = Some (mkFile [] created created)
    ∧ lookup_file fs' tmp = None
    ∧ (∀ piggybacked_hostname, piggybacked_hostname ∈ batch.*1 →
         ∃ lines, (piggybacked_hostname, lines) ∈ batch
           ∧ lookup_file fs' (_get_piggybacked_file_path source_hostname piggybacked_hostname)
             = Some (mkFile (payload_bytes lines) (utime_round_trip created)
                       (utime_round_trip created)))
    ∧ (∀ q, q ≠ status → q ≠ tmp → q ∉ payload_paths source_hostname batch →
            lookup_file fs' q = lookup_file fs q).
Proof.
  intros status tmp Hne Hfresh.
  destruct (save_loop written source_hostname batch fs) as (fs1 & Hsaves & Hin & Hout).
  assert (Hpayload : ∀ q, q ∈ payload_paths source_hostname batch → q ≠ status ∧ q ≠ tmp).
  { intros q ([t l] & -> & _)%list_elem_of_fmap. done. }
  assert (Hfresh1 : lookup_file fs1 tmp = None).
  { rewrite Hout; [done|]. intros Hmem. by destruct (Hpayload _ Hmem). }
  destruct (_store_status_file_of_run created suffix source_hostname
              (payload_paths source_hostname batch) fs1 Hfresh1) as (fs2 & Hstore & Hlook).
  { intros Hmem. by destruct (Hpayload _ Hmem). }
  exists fs2. split; [|split; [|split; [|split]]].
  - unfold store_piggyback_raw_data. destruct batch as [|item rest]; [done|].
    erewrite bind_inr by exact Hsaves. cbv zeta. rewrite Hstore. done.
  - rewrite Hlook. by rewrite bool_decide_eq_true_2.
  - rewrite Hlook. rewrite bool_decide_eq_false_2.
    + by rewrite bool_decide_eq_true_2.
    + unfold tmp, status, _get_source_status_file_path. intros [= Heq].
      by apply tmp_status_name_ne in Heq.
  - intros t Ht. destruct (Hin t Ht) as (lines & Hmem & Hfile).
    exists lines. split; [done|].
    assert (Hp : _get_piggybacked_file_path source_hostname t
                 ∈ payload_paths source_hostname batch).
    { apply list_elem_of_fmap. by exists (t, lines). }
    destruct (Hpayload _ Hp) as [Hs Ht'].
    rewrite Hlook, (bool_decide_eq_false_2 _ Hs), (bool_decide_eq_false_2 _ Ht'),
      (bool_decide_eq_true_2 _ Hp), Hfile. done.
  - intros q Hs Ht Hq.
    rewrite Hlook, (bool_decide_eq_false_2 _ Hs), (bool_decide_eq_false_2 _ Ht),
      (bool_decide_eq_false_2 _ Hq). by apply Hout.
Qed.






(** The other way round: created at 1700000000.987654321 s, the status file
    leaves the payload file of [host1] at 1700000000.987654209 s, 112 ns
    older than itself, in the same whole second. *)
Example payload_older_than_status :
  let fs' := fs_after (store_piggyback_raw_data 1700000000000000000 1700000000987654321
                         "abcd1234" "srv1" example_batch fs_no_status) in
  (st_mtime_ns <$> lookup_file fs' (_get_source_status_file_path "srv1"))
    = Some 1700000000987654321
  ∧ (st_mtime_ns <$> lookup_file fs' (_get_piggybacked_file_path "srv1" "host1"))
    = Some 1700000000987654209
  ∧ whole_second_kept 1700000000987654321 = true.
Proof. vm_compute. repeat split; reflexivity. Qed.

(** ** Hidden names *)

Lemma dir_entries_are_children fs p e :
  e ∈ dir_entries fs p →
  match p with
  | PiggybackDir => ∃ h, e = HostFolder h
  | PiggybackSourceDir => ∃ n, e = SourceState n
  | HostFolder h => ∃ s, e = HostSource h s
  | _ => False
  end.
Proof.
  unfold dir_entries. destruct p; try (by intros ?%elem_of_nil).
  - intros (h & -> & _)%list_elem_of_fmap. by exists h.
  - intros (n & -> & _)%list_elem_of_fmap. by exists n.
  - destruct (piggyback_tree fs !! piggybacked); [|by intros ?%elem_of_nil].
    intros (s & -> & _)%list_elem_of_fmap. by exists s.
Qed.

Lemma visible_entries_are_entries fs p e :
  e ∈ visible_entries fs p → e ∈ dir_entries fs p.
Proof. unfold visible_entries. rewrite !list_elem_of_In, filter_In. tauto. Qed.

Lemma get_source_hostnames_of_host h fs :
  get_source_hostnames (Some h) fs
  = mkOutcome (inr (name <$> visible_entries fs (HostFolder h))) fs
      [sys_iterdir (HostFolder h)].
Proof.
  unfold get_source_hostnames. erewrite bind_inr by (by apply _files_in_dir). done.
Qed.

Lemma get_source_hostnames_of_all fs :
  get_source_hostnames None fs
  = mkOutcome
      (inr (concat ((λ folder, name <$> visible_entries fs folder)
                      <$> visible_entries fs PiggybackDir)))
      fs
      (sys_iterdir PiggybackDir
       :: (visible_entries fs PiggybackDir ≫= λ folder, [sys_iterdir folder])).
Proof.
  unfold get_source_hostnames, _get_piggybacked_host_folders.
  erewrite bind_inr by (by apply _files_in_dir).
  erewrite bind_inr.
  2:{ apply (list_comp_pure _ _ (λ folder, name <$> visible_entries fs folder)
               (λ folder, [sys_iterdir folder])).
      intros folder Hfolder.
      apply visible_entries_are_entries, dir_entries_are_children in Hfolder as [h ->].
      erewrite bind_inr by (by apply _files_in_dir). done. }
  unfold after, ret. simpl. by rewrite app_nil_r.
Qed.

(** C10: names that start with a dot are never listed.  Whatever the
    storage holds, no entry [_files_in] returns has such a name, and so no
    piggybacked host folder, no source host name (for one host or for all)
    and no source state file listed has one; the writer creates its
    temporary status file under such a name, in the directory of the status
    file; hence in every state of the storage (the ones during a write
    included) the temporary file is not among the source state files
    listed. *)
Theorem hidden_names_are_never_listed now suffix source_hostname paths p h fs fs' :
  (∀ entries, res (_files_in p fs) = inr entries →
     ∀ e, e ∈ entries → startswith (name e) "." = false)
  ∧ (∀ folders, res (_get_piggybacked_host_folders fs) = inr folders →
       ∀ e, e ∈ folders → startswith (name e) "." = false)
  ∧ (∀ names, res (get_source_hostnames h fs) = inr names →
       ∀ n, n ∈ names → startswith n "." = false)
  ∧ (∀ files, res (_get_source_state_files fs) = inr files →
       ∀ e, e ∈ files → startswith (name e) "." = false)
  ∧ (∀ q, sys_mkstemp q
          ∈ trace (_store_status_file_of now suffix
                     (_get_source_status_file_path source_hostname) paths fs) →
          q = SourceState (tmp_status_name source_hostname suffix)
          ∧ parent q = parent (_get_source_status_file_path source_hostname)
          ∧ startswith (name q) "." = true)
  ∧ (∀ files, res (_get_source_state_files fs') = inr files →
       SourceState (tmp_status_name source_hostname suffix) ∉ files).
Proof.
  assert (Hfiles : ∀ q st entries, res (_files_in q st) = inr entries →
                     ∀ e, e ∈ entries → startswith (name e) "." = false).
  { intros q st entries Hres e He.
    destruct (_files_in_run q st) as (r & Hrun & Hvis).
    rewrite Hrun in Hres. cbn in Hres. subst r.
    rewrite (Hvis _ eq_refl) in He. by apply (visible_entries_not_hidden _ _ _ He). }
  split; [apply Hfiles|]. split; [apply Hfiles|]. split; [|split; [apply Hfiles|split]].
  - intros names Hres n Hn. destruct h as [h|].
    + rewrite get_source_hostnames_of_host in Hres. injection Hres as <-.
      apply list_elem_of_fmap in Hn as (e & -> & He).
      by apply (visible_entries_not_hidden _ _ _ He).
    + rewrite get_source_hostnames_of_all in Hres. injection Hres as <-.
      apply list_elem_of_In, in_concat in Hn as (l & Hl & Hn).
      apply list_elem_of_In in Hl, Hn.
      apply list_elem_of_fmap in Hl as (folder & -> & _).
      apply list_elem_of_fmap in Hn as (e & -> & He).
      by apply (visible_entries_not_hidden _ _ _ He).
  - intros q Hq.
    assert (q = SourceState (tmp_status_name source_hostname suffix)) as ->.
    { destruct (lookup_file fs (SourceState (tmp_status_name source_hostname suffix)))
        as [f|] eqn:Hfresh.
      - unfold _store_status_file_of in Hq.
        erewrite bind_inr in Hq by reflexivity.
        erewrite bind_inl in Hq.
        2:{ rewrite NamedTemporaryFile_run, Hfresh. reflexivity. }
        cbn in Hq. apply elem_of_cons in Hq as [Hq|Hq]; [done|].
        apply elem_of_cons in Hq as [Hq|Hq]; [by injection Hq|]. by apply elem_of_nil in Hq.
      - destruct (_store_status_file_of_run_any now suffix source_hostname paths fs
                    Hfresh) as (fs1 & Hrun & _).
        rewrite Hrun in Hq. cbn [trace] in Hq.
        rewrite !elem_of_app, !elem_of_cons, list_elem_of_fmap in Hq.
        destruct Hq as [[Hq|[Hq|[Hq|Hq]]]|[(x & Hq & _)|[Hq|Hq]]]; try done.
        + by injection Hq.
        + by apply elem_of_nil in Hq.
        + by apply elem_of_nil in Hq. }
    split; [done|]. split; [done|]. apply tmp_status_name_hidden.
  - intros files Hres Hmem.
    pose proof (Hfiles _ _ _ Hres _ Hmem) as Hvis. cbn [name] in Hvis.
    by rewrite tmp_status_name_hidden in Hvis.
Qed.

Lemma hidden_names_are_never_listed_witness :
  res (_get_source_state_files fs_during_write) = inr [SourceState "srv1"]
  ∧ SourceState (tmp_status_name "srv1" "abcd1234") ∉ [SourceState "srv1"].
Proof.
  split; [reflexivity|].
  apply (hidden_names_are_never_listed 0 "abcd1234" "srv1" [] PiggybackDir None
           fs_during_write fs_during_write).
  reflexivity.
Defined.

(** ** Removal of a piggybacked host folder *)

Lemma _remove_empty_folder_run h fs :
  _remove_empty_folder (HostFolder h) fs =
  match piggyback_tree fs !! h with
  | None => mkOutcome (inl (OSError ENOENT (HostFolder h))) fs [sys_rmdir (HostFolder h)]
  | Some d =>
      if bool_decide (d = ∅)
      then mkOutcome (inr tt) (set_piggyback_tree (delete h (piggyback_tree fs)) fs)
             [sys_rmdir (HostFolder h)]
      else mkOutcome (inr tt) fs [sys_rmdir (HostFolder h)]
  end.
Proof.
  unfold _remove_empty_folder, try_except, rmdir, syscall.
  destruct (piggyback_tree fs !! h) as [d|]; [|done].
  by destruct (bool_decide (d = ∅)).
Qed.

(** C9, on the code: the sweep reaches a folder of its list that is gone from
    the storage (it vanished after the folders were listed).  [rmdir] fails
    with [ENOENT], the handler lets through everything but [ENOTEMPTY], and
    the sweep ends with that error; a folder that is not empty is passed
    over. *)
Theorem vanished_folder_aborts_the_sweep :
  piggyback_tree fs_no_status !! "gone" = None
  ∧ res (_cleanup_old_piggybacked_files (seconds 500)
           [(HostFolder "gone", [], settings_max_cache_age)] fs_no_status)
    = inl (OSError ENOENT (HostFolder "gone"))
  ∧ res (_cleanup_old_piggybacked_files (seconds 500)
           [(HostFolder "host1", [], settings_max_cache_age)] fs_no_status)
    = inr tt.
Proof. repeat split; vm_compute; reflexivity. Qed.

(** ** Raw data accessor *)

Lemma get_piggyback_raw_data_entry_run file_info fs :
  get_piggyback_raw_data_entry file_info fs
  = mkOutcome (inr (raw_data_entry_of fs file_info)) fs [sys_read (file_path file_info)].
Proof.
  unfold get_piggyback_raw_data_entry, raw_data_entry_of, try_except, bind,
    load_bytes_from_file, syscall.
  destruct (lookup_file fs (file_path file_info)); done.
Qed.

Section Accessor.
Context `{Regex}.

(** C6: the accessor.  For an absent or empty host name it returns the
    empty sequence, makes no file system call and leaves the storage as it
    is.  Its loop over the evaluated file infos, on whatever the storage
    holds when the payloads are read, returns normally with one entry per
    file info, in order: the file info with the bytes of its file, or, when
    the read fails because the file is gone, the degraded entry (same source
    and path, not valid, status 0, the message that names the source and the
    error, no bytes); the entry at a position depends on no other file info.
    For a host name that is not empty, the accessor's result is that of the
    loop on the file infos the inspector evaluated. *)
Theorem accessor_isolates_read_failures now piggybacked_hostname time_settings
  evaluated fs fs_read :
  (not_hostname piggybacked_hostname = true →
   get_piggyback_raw_data now piggybacked_hostname time_settings fs = mkOutcome (inr []) fs [])
  ∧ list_comp evaluated get_piggyback_raw_data_entry fs_read
    = mkOutcome (inr (raw_data_entry_of fs_read <$> evaluated)) fs_read
        ((λ file_info, sys_read (file_path file_info)) <$> evaluated)
  ∧ length (raw_data_entry_of fs_read <$> evaluated) = length evaluated
  ∧ (∀ (i : nat) file_info, evaluated !! i = Some file_info →
       ∃ entry, (raw_data_entry_of fs_read <$> evaluated) !! i = Some entry
         ∧ (∀ f, lookup_file fs_read (file_path file_info) = Some f →
              entry = mkPiggybackRawDataInfo file_info (contents f))
         ∧ (lookup_file fs_read (file_path file_info) = None →
              source (info entry) = source file_info
              ∧ file_path (info entry) = file_path file_info
              ∧ valid (info entry) = false
              ∧ status (info entry) = 0
              ∧ message (info entry)
                = "Cannot read piggyback raw data from source '" +:+ source file_info
                  +:+ "': " +:+ str_exc (OSError ENOENT (file_path file_info))
              ∧ raw_data entry = []))
  ∧ (∀ h file_infos fs1 t1,
       piggybacked_hostname = Some h →
       not_hostname piggybacked_hostname = false →
       _get_piggyback_processed_file_infos now h time_settings fs
         = mkOutcome (inr file_infos) fs1 t1 →
       get_piggyback_raw_data now piggybacked_hostname time_settings fs
       = mkOutcome (inr (raw_data_entry_of fs1 <$> file_infos)) fs1
           (t1 ++ ((λ file_info, sys_read (file_path file_info)) <$> file_infos))).
Proof.
  assert (Hloop : ∀ l st,
            list_comp l get_piggyback_raw_data_entry st
            = mkOutcome (inr (raw_data_entry_of st <$> l)) st
                ((λ file_info, sys_read (file_path file_info)) <$> l)).
  { intros l st.
    rewrite (list_comp_pure l _ (raw_data_entry_of st)
               (λ file_info, [sys_read (file_path file_info)]))
      by (intros x _; apply get_piggyback_raw_data_entry_run).
    done. }
  split; [|split; [apply Hloop|split; [by rewrite length_fmap|split]]].
  - unfold get_piggyback_raw_data. destruct piggybacked_hostname as [h|]; [|done].
    by intros ->.
  - intros i file_info Hi. exists (raw_data_entry_of fs_read file_info).
    split; [by rewrite list_lookup_fmap, Hi|].
    unfold raw_data_entry_of. split.
    + by intros f ->.
    + by intros ->.
  - intros h file_infos fs1 t1 -> Hnot Hinfos.
    unfold get_piggyback_raw_data. rewrite Hnot.
    erewrite bind_inr by exact Hinfos.
    destruct file_infos as [|file_info rest].
    + unfold after, ret. simpl. by rewrite app_nil_r.
    + by rewrite Hloop.
Qed.

End Accessor.

(** ** Round trip *)

Lemma split_newline_line (l : list byte) rest :
  newline ∉ l →
  split_newline (l ++ newline :: rest) = l :: split_newline rest.
Proof.
  induction l as [|b l IH]; intros Hl; cbn [app split_newline].
  - by rewrite bool_decide_eq_true_2.
  - apply not_elem_of_cons in Hl as [Hb Hl].
    rewrite bool_decide_eq_false_2 by done. by rewrite IH.
Qed.

Lemma read_lines_payload_bytes lines :
  lines ≠ [] → Forall (λ l, newline ∉ l) lines →
  read_lines (payload_bytes lines) = lines.
Proof.
  intros Hne Hall. unfold read_lines, payload_bytes.
  assert (Hsplit : split_newline (bytes_join [newline] lines ++ [newline]) = lines ++ [[]]).
  { induction Hall as [|l rest Hl Hrest IH]; [done|].
    destruct rest as [|l' rest'].
    - cbn [bytes_join]. by rewrite split_newline_line.
    - change (bytes_join [newline] (l :: l' :: rest'))
        with (l ++ [newline] ++ bytes_join [newline] (l' :: rest')).
      rewrite <- !app_assoc. cbn [app]. rewrite split_newline_line by done.
      by rewrite IH. }
  rewrite Hsplit. apply removelast_last.
Qed.

(** ** The inspector reads, and returns when the settings resolve *)

Lemma list_comp_total {A B} (xs : list A) (body : A → M B) (P : A → B → Prop) fs :
  (∀ x, x ∈ xs → ∃ y t, body x fs = mkOutcome (inr y) fs t ∧ P x y) →
  ∃ ys t, list_comp xs body fs = mkOutcome (inr ys) fs t ∧ Forall2 P xs ys.
Proof.
  induction xs as [|x xs IH]; intros Hbody.
  - by exists [], [].
  - destruct (Hbody x) as (y & t & Hx & HP); [left|].
    destruct IH as (ys & t' & Hxs & HPs); [intros; apply Hbody; by right|].
    exists (y :: ys), (t ++ t' ++ []). split; [|by constructor].
    cbn [list_comp]. erewrite bind_inr by exact Hx. by erewrite bind_inr by exact Hxs.
Qed.

Lemma _get_piggyback_processed_file_info_run now source_hostname piggybacked_hostname
  path settings allowed fs :
  max_cache_age settings source_hostname piggybacked_hostname = inr allowed →
  ∃ i t, _get_piggyback_processed_file_info now source_hostname piggybacked_hostname
           path settings fs = mkOutcome (inr i) fs t
         ∧ source i = source_hostname ∧ file_path i = path.
Proof.
  intros Hallowed. unfold _get_piggyback_processed_file_info.
  erewrite bind_inr by apply file_age_run.
  destruct (lookup_file fs path) as [f|] eqn:Hf; cbn [fmap option_fmap option_map].
  2:{ by eexists _, _. }
  rewrite Hallowed. cbn [lift]. erewrite bind_inr by reflexivity.
  destruct (float_gt_Z (file_age now f) allowed).
  { by eexists _, _. }
  destruct (_is_piggybacked_host_abandoned_run fs source_hostname path f Hf) as [t Ht].
  erewrite bind_inr by exact Ht.
  destruct (abandoned_whole_seconds fs source_hostname f); by eexists _, _.
Qed.

Section RoundTrip.
Context `{Regex}.

Lemma _TimeSettingsMap_loop_total sources target rules acc :
  (∀ e key value, (Some e, key, value) ∈ rules → startswith e "~" = true →
     re_match (str_tail e) target ≠ None) →
  ∃ m, _TimeSettingsMap_loop sources target rules acc = inr m.
Proof.
  revert acc. induction rules as [|[[expr key] value] rest IH]; intros acc Hcompile.
  - by eexists.
  - cbn [_TimeSettingsMap_loop].
    assert (∃ acc', _TimeSettingsMap_register sources target acc (expr, key, value)
                    = inr acc') as [acc' ->].
    { unfold _TimeSettingsMap_register. destruct expr as [e|]; [|by eexists].
      destruct (_ || _); [by eexists|].
      destruct (startswith e "~") eqn:Hre; [|by eexists].
      specialize (Hcompile e key value (list_elem_of_here _ _) Hre).
      destruct (re_match (str_tail e) target) as [[]|]; [by eexists..|done]. }
    apply IH. intros e k v Hmem. apply (Hcompile e k v). by right.
Qed.

Lemma first_registered_global sources target rules key value :
  (None, key, value) ∈ rules →
  is_Some (first_registered sources target rules None key).
Proof.
  induction rules as [|[[expr k] v] rest IH]; [by intros ?%elem_of_nil|].
  intros Hmem. cbn [first_registered].
  destruct (bool_decide _ && bool_decide _) eqn:Hhere; [by eexists|].
  apply elem_of_cons in Hmem as [[= <- <- <-]|Hmem]; [|by apply IH].
  cbn in Hhere. by rewrite !bool_decide_eq_true_2 in Hhere.
Qed.

End RoundTrip.

(** ** Time settings *)

Lemma setdefault_lookup `{Countable K} {V} (k k' : K) (v : V) (m : gmap K V) :
  setdefault k v m !! k' =
  match m !! k' with
  | Some w => Some w
  | None => if bool_decide (k = k') then Some v else None
  end.
Proof.
  unfold setdefault. destruct (m !! k) as [w|] eqn:Hk.
  - destruct (m !! k') as [w'|] eqn:Hk'; [done|].
    case_bool_decide; [congruence | done].
  - rewrite lookup_insert. case_decide as Hd.
    + subst k'. rewrite Hk. by rewrite bool_decide_eq_true_2.
    + rewrite bool_decide_eq_false_2 by done. by destruct (m !! k').
Qed.

Section TimeSettingsProofs.
Context `{Regex}.

Lemma scope_key_decide (scope scope' : option string) (key key' : string) :
  bool_decide ((scope, key) = (scope', key'))
  = bool_decide (Some scope = Some scope') && bool_decide (key = key').
Proof. repeat case_bool_decide; simplify_eq/=; done. Qed.

Lemma _TimeSettingsMap_register_lookup sources target acc rule acc' scope key :
  _TimeSettingsMap_register sources target acc rule = inr acc' →
  acc' !! (scope, key) =
  match acc !! (scope, key) with
  | Some v => Some v
  | None => first_registered sources target [rule] scope key
  end.
Proof.
  destruct rule as [[expr k] value]. unfold _TimeSettingsMap_register.
  cbn [first_registered].
  assert (Hskip : rule_scope sources target expr = None →
            acc !! (scope, key) =
            match acc !! (scope, key) with
            | Some v => Some v
            | None =>
                if bool_decide (rule_scope sources target expr = Some scope)
                   && bool_decide (k = key)
                then Some value else None
            end).
  { intros ->. destruct (acc !! (scope, key)); [done|].
    by rewrite bool_decide_eq_false_2. }
  assert (Hset : ∀ sc, rule_scope sources target expr = Some sc →
            setdefault (sc, k) value acc !! (scope, key) =
            match acc !! (scope, key) with
            | Some v => Some v
            | None =>
                if bool_decide (rule_scope sources target expr = Some scope)
                   && bool_decide (k = key)
                then Some value else None
            end).
  { intros sc ->. rewrite setdefault_lookup. by rewrite scope_key_decide. }
  unfold rule_scope in Hskip, Hset |- *.
  destruct expr as [e|].
  - destruct (bool_decide (e ∈ sources) || bool_decide (e = target)).
    + intros [= <-]. by apply Hset.
    + destruct (startswith e "~").
      * destruct (re_match (str_tail e) target) as [[]|]; intros [= <-].
        -- by apply Hset.
        -- by apply Hskip.
      * intros [= <-]. by apply Hskip.
  - intros [= <-]. by apply Hset.
Qed.

Lemma _TimeSettingsMap_loop_lookup sources target rules acc m scope key :
  _TimeSettingsMap_loop sources target rules acc = inr m →
  m !! (scope, key) =
  match acc !! (scope, key) with
  | Some v => Some v
  | None => first_registered sources target rules scope key
  end.
Proof.
  revert acc. induction rules as [|rule rest IH]; intros acc; cbn [_TimeSettingsMap_loop].
  - intros [= <-]. by destruct (acc !! (scope, key)).
  - destruct (_TimeSettingsMap_register sources target acc rule) as [e|acc'] eqn:Hreg;
      [done|].
    intros Hloop.
    rewrite (IH _ Hloop), (_TimeSettingsMap_register_lookup _ _ _ _ _ scope key Hreg).
    destruct (acc !! (scope, key)); [done|].
    destruct rule as [[expr k] value]. cbn [first_registered].
    by destruct (bool_decide _ && bool_decide _).
Qed.

Lemma _TimeSettingsMap_init_lookup sources target rules settings scope key :
  _TimeSettingsMap_init sources target rules = inr settings →
  _expanded_settings settings !! (scope, key)
  = first_registered sources target rules scope key.
Proof.
  unfold _TimeSettingsMap_init.
  destruct (_TimeSettingsMap_loop sources target rules ∅) as [e|m] eqn:Hloop; [done|].
  intros [= <-]. cbn [_expanded_settings].
  rewrite (_TimeSettingsMap_loop_lookup _ _ _ _ _ scope key Hloop).
  by rewrite lookup_empty.
Qed.

Lemma _match_first_registered sources target rules settings key source_hostname :
  _TimeSettingsMap_init sources target rules = inr settings →
  _match settings key source_hostname target =
  match first_registered sources target rules (Some target) key with
  | Some v => inr v
  | None =>
      match first_registered sources target rules (Some source_hostname) key with
      | Some v => inr v
      | None =>
          match first_registered sources target rules None key with
          | Some v => inr v
          | None => inl (KeyError (None, key))
          end
      end
  end.
Proof.
  intros Hinit. unfold _match.
  by rewrite !(_TimeSettingsMap_init_lookup _ _ _ _ _ _ Hinit).
Qed.

Lemma first_registered_app sources target before rest scope key :
  first_registered sources target (before ++ rest) scope key =
  match first_registered sources target before scope key with
  | Some v => Some v
  | None => first_registered sources target rest scope key
  end.
Proof.
  induction before as [|[[expr k] value] more IH]; cbn [app first_registered]; [done|].
  by destruct (bool_decide _ && bool_decide _).
Qed.

Lemma rule_scope_regex sources target pattern :
  "~" +:+ pattern ∉ sources → "~" +:+ pattern ≠ target →
  re_match pattern target = Some true →
  rule_scope sources target (Some ("~" +:+ pattern)) = Some (Some target).
Proof.
  intros Hs Ht Hm. unfold rule_scope.
  change ("~" +:+ pattern) with (String "~"%char pattern) in *.
  rewrite (bool_decide_eq_false_2 _ Hs), (bool_decide_eq_false_2 _ Ht).
  unfold startswith. cbn [orb String.prefix str_tail]. rewrite Hm. by destruct pattern.
Qed.

(** C2: the resolver.  When the map is built (no regex of the rules fails
    to compile), the value it holds for a scope and a key is that of the
    first rule of the sequence that registers under this scope for this
    key; a rule whose expression starts with the marker [~], is not
    literally a known source or the target, and matches the target,
    registers under the target's own scope (and holds its value there when
    no earlier rule does); the lookup for a source and the target takes the
    target-scoped value, else the source-scoped one, else the global one,
    else raises [KeyError]; a [validity_period] that resolves nowhere gives
    [None], a [validity_state] that resolves nowhere gives 0, and a
    [max_cache_age] that resolves nowhere raises the [KeyError].  Each of
    the three lookups follows that order: [max_cache_age] returns the
    resolved value or raises the [KeyError], [validity_period] returns the
    resolved value or [None], and [validity_state] returns the resolved
    value or 0. *)
Theorem time_settings_resolution sources target rules settings :
  _TimeSettingsMap_init sources target rules = inr settings →
  (∀ scope key,
     _expanded_settings settings !! (scope, key)
     = first_registered sources target rules scope key)
  ∧ (∀ before pattern key value rest,
       rules = before ++ (Some ("~" +:+ pattern), key, value) :: rest →
       "~" +:+ pattern ∉ sources → "~" +:+ pattern ≠ target →
       re_match pattern target = Some true →
       first_registered sources target before (Some target) key = None →
       _expanded_settings settings !! (Some target, key) = Some value)
  ∧ (∀ key source_hostname,
       _match settings key source_hostname target =
       match first_registered sources target rules (Some target) key with
       | Some v => inr v
       | None =>
           match first_registered sources target rules (Some source_hostname) key with
           | Some v => inr v
           | None =>
               match first_registered sources target rules None key with
               | Some v => inr v
               | None => inl (KeyError (None, key))
               end
           end
       end)
  ∧ (∀ source_hostname,
       resolves_nowhere sources target rules "validity_period" source_hostname →
       validity_period settings source_hostname target = None)
  ∧ (∀ source_hostname,
       resolves_nowhere sources target rules "validity_state" source_hostname →
       validity_state settings source_hostname target = 0)
  ∧ (∀ source_hostname,
       resolves_nowhere sources target rules "max_cache_age" source_hostname →
       max_cache_age settings source_hostname target
       = inl (KeyError (None, "max_cache_age")))
  ∧ (∀ source_hostname,
       max_cache_age settings source_hostname target
       = match resolved_setting sources target rules "max_cache_age" source_hostname with
         | Some v => inr v
         | None => inl (KeyError (None, "max_cache_age"))
         end)
  ∧ (∀ source_hostname,
       validity_period settings source_hostname target
       = resolved_setting sources target rules "validity_period" source_hostname)
  ∧ (∀ source_hostname,
       validity_state settings source_hostname target
       = default 0 (resolved_setting sources target rules "validity_state"
                      source_hostname)).
Proof.
  intros Hinit.
  assert (Hmatch : ∀ key source_hostname,
            _match settings key source_hostname target
            = match resolved_setting sources target rules key source_hostname with
              | Some v => inr v
              | None => inl (KeyError (None, key))
              end).
  { intros key source_hostname.
    rewrite (_match_first_registered _ _ _ _ key source_hostname Hinit).
    unfold resolved_setting.
    by repeat (destruct (first_registered _ _ _ _ _); [done|]). }
  split; [intros; by apply _TimeSettingsMap_init_lookup|].
  split; [|split; [intros; by apply _match_first_registered|]].
  - intros before pattern key value rest -> Hs Ht Hm Hbefore.
    rewrite (_TimeSettingsMap_init_lookup _ _ _ _ _ _ Hinit).
    rewrite first_registered_app, Hbefore. cbn [first_registered].
    rewrite (rule_scope_regex _ _ _ Hs Ht Hm).
    by rewrite !bool_decide_eq_true_2.
  - split; [|split; [|split; [|split; [|split]]]].
    + intros source_hostname (Ht & Hs & Hg). unfold validity_period.
      by rewrite (_match_first_registered _ _ _ _ _ _ Hinit), Ht, Hs, Hg.
    + intros source_hostname (Ht & Hs & Hg). unfold validity_state.
      by rewrite (_match_first_registered _ _ _ _ _ _ Hinit), Ht, Hs, Hg.
    + intros source_hostname (Ht & Hs & Hg). unfold max_cache_age.
      by rewrite (_match_first_registered _ _ _ _ _ _ Hinit), Ht, Hs, Hg.
    + intros source_hostname. unfold max_cache_age. apply Hmatch.
    + intros source_hostname. unfold validity_period. rewrite Hmatch.
      by destruct (resolved_setting _ _ _ _ _).
    + intros source_hostname. unfold validity_state. rewrite Hmatch.
      by destruct (resolved_setting _ _ _ _ _).
Qed.

End TimeSettingsProofs.

Lemma time_settings_resolution_witness :
  ∃ settings,
    @_TimeSettingsMap_init literal_regex ["srv1"] "host1" example_rules = inr settings
    ∧ _expanded_settings settings !! (Some "host1", "max_cache_age") = Some 600
    ∧ max_cache_age settings "srv1" "host1" = inr 600
    ∧ validity_period settings "srv1" "host1" = Some 60
    ∧ validity_state settings "srv1" "host1" = 0
    ∧ validity_state settings "srv1" "host1"
      = default 0 (@resolved_setting literal_regex ["srv1"] "host1" example_rules
                     "validity_state" "srv1").
Proof.
  eexists. split; [vm_compute; reflexivity|].
  pose proof (@time_settings_resolution literal_regex ["srv1"] "host1" example_rules
                _ eq_refl)
    as (Hfirst & Hregex & Hmatch & _ & Hstate & _ & Hage & Hperiod & Hresolved).
  split; [|split; [|split; [|split]]].
  - apply (Hregex [] "host" "max_cache_age" 600 (tail example_rules));
      [reflexivity | rewrite list_elem_of_singleton; discriminate | discriminate
      | reflexivity | reflexivity].
  - rewrite Hage. vm_compute. reflexivity.
  - rewrite Hperiod. vm_compute. reflexivity.
  - apply Hstate. vm_compute. done.
  - apply Hresolved.
Defined.

(** A [validity_state] that resolves: the regex rule registers it under the
    target, before the global value. *)
Example validity_state_resolved :
  match @_TimeSettingsMap_init literal_regex ["srv1"] "host1"
          [ (None, "validity_state", 1); (Some "~host", "validity_state", 2) ] with
  | inr settings => validity_state settings "srv1" "host1" = 2
  | inl _ => False
  end.
Proof. vm_compute. reflexivity. Qed.

Lemma NoDup_fst_functional {A B} (l : list (A * B)) k v v' :
  NoDup l.*1 → (k, v) ∈ l → (k, v') ∈ l → v = v'.
Proof.
  induction l as [|[k0 v0] l IH]; [by intros _ ?%elem_of_nil|].
  cbn [fmap list_fmap fst]. intros [Hk Hl]%NoDup_cons.
  intros [Heq1|H1]%elem_of_cons [Heq2|H2]%elem_of_cons.
  - congruence.
  - exfalso. apply Hk. apply list_elem_of_fmap. exists (k, v').
    split; [by injection Heq1 as <- _|done].
  - exfalso. apply Hk. apply list_elem_of_fmap. exists (k, v).
    split; [by injection Heq2 as <- _|done].
  - by apply IH.
Qed.

Lemma Forall2_elem_of_l {A B} (P : A → B → Prop) xs ys x :
  Forall2 P xs ys → x ∈ xs → ∃ y, y ∈ ys ∧ P x y.
Proof.
  induction 1 as [|x0 y0 xs ys HP _ IH]; [by intros ?%elem_of_nil|].
  intros [->|Hx]%elem_of_cons.
  - exists y0. split; [left|done].
  - destruct (IH Hx) as (y & Hy & HPy). exists y. split; [by right|done].
Qed.

Lemma lookup_file_visible fs h s f :
  lookup_file fs (HostSource h s) = Some f →
  startswith s "." = false →
  HostSource h s ∈ visible_entries fs (HostFolder h).
Proof.
  unfold lookup_file. intros Hf Hvis.
  destruct (piggyback_tree fs !! h) as [d|] eqn:Hd; [|done]. cbn in Hf.
  unfold visible_entries, dir_entries. rewrite Hd.
  apply list_elem_of_In, filter_In. split.
  - apply list_elem_of_In, list_elem_of_fmap. exists s. split; [done|].
    apply list_elem_of_fmap. exists (s, f). split; [done|].
    by apply elem_of_map_to_list.
  - cbn [name]. by rewrite Hvis.
Qed.

Section AccessorRuns.
Context `{Regex}.

Lemma max_cache_age_resolves sources target rules settings value source_hostname :
  _TimeSettingsMap_init sources target rules = inr settings →
  (None, "max_cache_age", value) ∈ rules →
  ∃ allowed, max_cache_age settings source_hostname target = inr allowed.
Proof.
  intros Hinit Hglobal. unfold max_cache_age.
  rewrite (_match_first_registered _ _ _ _ _ _ Hinit).
  destruct (first_registered_global sources target rules _ _ Hglobal) as [v ->].
  repeat (destruct (first_registered _ _ _ _ _); [by eexists|]). by eexists.
Qed.

Lemma _get_piggyback_processed_file_infos_run now piggybacked_hostname time_settings fs :
  resolvable time_settings piggybacked_hostname →
  ∃ file_infos t,
    _get_piggyback_processed_file_infos now piggybacked_hostname time_settings fs
    = mkOutcome (inr file_infos) fs t
    ∧ Forall2 (λ e i, source i = name e
                      ∧ file_path i
                        = _get_piggybacked_file_path (name e) piggybacked_hostname)
        (visible_entries fs (HostFolder piggybacked_hostname)) file_infos.
Proof.
  intros [[value Hglobal] Hcompile].
  unfold _get_piggyback_processed_file_infos.
  erewrite bind_inr by apply get_source_hostnames_of_host.
  destruct (_TimeSettingsMap_loop_total
              (name <$> visible_entries fs (HostFolder piggybacked_hostname))
              piggybacked_hostname time_settings ∅ Hcompile) as [m Hm].
  assert (Hinit : _TimeSettingsMap_init
                    (name <$> visible_entries fs (HostFolder piggybacked_hostname))
                    piggybacked_hostname time_settings = inr (mk_TimeSettingsMap m)).
  { unfold _TimeSettingsMap_init. by rewrite Hm. }
  rewrite Hinit. cbn [lift]. erewrite bind_inr by reflexivity.
  destruct (list_comp_total
              (name <$> visible_entries fs (HostFolder piggybacked_hostname))
              (λ source_hostname,
                 _get_piggyback_processed_file_info now source_hostname
                   piggybacked_hostname
                   (_get_piggybacked_file_path source_hostname piggybacked_hostname)
                   (mk_TimeSettingsMap m))
              (λ n i, source i = n
                      ∧ file_path i = _get_piggybacked_file_path n piggybacked_hostname)
              fs) as (infos & t & Hrun & Hall).
  { intros n _.
    destruct (max_cache_age_resolves _ _ _ _ _ n Hinit Hglobal) as [allowed Hallowed].
    destruct (_get_piggyback_processed_file_info_run now n piggybacked_hostname
                (_get_piggybacked_file_path n piggybacked_hostname) _ _ fs Hallowed)
      as (i & t & Hi & Hsrc & Hpath).
    by exists i, t. }
  exists infos, ([sys_iterdir (HostFolder piggybacked_hostname)] ++ [] ++ t).
  split; [by rewrite Hrun|].
  by apply Forall2_fmap_l in Hall.
Qed.

Lemma get_piggyback_raw_data_run now h time_settings file_infos fs fs1 t1 :
  not_hostname (Some h) = false →
  _get_piggyback_processed_file_infos now h time_settings fs
    = mkOutcome (inr file_infos) fs1 t1 →
  get_piggyback_raw_data now (Some h) time_settings fs
  = mkOutcome (inr (raw_data_entry_of fs1 <$> file_infos)) fs1
      (t1 ++ ((λ file_info, sys_read (file_path file_info)) <$> file_infos)).
Proof.
  intros Hnot Hinfos. unfold get_piggyback_raw_data. rewrite Hnot.
  erewrite bind_inr by exact Hinfos.
  destruct file_infos as [|file_info rest].
  - unfold after, ret. simpl. by rewrite app_nil_r.
  - rewrite (list_comp_pure _ _ (raw_data_entry_of fs1)
               (λ file_info, [sys_read (file_path file_info)]))
      by (intros x _; apply get_piggyback_raw_data_entry_run).
    done.
Qed.

End AccessorRuns.

Section RoundTripTheorem.
Context `{Regex}.

(** C7: round trip through the writer and the accessor, under the
    conditions it needs.  A source writes a non-empty batch (a dict: its
    keys are distinct) with an unused temporary name, and [lines] is what
    the batch holds for a piggybacked host.  The writer returns normally and
    the payload file of the pair holds the lines joined by a newline, with
    one newline appended.  If the host name is not empty, the source name
    does not start with a dot and the rules resolve [max_cache_age], the
    accessor, called for that host on the storage the writer left, returns
    normally, changes nothing, and has an entry of that source and path
    whose raw bytes are the stored content.  From that content the lines
    come back by splitting at the newlines, when there is at least one line
    and no line holds a newline byte. *)
Theorem payload_round_trip written created suffix source_hostname batch
  piggybacked_hostname lines now time_settings fs :
  NoDup batch.*1 →
  (piggybacked_hostname, lines) ∈ batch →
  lookup_file fs (SourceState (tmp_status_name source_hostname suffix)) = None →
  let o := store_piggyback_raw_data written created suffix source_hostname batch fs in
  let path := _get_piggybacked_file_path source_hostname piggybacked_hostname in
  res o = inr tt
  ∧ (∃ f, lookup_file (fs_after o) path = Some f
       ∧ contents f = bytes_join [newline] lines ++ [newline])
  ∧ (str_bool piggybacked_hostname = true →
     startswith source_hostname "." = false →
     resolvable time_settings piggybacked_hostname →
     ∃ entries t,
       get_piggyback_raw_data now (Some piggybacked_hostname) time_settings (fs_after o)
       = mkOutcome (inr entries) (fs_after o) t
       ∧ ∃ entry, entry ∈ entries
           ∧ source (info entry) = source_hostname
           ∧ file_path (info entry) = path
           ∧ raw_data entry = bytes_join [newline] lines ++ [newline])
  ∧ (lines ≠ [] → Forall (λ l, newline ∉ l) lines →
     read_lines (bytes_join [newline] lines ++ [newline]) = lines).
Proof.
  intros Hdup Hmem Hfresh o path.
  assert (Hne : batch ≠ []) by (by destruct batch; [apply elem_of_nil in Hmem|]).
  destruct (store_piggyback_raw_data_run written created suffix source_hostname
              batch fs Hne Hfresh) as (fs' & Hrun & _ & _ & Hin & _).
  subst o. rewrite Hrun. cbn [res fs_after].
  destruct (Hin piggybacked_hostname) as (lines' & Hmem' & Hfile).
  { apply list_elem_of_fmap. by exists (piggybacked_hostname, lines). }
  assert (lines' = lines) as -> by (by apply (NoDup_fst_functional batch piggybacked_hostname)).
  fold path in Hfile.
  split; [done|]. split; [by eexists|]. split; [|apply read_lines_payload_bytes].
  intros Hname Hvisible Hresolvable.
  destruct (_get_piggyback_processed_file_infos_run now piggybacked_hostname
              time_settings fs' Hresolvable) as (infos & t & Hinfos & Hall).
  assert (Hnot : not_hostname (Some piggybacked_hostname) = false).
  { unfold not_hostname. by rewrite Hname. }
  rewrite (get_piggyback_raw_data_run _ _ _ _ _ _ _ Hnot Hinfos).
  eexists _, _. split; [reflexivity|].
  destruct (Forall2_elem_of_l _ _ _ _ Hall (lookup_file_visible _ _ _ _ Hfile Hvisible))
    as (i & Hi & Hsrc & Hpath).
  cbn [name] in Hsrc, Hpath. fold path in Hpath.
  exists (raw_data_entry_of fs' i). split; [by apply list_elem_of_fmap_2|].
  unfold raw_data_entry_of. by rewrite Hpath, Hfile.
Qed.

End RoundTripTheorem.

Lemma payload_round_trip_witness :
  ∃ entries t,
    @get_piggyback_raw_data literal_regex (seconds 600) (Some "host1") example_rules
      (fs_after (store_piggyback_raw_data (seconds 499) (seconds 500) "abcd1234" "srv1"
                   example_batch fs_no_status))
    = mkOutcome (inr entries)
        (fs_after (store_piggyback_raw_data (seconds 499) (seconds 500) "abcd1234" "srv1"
                     example_batch fs_no_status)) t
    ∧ ∃ entry, entry ∈ entries
        ∧ source (info entry) = "srv1"
        ∧ file_path (info entry) = HostSource "host1" "srv1"
        ∧ raw_data entry = [x61; x62; x0a; x63; x0a].
Proof.
  assert (Hresolvable : @resolvable literal_regex example_rules "host1").
  { split.
    - exists 3600. unfold example_rules. do 3 right. left.
    - intros e key value _ _. done. }
  assert (Hdup : NoDup example_batch.*1).
  { cbn. repeat constructor; rewrite ?list_elem_of_singleton; [discriminate|].
    by intros ?%elem_of_nil. }
  assert (Hmem : ("host1", [[x61; x62]; [x63]]) ∈ example_batch) by left.
  exact (proj1 (proj2 (proj2
           (@payload_round_trip literal_regex (seconds 499) (seconds 500) "abcd1234"
              "srv1" example_batch "host1" [[x61; x62]; [x63]] (seconds 600)
              example_rules fs_no_status Hdup Hmem eq_refl)))
         eq_refl eq_refl Hresolvable).
Defined.

(** C7, counterexample: the round trip does not hold for every batch.  A
    batch with no line and a batch with one empty line for a host give the
    same payload file, so the lines of the first do not come back; a line
    that holds a newline byte comes back as two lines; and a source whose
    name starts with a dot writes its payload file, but the accessor, which
    lists no such name, returns no entry for it. *)
Lemma payload_round_trip_counterexample :
  payload_bytes [] = payload_bytes [[]]
  ∧ read_lines (payload_bytes []) = [[]]
  ∧ read_lines (payload_bytes [[x61; newline; x62]]) = [[x61]; [x62]]
  ∧ (∃ f, lookup_file fs_hidden_source (HostSource "host1" ".srv1") = Some f
          ∧ contents f = [x61; newline])
  ∧ res (@get_piggyback_raw_data literal_regex (seconds 600) (Some "host1") example_rules
           fs_hidden_source) = inr [].
Proof.
  split; [reflexivity|]. split; [reflexivity|]. split; [vm_compute; reflexivity|].
  split; [|vm_compute; reflexivity].
  eexists. split; vm_compute; reflexivity.
Qed.

(** ** Cleanup: status files *)

Lemma keep_greatest_lookup by_sources n v s :
  keep_greatest by_sources n v !! s =
  if bool_decide (n = s)
  then Some (match by_sources !! s with None => v | Some old => Z.max old v end)
  else by_sources !! s.
Proof.
  unfold keep_greatest. case_bool_decide as Hn.
  - subst s. destruct (by_sources !! n) as [old|] eqn:Hold.
    + destruct (old <=? v) eqn:Hle.
      * rewrite lookup_insert_eq. apply Z.leb_le in Hle. f_equal. lia.
      * rewrite Hold. apply Z.leb_gt in Hle. f_equal. lia.
    + by rewrite lookup_insert_eq.
  - destruct (by_sources !! n) as [old|]; [destruct (old <=? v)|];
      by rewrite ?lookup_insert_ne.
Qed.

Lemma is_greatest_snoc l g v :
  is_greatest l g →
  is_greatest (l ++ [v]) (Some (match g with None => v | Some old => Z.max old v end)).
Proof.
  destruct g as [old|]; cbn [is_greatest].
  - intros [Hmem Hmax]. split.
    + rewrite elem_of_app, list_elem_of_singleton.
      destruct (Z.max_spec old v) as [[_ ->]|[_ ->]]; [by right|by left].
    + intros w [Hw|Hw%list_elem_of_singleton]%elem_of_app; [|lia].
      specialize (Hmax w Hw). lia.
  - intros ->. split; [by left|]. intros w Hw%list_elem_of_singleton. lia.
Qed.

Lemma max_cache_age_of_folder_lookup folder ts source_hosts seen by_sources m s :
  max_cache_age_of_folder folder ts source_hosts by_sources = inr m →
  is_greatest seen (by_sources !! s) →
  is_greatest (seen ++ folder_candidates folder ts source_hosts s) (m !! s).
Proof.
  revert seen by_sources.
  induction source_hosts as [|source_host rest IH]; intros seen by_sources;
    cbn [max_cache_age_of_folder].
  - intros [= <-] Hseen. unfold folder_candidates. cbn. by rewrite app_nil_r.
  - destruct (max_cache_age ts (name source_host) (name folder)) as [e|age] eqn:Hage;
      [done|].
    intros Hrest Hseen.
    unfold folder_candidates. cbn [mbind list_bind]. rewrite Hage.
    fold (folder_candidates folder ts rest s).
    case_bool_decide as Hname.
    + rewrite app_assoc. apply (IH _ _ Hrest).
      rewrite keep_greatest_lookup, bool_decide_eq_true_2 by done.
      by apply is_greatest_snoc.
    + cbn [app]. apply (IH _ _ Hrest).
      by rewrite keep_greatest_lookup, bool_decide_eq_false_2.
Qed.

Lemma max_cache_age_of_folders_lookup settings_list seen by_sources m s :
  max_cache_age_of_folders settings_list by_sources = inr m →
  is_greatest seen (by_sources !! s) →
  is_greatest (seen ++ retention_candidates settings_list s) (m !! s).
Proof.
  revert seen by_sources.
  induction settings_list as [|[[folder source_hosts] ts] rest IH]; intros seen by_sources;
    cbn [max_cache_age_of_folders].
  - intros [= <-] Hseen. unfold retention_candidates. cbn. by rewrite app_nil_r.
  - destruct (max_cache_age_of_folder folder ts source_hosts by_sources) as [e|m1] eqn:Hm1;
      [done|].
    intros Hrest Hseen.
    unfold retention_candidates. cbn [mbind list_bind].
    fold (retention_candidates rest s). rewrite app_assoc.
    apply (IH _ _ Hrest). by apply (max_cache_age_of_folder_lookup _ _ _ _ _ _ _ Hm1).
Qed.

Lemma _cleanup_old_source_status_file_run now by_sources p fs :
  ∃ t, _cleanup_old_source_status_file now by_sources p fs
       = mkOutcome (inr tt)
           (if status_file_expired now by_sources fs p then remove_file p fs else fs) t.
Proof.
  unfold _cleanup_old_source_status_file, status_file_expired.
  erewrite bind_inr by apply file_age_run.
  destruct (lookup_file fs p) as [f|]; cbn [fmap option_fmap option_map]; [|by eexists].
  destruct (by_sources !! name p) as [m|]; [|by eexists].
  destruct (float_gt_Z (file_age now f) m); [|by eexists].
  erewrite bind_inr by apply _remove_piggyback_file_run. by eexists.
Qed.

Lemma status_file_expired_remove_file now by_sources p q fs :
  q ≠ p →
  status_file_expired now by_sources (remove_file p fs) q
  = status_file_expired now by_sources fs q.
Proof. intros Hne. unfold status_file_expired. by rewrite lookup_remove_file_ne. Qed.

Lemma _cleanup_old_source_status_files_loop now by_sources files fs :
  ∃ fs' t,
    for_each files (_cleanup_old_source_status_file now by_sources) fs
    = mkOutcome (inr tt) fs' t
    ∧ (∀ q, lookup_file fs' q =
            if bool_decide (q ∈ files) && status_file_expired now by_sources fs q
            then None else lookup_file fs q)
    ∧ ((∀ p, p ∈ files → ∃ n, p = SourceState n) →
       piggyback_tree fs' = piggyback_tree fs).
Proof.
  revert fs. induction files as [|p files IH]; intros fs.
  - exists fs, []. split; [done|]. split; [|done]. intros q.
    rewrite bool_decide_eq_false_2; [done|]. by intros ?%elem_of_nil.
  - destruct (_cleanup_old_source_status_file_run now by_sources p fs) as [t1 Hbody].
    set (fs1 := if status_file_expired now by_sources fs p then remove_file p fs else fs)
      in Hbody.
    destruct (IH fs1) as (fs2 & t2 & Hloop & Hlook & Htree).
    exists fs2, (t1 ++ t2). split; [|split].
    + cbn [for_each]. erewrite bind_inr by exact Hbody. by rewrite Hloop.
    + intros q. rewrite Hlook.
      destruct (decide (q = p)) as [->|Hne].
      * rewrite (bool_decide_eq_true_2 (p ∈ p :: files)) by left. cbn [andb].
        unfold fs1. destruct (status_file_expired now by_sources fs p) eqn:Hexp.
        -- rewrite lookup_remove_file_eq. by destruct (_ && _).
        -- rewrite Hexp. by rewrite andb_false_r.
      * rewrite (bool_decide_ext (q ∈ p :: files) (q ∈ files)).
        2:{ rewrite elem_of_cons. split; [by intros [?|?] | by right]. }
        unfold fs1. destruct (status_file_expired now by_sources fs p).
        -- by rewrite status_file_expired_remove_file, lookup_remove_file_ne.
        -- done.
    + intros Hstate. rewrite Htree by (intros; apply Hstate; by right).
      destruct (Hstate p) as [n ->]; [left|].
      unfold fs1. by destruct (status_file_expired now by_sources fs (SourceState n)).
Qed.

Lemma lookup_state_visible fs n f :
  lookup_file fs (SourceState n) = Some f →
  startswith n "." = false →
  SourceState n ∈ visible_entries fs PiggybackSourceDir.
Proof.
  unfold lookup_file. intros Hf Hvis. unfold visible_entries, dir_entries.
  apply list_elem_of_In, filter_In. split.
  - apply list_elem_of_In, list_elem_of_fmap. exists n. split; [done|].
    apply list_elem_of_fmap. exists (n, f). split; [done|].
    by apply elem_of_map_to_list.
  - cbn [name]. by rewrite Hvis.
Qed.

Lemma _cleanup_old_source_status_files_run now settings_list fs :
  match max_cache_age_of_folders settings_list ∅ with
  | inl e => _cleanup_old_source_status_files now settings_list fs = mkOutcome (inl e) fs []
  | inr by_sources =>
      ∃ fs' t,
        _cleanup_old_source_status_files now settings_list fs = mkOutcome (inr tt) fs' t
        ∧ (∀ q, lookup_file fs' q =
                if bool_decide (q ∈ visible_entries fs PiggybackSourceDir)
                   && status_file_expired now by_sources fs q
                then None else lookup_file fs q)
        ∧ piggyback_tree fs' = piggyback_tree fs
  end.
Proof.
  unfold _cleanup_old_source_status_files.
  destruct (max_cache_age_of_folders settings_list ∅) as [e|by_sources]; [done|].
  cbn [lift]. erewrite bind_inr by reflexivity.
  unfold _get_source_state_files. erewrite bind_inr by (by apply _files_in_dir).
  destruct (_cleanup_old_source_status_files_loop now by_sources
              (visible_entries fs PiggybackSourceDir) fs)
    as (fs' & t & Hloop & Hlook & Htree).
  exists fs', ([] ++ [sys_iterdir PiggybackSourceDir] ++ t).
  split; [by rewrite Hloop|]. split; [done|].
  apply Htree. intros p Hp.
  by apply visible_entries_are_entries, dir_entries_are_children in Hp.
Qed.

(** C5 (as amended): the status file pass.  When every pair of the list
    resolves its [max_cache_age], the pass returns normally; the retention
    it keeps for a source name is the greatest of the resolved values of the
    pairs whose source file has that name (none when there is no such pair);
    a listed status file is deleted exactly when a retention is kept for its
    name and its age, the float [time.time() - st_mtime], is above it; the
    status file of a source that no folder of the list holds a file of is
    left alone; and no payload file or folder is touched. *)
Theorem status_file_retention now settings_list by_sources fs :
  max_cache_age_of_folders settings_list ∅ = inr by_sources →
  let o := _cleanup_old_source_status_files now settings_list fs in
  res o = inr tt
  ∧ (∀ s, is_greatest (retention_candidates settings_list s) (by_sources !! s))
  ∧ (∀ n f, lookup_file fs (SourceState n) = Some f →
       startswith n "." = false →
       (lookup_file (fs_after o) (SourceState n) = None
        ↔ ∃ m, by_sources !! n = Some m ∧ float_gt_Z (file_age now f) m = true))
  ∧ (∀ n, retention_candidates settings_list n = [] →
       lookup_file (fs_after o) (SourceState n) = lookup_file fs (SourceState n))
  ∧ piggyback_tree (fs_after o) = piggyback_tree fs.
Proof.
  intros Hby o.
  assert (Hgreatest : ∀ s, is_greatest (retention_candidates settings_list s)
                             (by_sources !! s)).
  { intros s.
    apply (max_cache_age_of_folders_lookup settings_list [] ∅ by_sources s Hby).
    by rewrite lookup_empty. }
  pose proof (_cleanup_old_source_status_files_run now settings_list fs) as Hrun.
  rewrite Hby in Hrun. destruct Hrun as (fs' & t & Hrun & Hlook & Htree).
  subst o. rewrite Hrun. cbn [res fs_after].
  split; [done|]. split; [done|]. split; [|split; [|done]].
  - intros n f Hf Hvis. rewrite Hlook.
    rewrite (bool_decide_eq_true_2 _ (lookup_state_visible _ _ _ Hf Hvis)). cbn [andb].
    unfold status_file_expired. rewrite Hf. cbn [name].
    destruct (by_sources !! n) as [m|].
    + destruct (float_gt_Z (file_age now f) m) eqn:Hgt.
      * split; [|done]. intros _. by exists m.
      * split; [done|]. intros (m' & [= <-] & Hm'). congruence.
    + split; [done|]. by intros (m & ? & _).
  - intros n Hnone. rewrite Hlook.
    assert (by_sources !! n = None) as Hn.
    { specialize (Hgreatest n). rewrite Hnone in Hgreatest.
      destruct (by_sources !! n); [|done].
      destruct Hgreatest as [Hmem _]. by apply elem_of_nil in Hmem. }
    unfold status_file_expired. cbn [name]. rewrite Hn.
    destruct (lookup_file fs (SourceState n)); by rewrite andb_false_r.
Qed.

Lemma status_file_retention_witness :
  res (_cleanup_old_source_status_files (seconds 5000) example_settings_list
         (mkFS (piggyback_tree fs_no_status) {[ "srv1" := status_100_7 ]})) = inr tt
  ∧ lookup_file
      (fs_after (_cleanup_old_source_status_files (seconds 5000) example_settings_list
                   (mkFS (piggyback_tree fs_no_status) {[ "srv1" := status_100_7 ]})))
      (SourceState "srv1") = None.
Proof.
  pose proof (status_file_retention (seconds 5000) example_settings_list
                {[ "srv1" := 3600 ]}
                (mkFS (piggyback_tree fs_no_status) {[ "srv1" := status_100_7 ]})
                eq_refl) as (Hres & _ & Hdeleted & _).
  split; [exact Hres|].
  apply (Hdeleted "srv1" status_100_7 eq_refl eq_refl).
  exists 3600. split; [reflexivity|]. vm_compute. reflexivity.
Defined.

(** C5 as stated fails on a status file that no folder refers to: the claim
    has it deleted, the sweep leaves it where it is however old it is. *)
Lemma unreferenced_status_file_counterexample :
  piggyback_tree fs_orphan = ∅
  ∧ lookup_file fs_orphan (SourceState "orphan") = Some payload_100_2
  ∧ res (@cleanup_piggyback_files literal_regex (seconds 1000000) example_rules fs_orphan)
    = inr tt
  ∧ lookup_file
      (fs_after (@cleanup_piggyback_files literal_regex (seconds 1000000) example_rules
                   fs_orphan))
      (SourceState "orphan") = Some payload_100_2.
Proof. repeat split; vm_compute; reflexivity. Qed.

(** ** Cleanup: payload files *)

Lemma _cleanup_old_piggybacked_file_run now folder ts p fs :
  ∃ t, _cleanup_old_piggybacked_file now folder ts p fs =
       match lookup_file fs p with
       | None => mkOutcome (inr tt) fs t
       | Some f =>
           match max_cache_age ts (name p) (name folder) with
           | inl e => mkOutcome (inl e) fs t
           | inr _ =>
               mkOutcome (inr tt)
                 (if payload_expired now ts (name p) (name folder) f
                  then remove_file p fs else fs) t
           end
       end.
Proof.
  unfold _cleanup_old_piggybacked_file, payload_expired.
  erewrite bind_inr by apply file_age_run.
  destruct (lookup_file fs p) as [f|]; cbn [fmap option_fmap option_map]; [|by eexists].
  destruct (max_cache_age ts (name p) (name folder)) as [e|allowed]; [by eexists|].
  cbn [lift]. erewrite bind_inr by reflexivity.
  set (period := default 0 (validity_period ts (name p) (name folder))).
  destruct (float_le_Z (file_age now f) allowed);
    destruct (float_le_Z (file_age now f) period); cbn [andb orb negb];
    try by eexists.
  erewrite bind_inr by apply _remove_piggyback_file_run. by eexists.
Qed.

(** One folder of the sweep: what its loop over the source files deletes. *)
Lemma _cleanup_old_piggybacked_files_folder now folder ts source_hosts fs :
  ∃ r fs' t,
    for_each source_hosts (_cleanup_old_piggybacked_file now folder ts) fs
    = mkOutcome r fs' t
    ∧ (∀ q, lookup_file fs' q = lookup_file fs q
            ∨ (lookup_file fs' q = None ∧ q ∈ source_hosts
               ∧ ∃ f, lookup_file fs q = Some f
                   ∧ payload_expired now ts (name q) (name folder) f = true))
    ∧ (r = inr tt → ∀ q f, q ∈ source_hosts → lookup_file fs q = Some f →
         payload_expired now ts (name q) (name folder) f = true →
         lookup_file fs' q = None).
Proof.
  revert fs. induction source_hosts as [|p rest IH]; intros fs.
  - exists (inr tt), fs, []. split; [done|]. split; [by left|].
    by intros _ q f ?%elem_of_nil.
  - destruct (_cleanup_old_piggybacked_file_run now folder ts p fs) as [t1 Hbody].
    cbn [for_each].
    destruct (lookup_file fs p) as [f|] eqn:Hf.
    2:{ destruct (IH fs) as (r & fs' & t & Hloop & Hsafe & Hlive).
        exists r, fs', (t1 ++ t). split; [|split].
        - erewrite bind_inr by exact Hbody. by rewrite Hloop.
        - intros q. destruct (Hsafe q) as [Heq|(Hnone & Hq & Hexp)]; [by left|].
          right. split; [done|]. split; [by right|done].
        - intros Hr q g [->|Hq]%elem_of_cons Hg Hexp; [congruence|].
          by apply (Hlive Hr q g). }
    destruct (max_cache_age ts (name p) (name folder)) as [e|allowed] eqn:Hallowed.
    { exists (inl e), fs, t1. split; [by erewrite bind_inl by exact Hbody|].
      split; [by left|done]. }
    set (fs1 := if payload_expired now ts (name p) (name folder) f
                then remove_file p fs else fs) in Hbody.
    destruct (IH fs1) as (r & fs' & t & Hloop & Hsafe & Hlive).
    assert (Hstep : ∀ q, lookup_file fs1 q = lookup_file fs q
                         ∨ (lookup_file fs1 q = None ∧ q = p
                            ∧ payload_expired now ts (name p) (name folder) f = true)).
    { intros q. unfold fs1.
      destruct (payload_expired now ts (name p) (name folder) f); [|by left].
      destruct (decide (q = p)) as [->|Hne].
      - right. by rewrite lookup_remove_file_eq.
      - left. by apply lookup_remove_file_ne. }
    exists r, fs', (t1 ++ t). split; [|split].
    + erewrite bind_inr by exact Hbody. by rewrite Hloop.
    + intros q.
      destruct (Hstep q) as [Heq1|(Hnone1 & Hqp & Hexp1)];
        destruct (Hsafe q) as [Heq|(Hnone & Hq & g & Hg & Hexp)].
      * left. congruence.
      * right. split; [done|]. split; [by right|]. exists g. by rewrite <- Heq1.
      * subst q. right. split; [congruence|]. split; [left|]. by exists f.
      * subst q. right. split; [done|]. split; [left|]. by exists f.
    + intros Hr q g [->|Hq]%elem_of_cons Hg Hexp.
      * assert (g = f) as -> by congruence.
        destruct (Hstep p) as [Heq1|(Hnone1 & _ & _)].
        -- unfold fs1 in Heq1. rewrite Hexp, lookup_remove_file_eq in Heq1. congruence.
        -- destruct (Hsafe p) as [Heq|(Hnone & _)]; congruence.
      * destruct (Hstep q) as [Heq1|(Hnone1 & _ & _)].
        -- apply (Hlive Hr q g Hq); [congruence|done].
        -- destruct (Hsafe q) as [Heq|(Hnone & _)]; congruence.
Qed.

Lemma _remove_empty_folder_lookup p fs :
  ∃ r fs' t, _remove_empty_folder p fs = mkOutcome r fs' t
             ∧ ∀ q, lookup_file fs' q = lookup_file fs q.
Proof.
  destruct p as [| |h|h s|n].
  - unfold _remove_empty_folder, try_except, rmdir, syscall.
    destruct (bool_decide (piggyback_tree fs = ∅)); by eexists _, _, _.
  - unfold _remove_empty_folder, try_except, rmdir, syscall.
    destruct (bool_decide (source_tree fs = ∅)); by eexists _, _, _.
  - rewrite _remove_empty_folder_run.
    destruct (piggyback_tree fs !! h) as [d|] eqn:Hd; [|by eexists _, _, _].
    case_bool_decide as Hempty; [|by eexists _, _, _].
    eexists _, _, _. split; [done|]. intros q. unfold lookup_file.
    destruct q as [| |h'|h' s'|n']; try done. cbn [set_piggyback_tree piggyback_tree].
    destruct (decide (h' = h)) as [->|Hne].
    + rewrite lookup_delete_eq, Hd, Hempty. cbn. by rewrite lookup_empty.
    + by rewrite lookup_delete_ne.
  - unfold _remove_empty_folder, try_except, rmdir, syscall.
    destruct (lookup_file fs (HostSource h s)); by eexists _, _, _.
  - unfold _remove_empty_folder, try_except, rmdir, syscall.
    destruct (lookup_file fs (SourceState n)); by eexists _, _, _.
Qed.

(** The payload pass over a list of folders: a file it deletes was found
    expired on a visit, and when the pass returns normally every file found
    expired on a visit is deleted. *)
Lemma _cleanup_old_piggybacked_files_run now settings_list fs :
  ∃ r fs' t,
    _cleanup_old_piggybacked_files now settings_list fs = mkOutcome r fs' t
    ∧ (∀ q, lookup_file fs' q = lookup_file fs q
            ∨ (lookup_file fs' q = None
               ∧ ∃ folder source_hosts ts f,
                   (folder, source_hosts, ts) ∈ settings_list ∧ q ∈ source_hosts
                   ∧ lookup_file fs q = Some f
                   ∧ payload_expired now ts (name q) (name folder) f = true))
    ∧ (r = inr tt → ∀ folder source_hosts ts q f,
         (folder, source_hosts, ts) ∈ settings_list → q ∈ source_hosts →
         lookup_file fs q = Some f →
         payload_expired now ts (name q) (name folder) f = true →
         lookup_file fs' q = None).
Proof.
  unfold _cleanup_old_piggybacked_files.
  revert fs. induction settings_list as [|[[folder source_hosts] ts] rest IH]; intros fs.
  - exists (inr tt), fs, []. split; [done|]. split; [by left|].
    by intros _ ? ? ? ? ? ?%elem_of_nil.
  - cbn [for_each].
    destruct (_cleanup_old_piggybacked_files_folder now folder ts source_hosts fs)
      as (r1 & fs1 & t1 & Hfolder & Hsafe1 & Hlive1).
    destruct r1 as [e|[]].
    { exists (inl e), fs1, t1. split.
      - erewrite bind_inl; [done|]. by erewrite bind_inl by exact Hfolder.
      - split; [|done]. intros q.
        destruct (Hsafe1 q) as [Heq|(Hnone & Hq & f & Hf & Hexp)]; [by left|].
        right. split; [done|]. exists folder, source_hosts, ts, f.
        split; [left|done]. }
    destruct (_remove_empty_folder_lookup folder fs1) as (r2 & fs2 & t2 & Hrmdir & Hlook2).
    assert (Hsafe2 : ∀ q, lookup_file fs2 q = lookup_file fs q
              ∨ (lookup_file fs2 q = None ∧ q ∈ source_hosts
                 ∧ ∃ f, lookup_file fs q = Some f
                     ∧ payload_expired now ts (name q) (name folder) f = true)).
    { intros q. rewrite Hlook2. apply Hsafe1. }
    destruct r2 as [e|[]].
    { exists (inl e), fs2, (t1 ++ t2). split.
      - erewrite bind_inl; [done|]. erewrite bind_inr by exact Hfolder.
        by rewrite Hrmdir.
      - split; [|done]. intros q.
        destruct (Hsafe2 q) as [Heq|(Hnone & Hq & f & Hf & Hexp)]; [by left|].
        right. split; [done|]. exists folder, source_hosts, ts, f.
        split; [left|done]. }
    destruct (IH fs2) as (r & fs' & t & Hloop & Hsafe & Hlive).
    exists r, fs', ((t1 ++ t2) ++ t). split; [|split].
    + erewrite bind_inr.
      2:{ erewrite bind_inr by exact Hfolder. by rewrite Hrmdir. }
      cbn [trace fs_after]. by rewrite Hloop.
    + intros q.
      destruct (Hsafe2 q) as [Heq2|(Hnone2 & Hq2 & f2 & Hf2 & Hexp2)];
        destruct (Hsafe q) as [Heq|(Hnone & fo & so & tso & g & Hmem & Hq & Hg & Hexp)].
      * left. congruence.
      * right. split; [done|]. exists fo, so, tso, g.
        split; [by right|]. split; [done|]. split; [congruence|done].
      * right. split; [congruence|]. exists folder, source_hosts, ts, f2.
        split; [left|done].
      * right. split; [done|]. exists folder, source_hosts, ts, f2.
        split; [left|done].
    + intros Hr fo so tso q f [[= -> -> ->]|Hmem]%elem_of_cons Hq Hf Hexp.
      * assert (lookup_file fs2 q = None) as Hgone.
        { rewrite Hlook2. by apply (Hlive1 eq_refl q f). }
        destruct (Hsafe q) as [Heq|(Hnone & _)]; congruence.
      * destruct (Hsafe2 q) as [Heq2|(Hnone2 & _)].
        -- apply (Hlive Hr fo so tso q f); [done..|congruence|done].
        -- destruct (Hsafe q) as [Heq|(Hnone & _)]; congruence.
Qed.

Lemma list_comp_readonly {A B} (xs : list A) (body : A → M B) (P : A → B → Prop) fs :
  (∀ x, x ∈ xs → ∃ r t, body x fs = mkOutcome r fs t ∧ ∀ y, r = inr y → P x y) →
  ∃ r t, list_comp xs body fs = mkOutcome r fs t ∧ ∀ ys, r = inr ys → Forall2 P xs ys.
Proof.
  induction xs as [|x xs IH]; intros Hbody.
  - exists (inr []), []. split; [done|]. by intros ? [= <-].
  - destruct (Hbody x) as (r1 & t1 & Hx & HP); [left|].
    destruct IH as (r2 & t2 & Hxs & HPs); [intros; apply Hbody; by right|].
    cbn [list_comp]. destruct r1 as [e|y].
    { exists (inl e), t1. by erewrite bind_inl by exact Hx. }
    erewrite bind_inr by exact Hx. destruct r2 as [e|ys].
    { exists (inl e), (t1 ++ t2). by erewrite bind_inl by exact Hxs. }
    erewrite bind_inr by exact Hxs.
    exists (inr (y :: ys)), (t1 ++ t2 ++ []). split; [done|].
    intros ? [= <-]. constructor; [by apply HP|by apply HPs].
Qed.

Lemma Forall2_elem_of_r {A B} (P : A → B → Prop) xs ys y :
  Forall2 P xs ys → y ∈ ys → ∃ x, x ∈ xs ∧ P x y.
Proof.
  induction 1 as [|x0 y0 xs ys HP _ IH]; [by intros ?%elem_of_nil|].
  intros [->|Hy]%elem_of_cons.
  - exists x0. split; [left|done].
  - destruct (IH Hy) as (x & Hx & HPx). exists x. split; [by right|done].
Qed.

Lemma folder_visible fs h s f :
  lookup_file fs (HostSource h s) = Some f →
  startswith h "." = false →
  HostFolder h ∈ visible_entries fs PiggybackDir.
Proof.
  unfold lookup_file. intros Hf Hvis.
  destruct (piggyback_tree fs !! h) as [d|] eqn:Hd; [|done].
  unfold visible_entries, dir_entries.
  apply list_elem_of_In, filter_In. split.
  - apply list_elem_of_In, list_elem_of_fmap. exists h. split; [done|].
    apply list_elem_of_fmap. exists (h, d). split; [done|].
    by apply elem_of_map_to_list.
  - cbn [name]. by rewrite Hvis.
Qed.

Section Sweep.
Context `{Regex}.

Lemma _get_piggybacked_hosts_settings_run time_settings fs :
  ∃ r t, _get_piggybacked_hosts_settings time_settings fs = mkOutcome r fs t
         ∧ ∀ settings_list, r = inr settings_list →
             Forall2 (λ folder entry,
                        ∃ ts, entry = (folder, visible_entries fs folder, ts)
                              ∧ _TimeSettingsMap_init (name <$> visible_entries fs folder)
                                  (name folder) time_settings = inr ts)
               (visible_entries fs PiggybackDir) settings_list.
Proof.
  unfold _get_piggybacked_hosts_settings, _get_piggybacked_host_folders.
  erewrite bind_inr by (by apply _files_in_dir).
  destruct (list_comp_readonly (visible_entries fs PiggybackDir)
              (λ piggybacked_host_folder,
                 source_hosts <- _files_in piggybacked_host_folder ;;
                 time_settings_map <-
                   lift (_TimeSettingsMap_init (name <$> source_hosts)
                           (name piggybacked_host_folder) time_settings) ;;
                 ret (piggybacked_host_folder, source_hosts, time_settings_map))
              (λ folder entry,
                 ∃ ts, entry = (folder, visible_entries fs folder, ts)
                       ∧ _TimeSettingsMap_init (name <$> visible_entries fs folder)
                           (name folder) time_settings = inr ts)
              fs) as (r & t & Hrun & Hall).
  { intros folder Hfolder.
    apply visible_entries_are_entries, dir_entries_are_children in Hfolder as [h ->].
    erewrite bind_inr by (by apply _files_in_dir).
    destruct (_TimeSettingsMap_init (name <$> visible_entries fs (HostFolder h))
                (name (HostFolder h)) time_settings) as [e|ts] eqn:Hinit.
    - eexists (inl e), _. split; [reflexivity|done].
    - eexists (inr _), _. split; [reflexivity|]. intros entry [= <-]. by exists ts. }
  rewrite Hrun. by eexists _, _.
Qed.

(** The whole sweep, on the payload files: a payload file it deletes is
    listed and expired under the settings of its folder, and when the sweep
    returns normally every listed payload file that is expired under the
    settings of its folder is deleted. *)
Lemma cleanup_piggyback_files_run now time_settings fs :
  ∃ r fs' t,
    cleanup_piggyback_files now time_settings fs = mkOutcome r fs' t
    ∧ (∀ h s f,
         lookup_file fs (HostSource h s) = Some f →
         lookup_file fs' (HostSource h s) = None →
         ∃ ts, _TimeSettingsMap_init (name <$> visible_entries fs (HostFolder h)) h
                 time_settings = inr ts
               ∧ payload_expired now ts s h f = true)
    ∧ (r = inr tt → ∀ h s f ts,
         lookup_file fs (HostSource h s) = Some f →
         startswith h "." = false → startswith s "." = false →
         _TimeSettingsMap_init (name <$> visible_entries fs (HostFolder h)) h
           time_settings = inr ts →
         payload_expired now ts s h f = true →
         lookup_file fs' (HostSource h s) = None).
Proof.
  unfold cleanup_piggyback_files.
  destruct (_get_piggybacked_hosts_settings_run time_settings fs) as (r0 & t0 & Hsettings & Hall).
  destruct r0 as [e|settings_list].
  { exists (inl e), fs, t0. split; [by erewrite bind_inl by exact Hsettings|].
    split; [|done]. intros h s f Hf Hgone. congruence. }
  specialize (Hall _ eq_refl).
  erewrite bind_inr by exact Hsettings.
  pose proof (_cleanup_old_source_status_files_run now settings_list fs) as Hstatus.
  destruct (max_cache_age_of_folders settings_list ∅) as [e|by_sources].
  { exists (inl e), fs, (t0 ++ []). split; [by erewrite bind_inl by exact Hstatus|].
    split; [|done]. intros h s f Hf Hgone. congruence. }
  destruct Hstatus as (fs1 & t1 & Hstatus & _ & Htree).
  assert (Hsame : ∀ h s, lookup_file fs1 (HostSource h s) = lookup_file fs (HostSource h s)).
  { intros h s. unfold lookup_file. by rewrite Htree. }
  destruct (_cleanup_old_piggybacked_files_run now settings_list fs1)
    as (r & fs' & t & Hpass & Hsafe & Hlive).
  exists r, fs', (t0 ++ t1 ++ t). split; [|split].
  - erewrite bind_inr by exact Hstatus. by rewrite Hpass.
  - intros h s f Hf Hgone.
    destruct (Hsafe (HostSource h s)) as [Heq|(_ & folder & sources & ts & g & Hmem & Hq & Hg & Hexp)].
    { rewrite Hsame in Heq. congruence. }
    rewrite Hsame, Hf in Hg. injection Hg as <-.
    destruct (Forall2_elem_of_r _ _ _ _ Hall Hmem) as (folder' & Hfolder' & ts' & [= -> -> ->] & Hinit).
    apply visible_entries_are_entries, dir_entries_are_children in Hfolder' as [h' ->].
    apply visible_entries_are_entries, dir_entries_are_children in Hq as [s' [= -> ->]].
    exists ts'. by split.
  - intros Hr h s f ts Hf Hh Hs Hinit Hexp.
    destruct (Forall2_elem_of_l _ _ _ _ Hall (folder_visible _ _ _ _ Hf Hh))
      as (entry & Hentry & ts' & -> & Hinit').
    cbn [name] in Hinit'. rewrite Hinit in Hinit'. injection Hinit' as <-.
    apply (Hlive Hr _ _ _ _ f Hentry); [by apply (lookup_file_visible _ _ _ f)| |done].
    by rewrite Hsame.
Qed.


End Sweep.


Lemma accessor_isolates_read_failures_witness :
  ∃ entry,
    (raw_data_entry_of fs_no_status <$> [info_host1; info_vanished]) !! 1%nat = Some entry
    ∧ valid (info entry) = false
    ∧ raw_data entry = [].
Proof.
  destruct (@accessor_isolates_read_failures literal_regex 0 None [] 
              [info_host1; info_vanished] fs_no_status fs_no_status)
    as (_ & _ & _ & Hentry & _).
  destruct (Hentry 1%nat info_vanished eq_refl) as (entry & Hat & _ & Hgone).
  exists entry. split; [exact Hat|].
  destruct (Hgone eq_refl) as (_ & _ & Hvalid & _ & _ & Hdata). by split.
Defined.

Lemma empty_batch_removes_status_file_only_witness :
  lookup_file
    (fs_after (store_piggyback_raw_data (seconds 499) (seconds 500) "abcd1234" "srv1" []
                 fs_same_second))
    (HostSource "host1" "srv1") = Some payload_100_2.
Proof.
  destruct (empty_batch_removes_status_file_only (seconds 499) (seconds 500) "abcd1234"
              "srv1" fs_same_second) as (Hrun & _ & _ & Hframe).
  rewrite Hrun. cbn [fs_after]. rewrite Hframe; [reflexivity|discriminate].
Defined.

(** ** Rendering of time differences *)

(** The doctests of [_render_time]. *)
Example _render_time_184 : _render_time (Int 184) = "0:03:04".
Proof. vm_compute. reflexivity. Qed.

Example _render_time_92635_3 :
  _render_time (Float (float_of_Z 926353 / float_of_Z 10)) = "1 day, 1:43:55".
Proof. vm_compute. reflexivity. Qed.

(** * Further properties of the module *)

(** ** The inspector, in full *)

Lemma _match_raises self key source_hostname piggybacked_hostname e :
  _match self key source_hostname piggybacked_hostname = inl e → e = KeyError (None, key).
Proof.
  unfold _match. repeat (destruct (_ !! _); [done|]). by intros [= <-].
Qed.

(** The whole outcome of the inspector for one pair: it only stats, leaves
    the storage as it is, and its result follows the file, the resolution of
    [max_cache_age] and the [verdict]. *)
Lemma _get_piggyback_processed_file_info_outcome now source_hostname piggybacked_hostname
  path settings fs :
  ∃ r t,
    _get_piggyback_processed_file_info now source_hostname piggybacked_hostname
      path settings fs = mkOutcome r fs t
    ∧ Forall (λ c, ∃ q, c = sys_stat q) t
    ∧ match lookup_file fs path with
      | None =>
          r = inr (mkPiggybackFileInfo source_hostname path false
                     "Piggyback file is missing" 0)
      | Some f =>
          match max_cache_age settings source_hostname piggybacked_hostname with
          | inl e => r = inl e
          | inr allowed =>
              ∃ i, r = inr i ∧ source i = source_hostname ∧ file_path i = path
                ∧ message i ≠ ""
                ∧ (valid i, status i)
                  = verdict now settings source_hostname piggybacked_hostname allowed fs f
          end
      end.
Proof.
  unfold _get_piggyback_processed_file_info, verdict.
  erewrite bind_inr by apply file_age_run.
  destruct (lookup_file fs path) as [f|] eqn:Hf; cbn [fmap option_fmap option_map].
  2:{ eexists _, _. split; [reflexivity|]. split; [stat_trace|done]. }
  destruct (max_cache_age settings source_hostname piggybacked_hostname) as [e|allowed].
  { eexists _, _. split; [reflexivity|]. split; [stat_trace|done]. }
  cbn [lift]. erewrite bind_inr by reflexivity.
  destruct (float_gt_Z (file_age now f) allowed).
  { eexists _, _. split; [reflexivity|]. split; [stat_trace|].
    eexists. split; [reflexivity|]. done. }
  assert (Hab : ∃ t, _is_piggybacked_host_abandoned
                       (_get_source_status_file_path source_hostname) path fs
                     = mkOutcome (inr (abandoned_whole_seconds fs source_hostname f)) fs t
                     ∧ Forall (λ c, ∃ q, c = sys_stat q) t).
  { unfold _is_piggybacked_host_abandoned, abandoned_whole_seconds, try_except, bind.
    rewrite os_stat_run.
    destruct (lookup_file fs (_get_source_status_file_path source_hostname)) as [s|].
    - rewrite os_stat_run, Hf. eexists. split; [reflexivity|]. stat_trace.
    - eexists. split; [reflexivity|]. stat_trace. }
  destruct Hab as (t & Hrun & Ht).
  erewrite bind_inr by exact Hrun.
  destruct (abandoned_whole_seconds fs source_hostname f).
  - eexists _, _. split; [reflexivity|].
    split; [stat_trace|].
    eexists. split; [reflexivity|]. cbn [source file_path valid status message].
    rewrite str_bool_validity_period_message.
    split; [done|]. split; [done|]. split; [done|].
    by destruct (still_valid settings source_hostname piggybacked_hostname _).
  - eexists _, _. split; [reflexivity|].
    split; [stat_trace|].
    eexists. split; [reflexivity|]. done.
Qed.

(** X1: the inspector of one pair only reads.  Whatever the storage and the
    settings, it leaves the storage as it is and makes no call but [stat];
    it raises nothing but the [KeyError] of a [max_cache_age] that does not
    resolve, and only for a payload file that is there; a record it returns
    carries the source, the path and a message that is not empty (so the
    check of [__post_init__] never fires). *)
Theorem inspector_only_stats now source_hostname piggybacked_hostname path settings fs :
  let o := _get_piggyback_processed_file_info now source_hostname piggybacked_hostname
             path settings fs in
  fs_after o = fs
  ∧ Forall (λ c, ∃ q, c = sys_stat q) (trace o)
  ∧ match res o with
    | inl e => e = KeyError (None, "max_cache_age") ∧ is_Some (lookup_file fs path)
    | inr i => source i = source_hostname ∧ file_path i = path ∧ message i ≠ ""
    end.
Proof.
  intros o.
  destruct (_get_piggyback_processed_file_info_outcome now source_hostname
              piggybacked_hostname path settings fs) as (r & t & Hrun & Ht & Hr).
  subst o. rewrite Hrun. cbn [res fs_after trace].
  split; [done|]. split; [done|].
  destruct (lookup_file fs path) as [f|].
  - destruct (max_cache_age settings source_hostname piggybacked_hostname) as [e|allowed]
      eqn:Hallowed.
    + subst r. split; [|by eexists]. by apply _match_raises in Hallowed.
    + by destruct Hr as (i & -> & Hs & Hp & Hm & _).
  - by subst r.
Qed.

(** X2: what a record of the inspector tells.  The age of the file is the
    float [time.time() - st_mtime].  For a payload file that is there and a
    [max_cache_age] that resolves: for a valid record the test
    [file_age > max_cache_age] failed; a record with a status other than 0
    is valid, comes from an abandoned pair within its validity period, and
    its status is the resolved [validity_state]; an invalid record has
    status 0. *)
Theorem inspector_record_meaning now source_hostname piggybacked_hostname settings
  fs f allowed i :
  lookup_file fs (_get_piggybacked_file_path source_hostname piggybacked_hostname) = Some f →
  max_cache_age settings source_hostname piggybacked_hostname = inr allowed →
  res (_get_piggyback_processed_file_info now source_hostname piggybacked_hostname
         (_get_piggybacked_file_path source_hostname piggybacked_hostname) settings fs)
    = inr i →
  (valid i = true → float_gt_Z (file_age now f) allowed = false)
  ∧ (status i ≠ 0 →
       valid i = true
       ∧ abandoned_whole_seconds fs source_hostname f = true
       ∧ still_valid settings source_hostname piggybacked_hostname (file_age now f)
         = true
       ∧ status i = validity_state settings source_hostname piggybacked_hostname)
  ∧ (valid i = false → status i = 0).
Proof.
  intros Hf Hallowed Hres.
  destruct (_get_piggyback_processed_file_info_outcome now source_hostname
              piggybacked_hostname
              (_get_piggybacked_file_path source_hostname piggybacked_hostname)
              settings fs) as (r & t & Hrun & _ & Hr).
  rewrite Hrun in Hres. cbn [res] in Hres. subst r.
  rewrite Hf, Hallowed in Hr. destruct Hr as (i' & [= <-] & _ & _ & _ & Hverdict).
  unfold verdict in Hverdict.
  destruct (float_gt_Z (file_age now f) allowed) eqn:Hold.
  { injection Hverdict as -> ->. done. }
  destruct (abandoned_whole_seconds fs source_hostname f);
    [destruct (still_valid settings source_hostname piggybacked_hostname _)|];
    injection Hverdict as -> ->; done.
Qed.

Lemma inspector_record_meaning_witness :
  validity_state settings_with_validity "srv1" "host1" = 1
  ∧ abandoned_whole_seconds fs_no_status "srv1" payload_100_2 = true.
Proof.
  split; [reflexivity|].
  apply (inspector_record_meaning (seconds 3000) "srv1" "host1" settings_with_validity
           fs_no_status payload_100_2 3600
           (mkPiggybackFileInfo "srv1" (HostSource "host1" "srv1") true
              "Piggyback data not updated by source 'srv1' (still valid, 1:11:40 left)" 1)
           eq_refl eq_refl);
    [vm_compute; reflexivity | discriminate].
Defined.

(** ** Removal of one file *)

Lemma remove_file_absent p fs : lookup_file fs p = None → remove_file p fs = fs.
Proof.
  intros Hf. unfold remove_file. destruct p; try done.
  - unfold lookup_file in Hf.
    destruct (piggyback_tree fs !! piggybacked) as [d|] eqn:Hd; [|done].
    simpl in Hf. rewrite (delete_id d) by done. rewrite insert_id by done. by destruct fs.
  - unfold lookup_file in Hf. rewrite delete_id by done. by destruct fs.
Qed.

(** X3: [_remove_piggyback_file] tells whether the file was there, leaves it
    absent and every other file as it was; called again it returns [False]
    and changes nothing. *)
Theorem remove_piggyback_file_twice p fs :
  let first := _remove_piggyback_file p fs in
  let second := _remove_piggyback_file p (fs_after first) in
  res first = inr (bool_decide (is_Some (lookup_file fs p)))
  ∧ lookup_file (fs_after first) p = None
  ∧ (∀ q, q ≠ p → lookup_file (fs_after first) q = lookup_file fs q)
  ∧ res second = inr false
  ∧ fs_after second = fs_after first.
Proof.
  intros first second. subst first second.
  rewrite !_remove_piggyback_file_run. cbn [res fs_after].
  pose proof (lookup_remove_file_eq p fs) as Hgone.
  split; [done|]. split; [done|].
  split; [intros q Hq; by apply lookup_remove_file_ne|].
  split; [by rewrite Hgone | by apply remove_file_absent].
Qed.

(** ** Source host names *)

Lemma filter_fmap_comm {A B} (f : A → B) (P : B → bool) (l : list A) :
  List.filter P (f <$> l) = f <$> List.filter (λ a, P (f a)) l.
Proof.
  induction l as [|a l IH]; [done|]. cbn. destruct (P (f a)); cbn; by rewrite IH.
Qed.

Lemma visible_names_of_host fs h :
  name <$> visible_entries fs (HostFolder h)
  = List.filter (λ n, negb (startswith n "."))
      (match piggyback_tree fs !! h with Some d => (map_to_list d).*1 | None => [] end).
Proof.
  unfold visible_entries, dir_entries.
  destruct (piggyback_tree fs !! h) as [d|]; [|done].
  rewrite filter_fmap_comm, <- list_fmap_compose.
  cbn [name]. apply list_fmap_id.
Qed.

Lemma visible_names_of_host_NoDup fs h : NoDup (name <$> visible_entries fs (HostFolder h)).
Proof.
  rewrite visible_names_of_host. apply NoDup_ListNoDup, List.NoDup_filter, NoDup_ListNoDup.
  destruct (piggyback_tree fs !! h) as [d|]; [apply NoDup_fst_map_to_list | constructor].
Qed.

Lemma visible_names_of_host_elem fs h s :
  s ∈ name <$> visible_entries fs (HostFolder h)
  ↔ is_Some (lookup_file fs (HostSource h s)) ∧ startswith s "." = false.
Proof.
  rewrite visible_names_of_host, list_elem_of_In, filter_In, <- list_elem_of_In.
  rewrite negb_true_iff. unfold lookup_file.
  destruct (piggyback_tree fs !! h) as [d|]; cbn.
  - rewrite list_elem_of_fmap. split.
    + intros [((s', f) & -> & Hin%elem_of_map_to_list) Hvis]. split; [by eexists|done].
    + intros [[f Hf] Hvis]. split; [|done]. exists (s, f). split; [done|].
      by apply elem_of_map_to_list.
  - split; [by intros [?%elem_of_nil ?] | by intros [[? ?] ?]].
Qed.

(** X4: the source hosts of one piggybacked host.  [get_source_hostnames]
    with a host name never raises and leaves the storage as it is; the names
    it returns are exactly the names of the payload files of the host's
    folder that do not start with a dot, each one once (so none when the
    folder is missing). *)
Theorem source_hostnames_of_one_host h fs :
  ∃ names,
    get_source_hostnames (Some h) fs = mkOutcome (inr names) fs [sys_iterdir (HostFolder h)]
    ∧ NoDup names
    ∧ ∀ s, s ∈ names
           ↔ is_Some (lookup_file fs (HostSource h s)) ∧ startswith s "." = false.
Proof.
  exists (name <$> visible_entries fs (HostFolder h)).
  split; [apply get_source_hostnames_of_host|].
  split; [apply visible_names_of_host_NoDup | apply visible_names_of_host_elem].
Qed.

Lemma count_occ_visible_names fs h s :
  startswith s "." = false →
  count_occ String.string_dec (name <$> visible_entries fs (HostFolder h)) s
  = if bool_decide (is_Some (lookup_file fs (HostSource h s))) then 1%nat else 0%nat.
Proof.
  intros Hvis.
  pose proof (visible_names_of_host_NoDup fs h) as Hnodup.
  pose proof (visible_names_of_host_elem fs h s) as Helem.
  apply NoDup_ListNoDup in Hnodup.
  rewrite List.NoDup_count_occ with (decA := String.string_dec) in Hnodup.
  specialize (Hnodup s).
  case_bool_decide as Hsome.
  - assert (s ∈ name <$> visible_entries fs (HostFolder h)) as Hin by (by apply Helem).
    apply list_elem_of_In in Hin.
    rewrite (count_occ_In String.string_dec) in Hin. lia.
  - apply count_occ_not_In. rewrite <- list_elem_of_In, Helem. tauto.
Qed.

Lemma count_occ_all_folders fs s (l : list (string * gmap string File)) :
  startswith s "." = false →
  (∀ h d, (h, d) ∈ l → piggyback_tree fs !! h = Some d) →
  count_occ String.string_dec
    (concat ((λ folder, name <$> visible_entries fs folder)
               <$> List.filter (λ f, negb (startswith (name f) ".")) (HostFolder <$> l.*1))) s
  = length (List.filter
              (λ hd, negb (startswith hd.1 ".") && bool_decide (is_Some (hd.2 !! s))) l).
Proof.
  intros Hvis. induction l as [|[h d] l IH]; intros Hl; [done|].
  cbn [fmap list_fmap fst snd List.filter name].
  assert (piggyback_tree fs !! h = Some d) as Hd by (apply Hl; left).
  specialize (IH (λ h' d' Hin, Hl h' d' (list_elem_of_further _ _ _ Hin))).
  cbn [fmap list_fmap] in IH.
  destruct (startswith h ".") eqn:Hh; cbn [negb andb]; [done|].
  cbn [fmap list_fmap concat]. rewrite count_occ_app, IH.
  fold (@fmap list _ _ _ name (visible_entries fs (HostFolder h))).
  rewrite count_occ_visible_names by done.
  unfold lookup_file. rewrite Hd. cbn [mbind option_bind].
  by case_bool_decide.
Qed.

(** X5: the source hosts of all piggybacked hosts.  [get_source_hostnames]
    without a host name never raises and leaves the storage as it is; a name
    is returned when some folder with a visible name holds a payload file of
    that (visible) name, and it is returned once for every such folder: the
    result is not free of duplicates. *)
Theorem source_hostnames_of_all_hosts fs :
  ∃ names,
    res (get_source_hostnames None fs) = inr names
    ∧ fs_after (get_source_hostnames None fs) = fs
    ∧ (∀ s, s ∈ names
            ↔ ∃ h, startswith h "." = false ∧ startswith s "." = false
                   ∧ is_Some (lookup_file fs (HostSource h s)))
    ∧ (∀ s, startswith s "." = false →
            count_occ String.string_dec names s
            = length (List.filter
                        (λ hd, negb (startswith hd.1 ".")
                               && bool_decide (is_Some (hd.2 !! s)))
                        (map_to_list (piggyback_tree fs)))).
Proof.
  rewrite get_source_hostnames_of_all. cbn [res fs_after].
  eexists. split; [done|]. split; [done|]. split.
  - intros s. rewrite list_elem_of_In, in_concat. split.
    + intros (names & Hnames & Hs).
      apply list_elem_of_In, list_elem_of_fmap in Hnames as (folder & -> & Hfolder).
      pose proof (visible_entries_not_hidden _ _ _ Hfolder) as Hh.
      apply visible_entries_are_entries, dir_entries_are_children in Hfolder as [h ->].
      apply list_elem_of_In, visible_names_of_host_elem in Hs as [Hsome Hvis].
      by exists h.
    + intros (h & Hh & Hvis & [f Hf]).
      exists (name <$> visible_entries fs (HostFolder h)). split.
      * apply list_elem_of_In, list_elem_of_fmap. exists (HostFolder h).
        split; [done|]. by apply (folder_visible fs h s f).
      * apply list_elem_of_In, visible_names_of_host_elem. split; [by eexists|done].
  - intros s Hvis. unfold visible_entries at 2. cbn [dir_entries].
    apply count_occ_all_folders; [done|].
    intros h d Hin. by apply elem_of_map_to_list in Hin.
Qed.

(** ** The readers *)

Lemma list_comp_inspect {A B} (xs : list A) (body : A → M B) (P : A → B → Prop)
  (Q : Exception → Prop) (T : Syscall → Prop) fs :
  (∀ x, x ∈ xs →
     ∃ r t, body x fs = mkOutcome r fs t ∧ Forall T t
            ∧ match r with inl e => Q e | inr y => P x y end) →
  ∃ r t, list_comp xs body fs = mkOutcome r fs t ∧ Forall T t
         ∧ match r with inl e => Q e | inr ys => Forall2 P xs ys end.
Proof.
  induction xs as [|x xs IH]; intros Hbody.
  - exists (inr []), []. by repeat split.
  - destruct (Hbody x) as (r1 & t1 & Hx & HT1 & HP); [left|].
    destruct IH as (r2 & t2 & Hxs & HT2 & HPs); [intros; apply Hbody; by right|].
    cbn [list_comp]. destruct r1 as [e|y].
    { exists (inl e), t1. by erewrite bind_inl by exact Hx. }
    erewrite bind_inr by exact Hx. destruct r2 as [e|ys].
    { exists (inl e), (t1 ++ t2). erewrite bind_inl by exact Hxs.
      split; [done|]. split; [by apply Forall_app|done]. }
    erewrite bind_inr by exact Hxs.
    exists (inr (y :: ys)), (t1 ++ t2 ++ []). split; [done|].
    split; [|by constructor].
    apply Forall_app; split; [done|]. by rewrite app_nil_r.
Qed.

Section ReaderProofs.
Context `{Regex}.

Lemma _TimeSettingsMap_loop_raises sources target rules acc e :
  _TimeSettingsMap_loop sources target rules acc = inl e → ∃ pattern, e = ReError pattern.
Proof.
  revert acc. induction rules as [|[[expr key] value] rest IH]; intros acc; [done|].
  cbn [_TimeSettingsMap_loop].
  destruct (_TimeSettingsMap_register sources target acc (expr, key, value))
    as [e'|acc'] eqn:Hreg; [|by apply IH].
  intros [= <-]. unfold _TimeSettingsMap_register in Hreg.
  destruct expr as [pattern|]; [|done].
  destruct (bool_decide (pattern ∈ sources) || bool_decide (pattern = target)); [done|].
  destruct (startswith pattern "~"); [|done].
  destruct (re_match (str_tail pattern) target) as [[]|]; [done|done|].
  injection Hreg as <-. by eexists.
Qed.

Lemma _TimeSettingsMap_init_raises sources target rules e :
  _TimeSettingsMap_init sources target rules = inl e → ∃ pattern, e = ReError pattern.
Proof.
  unfold _TimeSettingsMap_init.
  destruct (_TimeSettingsMap_loop sources target rules ∅) as [e'|m] eqn:Hloop; [|done].
  intros [= <-]. by apply _TimeSettingsMap_loop_raises in Hloop.
Qed.

Lemma _get_piggyback_processed_file_infos_raises now piggybacked_hostname time_settings fs :
  ∃ r t,
    _get_piggyback_processed_file_infos now piggybacked_hostname time_settings fs
    = mkOutcome r fs t
    ∧ Forall (λ c, reads_only c = true) t
    ∧ match _TimeSettingsMap_init
              (name <$> visible_entries fs (HostFolder piggybacked_hostname))
              piggybacked_hostname time_settings with
      | inl e => r = inl e
      | inr settings =>
          match r with
          | inl e =>
              e = KeyError (None, "max_cache_age")
              ∧ ∃ s, s ∈ name <$> visible_entries fs (HostFolder piggybacked_hostname)
                     ∧ max_cache_age settings s piggybacked_hostname = inl e
          | inr file_infos =>
              Forall2 (record_of now settings piggybacked_hostname fs)
                (name <$> visible_entries fs (HostFolder piggybacked_hostname)) file_infos
          end
      end.
Proof.
  unfold _get_piggyback_processed_file_infos.
  erewrite bind_inr by apply get_source_hostnames_of_host.
  destruct (_TimeSettingsMap_init _ piggybacked_hostname time_settings)
    as [e|settings] eqn:Hinit.
  { cbn [lift]. erewrite bind_inl by reflexivity.
    eexists _, _. split; [done|]. split; [|done]. by repeat constructor. }
  cbn [lift]. erewrite bind_inr by reflexivity.
  destruct (list_comp_inspect
              (name <$> visible_entries fs (HostFolder piggybacked_hostname))
              (λ source_hostname,
                 _get_piggyback_processed_file_info now source_hostname
                   piggybacked_hostname
                   (_get_piggybacked_file_path source_hostname piggybacked_hostname)
                   settings)
              (record_of now settings piggybacked_hostname fs)
              (λ e, e = KeyError (None, "max_cache_age")
                    ∧ ∃ s, s ∈ name <$> visible_entries fs (HostFolder piggybacked_hostname)
                           ∧ max_cache_age settings s piggybacked_hostname = inl e)
              (λ c, reads_only c = true)
              fs) as (r & t & Hrun & Ht & Hr).
  { intros s Hs. pose proof Hs as Hlisted.
    apply visible_names_of_host_elem in Hs as [[f Hf] Hvis].
    destruct (_get_piggyback_processed_file_info_outcome now s piggybacked_hostname
                (_get_piggybacked_file_path s piggybacked_hostname) settings fs)
      as (r & t & Hrun & Ht & Hr).
    exists r, t. split; [done|]. split.
    { eapply Forall_impl; [exact Ht|]. by intros c [q ->]. }
    change (_get_piggybacked_file_path s piggybacked_hostname)
      with (HostSource piggybacked_hostname s) in Hr.
    rewrite Hf in Hr.
    destruct (max_cache_age settings s piggybacked_hostname) as [e|allowed] eqn:Hallowed.
    - subst r. split; [by apply _match_raises in Hallowed|by exists s].
    - destruct Hr as (i & -> & Hsrc & Hpath & Hmsg & Hverdict).
      repeat split; try done. by exists f, allowed. }
  rewrite Hrun. eexists _, _. split; [done|]. split; [|exact Hr].
  cbn [trace app]. by constructor.
Qed.

Lemma _get_piggyback_processed_file_infos_outcome now piggybacked_hostname time_settings fs :
  ∃ r t,
    _get_piggyback_processed_file_infos now piggybacked_hostname time_settings fs
    = mkOutcome r fs t
    ∧ Forall (λ c, reads_only c = true) t
    ∧ match _TimeSettingsMap_init
              (name <$> visible_entries fs (HostFolder piggybacked_hostname))
              piggybacked_hostname time_settings with
      | inl e => r = inl e
      | inr settings =>
          match r with
          | inl e => e = KeyError (None, "max_cache_age")
          | inr file_infos =>
              Forall2 (record_of now settings piggybacked_hostname fs)
                (name <$> visible_entries fs (HostFolder piggybacked_hostname)) file_infos
          end
      end.
Proof.
  destruct (_get_piggyback_processed_file_infos_raises now piggybacked_hostname
              time_settings fs) as (r & t & Hrun & Ht & Hr).
  exists r, t. split; [done|]. split; [done|].
  destruct (_TimeSettingsMap_init _ piggybacked_hostname time_settings); [done|].
  destruct r; [by destruct Hr|done].
Qed.

Lemma Forall2_record_sources now settings h fs names file_infos :
  Forall2 (record_of now settings h fs) names file_infos →
  source <$> file_infos = names ∧ file_path <$> file_infos = HostSource h <$> names.
Proof.
  induction 1 as [|s i names infos (Hsrc & Hpath & _) _ [IH1 IH2]]; [done|].
  cbn [fmap list_fmap] in *. by rewrite Hsrc, Hpath, IH1, IH2.
Qed.

(** X6: the inspector of one piggybacked host.  It leaves the storage as it
    is and makes no call that writes.  When it returns, it returns one record for
    every payload file of the host's folder whose name does not start with a
    dot, in the order of the listing, each with its source and its path.
    When it raises, it raises the [re.error] of a rule or the [KeyError] of a
    [max_cache_age] that does not resolve. *)
Theorem file_infos_one_per_source now piggybacked_hostname time_settings fs :
  let o := _get_piggyback_processed_file_infos now piggybacked_hostname time_settings fs in
  fs_after o = fs
  ∧ Forall (λ c, reads_only c = true) (trace o)
  ∧ match res o with
    | inr file_infos =>
        source <$> file_infos = name <$> visible_entries fs (HostFolder piggybacked_hostname)
        ∧ file_path <$> file_infos
          = HostSource piggybacked_hostname
              <$> (name <$> visible_entries fs (HostFolder piggybacked_hostname))
    | inl e => e = KeyError (None, "max_cache_age") ∨ ∃ pattern, e = ReError pattern
    end.
Proof.
  intros o.
  destruct (_get_piggyback_processed_file_infos_outcome now piggybacked_hostname
              time_settings fs) as (r & t & Hrun & Ht & Hr).
  subst o. rewrite Hrun. cbn [res fs_after trace]. split; [done|]. split; [done|].
  destruct (_TimeSettingsMap_init _ piggybacked_hostname time_settings)
    as [e|settings] eqn:Hinit.
  - subst r. right. by apply _TimeSettingsMap_init_raises in Hinit.
  - destruct r as [e|file_infos]; [by left|].
    by apply Forall2_record_sources in Hr.
Qed.

Lemma verdict_valid now settings source_hostname piggybacked_hostname allowed fs f :
  (verdict now settings source_hostname piggybacked_hostname allowed fs f).1 = true
  ↔ float_gt_Z (file_age now f) allowed = false
    ∧ (abandoned_whole_seconds fs source_hostname f = false
       ∨ still_valid settings source_hostname piggybacked_hostname (file_age now f)
         = true).
Proof.
  unfold verdict.
  destruct (float_gt_Z (file_age now f) allowed) eqn:Hold.
  { cbn. split; [done|]. by intros [? _]. }
  destruct (abandoned_whole_seconds fs source_hostname f);
    [destruct (still_valid settings source_hostname piggybacked_hostname _)|];
    cbn; intuition congruence.
Qed.

Lemma record_of_valid now settings h fs file_infos :
  Forall2 (record_of now settings h fs)
    (name <$> visible_entries fs (HostFolder h)) file_infos →
  ∀ s, (∃ i, i ∈ file_infos ∧ valid i = true ∧ source i = s)
       ↔ startswith s "." = false
         ∧ ∃ f, lookup_file fs (HostSource h s) = Some f ∧ usable now settings s h fs f.
Proof.
  intros Hall s. split.
  - intros (i & Hi & Hvalid & <-).
    destruct (Forall2_elem_of_r _ _ _ _ Hall Hi)
      as (s & Hs & Hsrc & _ & _ & f & allowed & Hf & Hallowed & Hverdict).
    subst s. apply visible_names_of_host_elem in Hs as [_ Hvis].
    split; [done|]. exists f. split; [done|]. exists allowed. split; [done|].
    apply (verdict_valid now settings (source i) h allowed fs f).
    by rewrite <- Hverdict.
  - intros (Hvis & f & Hf & allowed & Hallowed & Husable).
    assert (s ∈ name <$> visible_entries fs (HostFolder h)) as Hs.
    { apply visible_names_of_host_elem. split; [by eexists|done]. }
    destruct (Forall2_elem_of_l _ _ _ _ Hall Hs)
      as (i & Hi & Hsrc & _ & _ & f' & allowed' & Hf' & Hallowed' & Hverdict).
    exists i. split; [done|]. split; [|done].
    rewrite Hf in Hf'. injection Hf' as <-.
    rewrite Hallowed in Hallowed'. injection Hallowed' as <-.
    apply (verdict_valid now settings s h allowed fs f) in Husable.
    by rewrite <- Hverdict in Husable.
Qed.

(** X7: [has_piggyback_raw_data] in terms of the storage.  The [re.error]
    of a rule is passed on.  Otherwise, with the settings the rules give for
    the host and the source hosts listed: the [KeyError] of [max_cache_age]
    is raised exactly when the host's folder holds a payload file, of a name
    that does not start with a dot, whose [max_cache_age] does not resolve,
    also when another payload file is valid; and when every such file has a
    [max_cache_age] that resolves, the answer is [True] exactly when one of
    them passes the inspector: the test [file_age > max_cache_age] on the
    float age fails, and the pair is not abandoned or still within its
    validity period. *)
Theorem has_piggyback_raw_data_iff now piggybacked_hostname time_settings fs :
  let names := name <$> visible_entries fs (HostFolder piggybacked_hostname) in
  match _TimeSettingsMap_init names piggybacked_hostname time_settings,
        res (has_piggyback_raw_data now piggybacked_hostname time_settings fs) with
  | inl e, r => r = inl e
  | inr settings, inl e =>
      e = KeyError (None, "max_cache_age")
      ∧ ∃ s, s ∈ names ∧ max_cache_age settings s piggybacked_hostname = inl e
  | inr settings, inr b =>
      (∀ s, s ∈ names →
            ∃ allowed, max_cache_age settings s piggybacked_hostname = inr allowed)
      ∧ (b = true
         ↔ ∃ s f, startswith s "." = false
                  ∧ lookup_file fs (HostSource piggybacked_hostname s) = Some f
                  ∧ usable now settings s piggybacked_hostname fs f)
  end.
Proof.
  intros names. subst names.
  destruct (_get_piggyback_processed_file_infos_raises now piggybacked_hostname
              time_settings fs) as (r & t & Hrun & _ & Hr).
  unfold has_piggyback_raw_data.
  destruct (_TimeSettingsMap_init _ piggybacked_hostname time_settings) as [e|settings].
  { subst r. by erewrite bind_inl by exact Hrun. }
  destruct r as [e|file_infos].
  { by erewrite bind_inl by exact Hrun. }
  erewrite bind_inr by exact Hrun. cbn [after ret res].
  split.
  { intros s Hs. destruct (Forall2_elem_of_l _ _ _ _ Hr Hs)
      as (i & _ & _ & _ & _ & f & allowed & _ & Hallowed & _).
    by exists allowed. }
  pose proof (record_of_valid _ _ _ _ _ Hr) as Hvalid.
  rewrite existsb_exists. split.
  - intros (i & Hi%list_elem_of_In & Hv).
    destruct (proj1 (Hvalid (source i))) as (Hvis & f & Hf & Husable); [by exists i|].
    by exists (source i), f.
  - intros (s & f & Hvis & Hf & Husable).
    destruct (proj2 (Hvalid s)) as (i & Hi & Hv & _); [split; [done|by exists f]|].
    exists i. split; [by apply list_elem_of_In|done].
Qed.

(** The accessor entry of a record whose payload file is there. *)
Lemma raw_data_entry_of_record now settings h fs s i :
  record_of now settings h fs s i →
  ∃ f, lookup_file fs (HostSource h s) = Some f
       ∧ raw_data_entry_of fs i = mkPiggybackRawDataInfo i (contents f).
Proof.
  intros (_ & Hpath & _ & f & _ & Hf & _). exists f. split; [done|].
  unfold raw_data_entry_of. by rewrite Hpath, Hf.
Qed.

(** X8: the accessor run on its own.  For a host name that is not empty the
    accessor leaves the storage as it is and makes no call that writes.
    When it returns, it returns one entry for every payload file of the
    host's folder whose name does not start with a dot, in the order of the
    listing; no entry is degraded: each holds the whole content of its file
    and the record of the inspector, so [has_piggyback_raw_data] returns
    whether some entry is valid.  When one of the two raises, the other
    raises the same exception. *)
Theorem accessor_alone_reads_every_payload now piggybacked_hostname time_settings fs :
  not_hostname (Some piggybacked_hostname) = false →
  let o := get_piggyback_raw_data now (Some piggybacked_hostname) time_settings fs in
  fs_after o = fs
  ∧ Forall (λ c, reads_only c = true) (trace o)
  ∧ match res o with
    | inr entries =>
        Forall2
          (λ s entry,
             source (info entry) = s
             ∧ file_path (info entry) = HostSource piggybacked_hostname s
             ∧ ∃ f, lookup_file fs (HostSource piggybacked_hostname s) = Some f
                    ∧ raw_data entry = contents f)
          (name <$> visible_entries fs (HostFolder piggybacked_hostname)) entries
        ∧ res (has_piggyback_raw_data now piggybacked_hostname time_settings fs)
          = inr (existsb (λ entry, valid (info entry)) entries)
    | inl e =>
        res (has_piggyback_raw_data now piggybacked_hostname time_settings fs) = inl e
    end.
Proof.
  intros Hnot o.
  destruct (_get_piggyback_processed_file_infos_outcome now piggybacked_hostname
              time_settings fs) as (r & t & Hrun & Ht & Hr).
  subst o. unfold has_piggyback_raw_data.
  destruct r as [e|file_infos].
  { unfold get_piggyback_raw_data. rewrite Hnot.
    erewrite !bind_inl by exact Hrun. by cbn [res fs_after trace]. }
  rewrite (get_piggyback_raw_data_run _ _ _ _ _ _ _ Hnot Hrun).
  erewrite bind_inr by exact Hrun. cbn [after ret res fs_after trace].
  destruct (_TimeSettingsMap_init _ piggybacked_hostname time_settings)
    as [e|settings]; [done|].
  split; [done|]. split.
  { apply Forall_app. split; [done|]. apply Forall_fmap, Forall_true. by intros i. }
  split.
  - apply Forall2_fmap_r. eapply Forall2_impl; [exact Hr|].
    intros s i Hrec. pose proof Hrec as (Hsrc & Hpath & _). unfold compose. cbv beta.
    destruct (raw_data_entry_of_record _ _ _ _ _ _ Hrec) as (f & Hf & ->).
    cbn [info raw_data]. split; [done|]. split; [done|]. by exists f.
  - f_equal. clear Hrun. induction Hr as [|s i names infos Hrec _ IH]; [done|].
    cbn [fmap list_fmap existsb]. cbn [fmap] in IH. rewrite <- IH. f_equal.
    by destruct (raw_data_entry_of_record _ _ _ _ _ _ Hrec) as (f & Hf & ->).
Qed.

(** The pairs the generator yields for one folder. *)
Lemma get_source_and_piggyback_hosts_folder now time_settings h fs :
  ∃ r t,
    (file_infos <- _get_piggyback_processed_file_infos now h time_settings ;;
     ret ((λ file_info, (source file_info, h)) <$> List.filter valid file_infos)) fs
    = mkOutcome r fs t
    ∧ Forall (λ c, reads_only c = true) t
    ∧ match r with
      | inl e => e = KeyError (None, "max_cache_age") ∨ ∃ pattern, e = ReError pattern
      | inr pairs =>
          ∀ s h', (s, h') ∈ pairs
                  ↔ h' = h ∧ startswith s "." = false
                    ∧ ∃ f settings,
                        lookup_file fs (HostSource h s) = Some f
                        ∧ _TimeSettingsMap_init (name <$> visible_entries fs (HostFolder h))
                            h time_settings = inr settings
                        ∧ usable now settings s h fs f
      end.
Proof.
  destruct (_get_piggyback_processed_file_infos_outcome now h time_settings fs)
    as (r & t & Hrun & Ht & Hr).
  destruct (_TimeSettingsMap_init _ h time_settings) as [e|settings] eqn:Hinit.
  { subst r. erewrite bind_inl by exact Hrun. eexists _, _. split; [done|].
    split; [done|]. right. by apply _TimeSettingsMap_init_raises in Hinit. }
  destruct r as [e|file_infos].
  { erewrite bind_inl by exact Hrun. eexists _, _. split; [done|]. split; [done|]. by left. }
  erewrite bind_inr by exact Hrun. eexists _, _. split; [done|].
  cbn [trace]. rewrite app_nil_r. split; [done|].
  pose proof (record_of_valid _ _ _ _ _ Hr) as Hvalid.
  intros s h'. rewrite list_elem_of_fmap. split.
  - intros (i & [= -> ->] & Hi). apply list_elem_of_In, filter_In in Hi as [Hi Hv].
    destruct (proj1 (Hvalid (source i))) as (Hvis & f & Hf & Husable).
    { exists i. by rewrite list_elem_of_In. }
    split; [done|]. split; [done|]. by exists f, settings.
  - intros (-> & Hvis & f & settings' & Hf & [= <-] & Husable).
    destruct (proj2 (Hvalid s)) as (i & Hi & Hv & <-); [split; [done|by exists f]|].
    exists i. split; [done|]. apply list_elem_of_In, filter_In.
    by rewrite <- list_elem_of_In.
Qed.

(** X9: the pairs with up-to-date data.  [get_source_and_piggyback_hosts]
    leaves the storage as it is and makes no call that writes.  Consumed to its
    end it yields the pair of a source host and a piggybacked host exactly
    when neither name starts with a dot and the host's folder holds a payload
    file of the source that is valid under the settings of that host: the
    test [file_age > max_cache_age] on the float age fails, and the pair is
    not abandoned or still within its validity period.  It raises nothing but the [re.error] of a rule and the
    [KeyError] of a [max_cache_age] that does not resolve. *)
Theorem source_and_piggyback_hosts_iff now time_settings fs :
  let o := get_source_and_piggyback_hosts now time_settings fs in
  fs_after o = fs
  ∧ Forall (λ c, reads_only c = true) (trace o)
  ∧ match res o with
    | inl e => e = KeyError (None, "max_cache_age") ∨ ∃ pattern, e = ReError pattern
    | inr pairs =>
        ∀ s h, (s, h) ∈ pairs
               ↔ startswith h "." = false ∧ startswith s "." = false
                 ∧ ∃ f settings,
                     lookup_file fs (HostSource h s) = Some f
                     ∧ _TimeSettingsMap_init (name <$> visible_entries fs (HostFolder h))
                         h time_settings = inr settings
                     ∧ usable now settings s h fs f
    end.
Proof.
  intros o. subst o. unfold get_source_and_piggyback_hosts, _get_piggybacked_host_folders.
  erewrite bind_inr by (by apply _files_in_dir).
  destruct (list_comp_inspect (visible_entries fs PiggybackDir)
              (λ piggybacked_host_folder,
                 file_infos <- _get_piggyback_processed_file_infos now
                                 (name piggybacked_host_folder) time_settings ;;
                 ret ((λ file_info, (source file_info, name piggybacked_host_folder))
                        <$> List.filter valid file_infos))
              (λ folder pairs,
                 ∀ s h', (s, h') ∈ pairs
                         ↔ h' = name folder ∧ startswith s "." = false
                           ∧ ∃ f settings,
                               lookup_file fs (HostSource (name folder) s) = Some f
                               ∧ _TimeSettingsMap_init
                                   (name <$> visible_entries fs (HostFolder (name folder)))
                                   (name folder) time_settings = inr settings
                               ∧ usable now settings s (name folder) fs f)
              (λ e, e = KeyError (None, "max_cache_age") ∨ ∃ pattern, e = ReError pattern)
              (λ c, reads_only c = true) fs) as (r & t & Hrun & Ht & Hr).
  { intros folder _. apply get_source_and_piggyback_hosts_folder. }
  destruct r as [e|per_folder].
  { erewrite bind_inl by exact Hrun. cbn [after res fs_after trace app].
    split; [done|]. split; [by constructor|done]. }
  erewrite bind_inr by exact Hrun. cbn [after ret res fs_after trace app].
  split; [done|]. split; [constructor; [done|by rewrite app_nil_r]|].
  intros s h. rewrite list_elem_of_In, in_concat. split.
  - intros (pairs & Hpairs%list_elem_of_In & Hin%list_elem_of_In).
    destruct (Forall2_elem_of_r _ _ _ _ Hr Hpairs) as (folder & Hfolder & Hfold).
    destruct (proj1 (Hfold s h) Hin) as (Hh & Hvis & Hrest). subst h.
    split; [by apply (visible_entries_not_hidden fs PiggybackDir)|done].
  - intros (Hh & Hvis & f & settings & Hf & Hinit & Husable).
    destruct (Forall2_elem_of_l _ _ _ _ Hr (folder_visible fs h s f Hf Hh))
      as (pairs & Hpairs & Hfold).
    exists pairs. rewrite <- !list_elem_of_In. split; [done|].
    apply Hfold. cbn [name]. split; [done|]. split; [done|]. by exists f, settings.
Qed.

End ReaderProofs.

(** The [KeyError] is raised although another payload file is valid: the
    rules resolve [max_cache_age] for the pair of [srv1], whose record is
    valid, and not for the pair of [srv2]. *)
Example has_piggyback_raw_data_raises :
  res (@has_piggyback_raw_data literal_regex (seconds 200) "host1" rules_srv1_only
         fs_two_sources)
  = inl (KeyError (None, "max_cache_age"))
  ∧ match @_TimeSettingsMap_init literal_regex ["srv1"; "srv2"] "host1" rules_srv1_only with
    | inr settings =>
        max_cache_age settings "srv2" "host1" = inl (KeyError (None, "max_cache_age"))
        ∧ match res (_get_piggyback_processed_file_info (seconds 200) "srv1" "host1"
                       (_get_piggybacked_file_path "srv1" "host1") settings
                       fs_two_sources) with
          | inr i => valid i = true
          | inl _ => False
          end
    | inl _ => False
    end.
Proof. split; [|split]; vm_compute; reflexivity. Qed.

Lemma accessor_alone_reads_every_payload_witness :
  res (@has_piggyback_raw_data literal_regex (seconds 600) "host1" example_rules
         fs_no_status)
  = inr false.
Proof.
  pose proof (@accessor_alone_reads_every_payload literal_regex (seconds 600) "host1"
                example_rules fs_no_status eq_refl) as Hall.
  cbv zeta in Hall. destruct Hall as (_ & _ & Hres).
  destruct (res (@get_piggyback_raw_data literal_regex (seconds 600) (Some "host1")
                   example_rules fs_no_status)) as [e|entries] eqn:Hentries;
    vm_compute in Hentries; [discriminate Hentries|].
  injection Hentries as <-. exact (proj2 Hres).
Defined.

(** ** Time settings: rules that fail *)

Section TimeSettingsErrors.
Context `{Regex}.

Lemma _TimeSettingsMap_register_fails sources target acc rule :
  match _TimeSettingsMap_register sources target acc rule with
  | inl e => pattern_fails sources target rule = true
             ∧ ∃ expr key value, rule = (Some expr, key, value) ∧ e = ReError (str_tail expr)
  | inr _ => pattern_fails sources target rule = false
  end.
Proof.
  destruct rule as [[[e|] key] value]; [|done].
  unfold _TimeSettingsMap_register, pattern_fails.
  destruct (bool_decide (e ∈ sources) || bool_decide (e = target)); [done|].
  destruct (startswith e "~"); [|done]. cbn [negb andb].
  destruct (re_match (str_tail e) target) as [[]|]; [done|done|].
  split; [done|]. by exists e, key, value.
Qed.

Lemma _TimeSettingsMap_loop_fails sources target rules acc :
  match _TimeSettingsMap_loop sources target rules acc with
  | inr _ => Forall (λ rule, pattern_fails sources target rule = false) rules
  | inl e =>
      ∃ before expr key value rest,
        rules = before ++ (Some expr, key, value) :: rest
        ∧ Forall (λ rule, pattern_fails sources target rule = false) before
        ∧ pattern_fails sources target (Some expr, key, value) = true
        ∧ e = ReError (str_tail expr)
  end.
Proof.
  revert acc. induction rules as [|rule rest IH]; intros acc; [by constructor|].
  cbn [_TimeSettingsMap_loop].
  pose proof (_TimeSettingsMap_register_fails sources target acc rule) as Hreg.
  destruct (_TimeSettingsMap_register sources target acc rule) as [e|acc'].
  - destruct Hreg as (Hfails & expr & key & value & -> & ->).
    by exists [], expr, key, value, rest.
  - specialize (IH acc').
    destruct (_TimeSettingsMap_loop sources target rest acc') as [e|m].
    + destruct IH as (before & expr & key & value & rest' & -> & Hbefore & Hfails & ->).
      exists (rule :: before), expr, key, value, rest'.
      split; [done|]. split; [by constructor|done].
    + by constructor.
Qed.

(** X10: when the time settings cannot be built.  [_TimeSettingsMap.__init__]
    returns exactly when no rule reaches the regex test with a pattern that
    does not compile; otherwise it raises the [re.error] of the first such
    rule.  A rule whose expression is the name of a known source or of the
    piggybacked host never reaches the test, whatever its first character. *)
Theorem time_settings_fail_at_first_bad_pattern sources target rules :
  match _TimeSettingsMap_init sources target rules with
  | inr _ => Forall (λ rule, pattern_fails sources target rule = false) rules
  | inl e =>
      ∃ before expr key value rest,
        rules = before ++ (Some expr, key, value) :: rest
        ∧ Forall (λ rule, pattern_fails sources target rule = false) before
        ∧ pattern_fails sources target (Some expr, key, value) = true
        ∧ (expr ∉ sources) ∧ expr ≠ target
        ∧ e = ReError (str_tail expr)
  end.
Proof.
  unfold _TimeSettingsMap_init.
  pose proof (_TimeSettingsMap_loop_fails sources target rules ∅) as Hloop.
  destruct (_TimeSettingsMap_loop sources target rules ∅) as [e|m]; [|done].
  destruct Hloop as (before & expr & key & value & rest & -> & Hbefore & Hfails & ->).
  exists before, expr, key, value, rest. repeat split; try done.
  - intros Hin. unfold pattern_fails in Hfails.
    by rewrite (bool_decide_eq_true_2 _ Hin) in Hfails.
  - intros ->. unfold pattern_fails in Hfails.
    rewrite (bool_decide_eq_true_2 (target = target)) in Hfails by done.
    by rewrite orb_true_r in Hfails.
Qed.

End TimeSettingsErrors.

(** ** The writer, then the inspector *)

Lemma inspector_verdict now source_hostname piggybacked_hostname settings allowed fs f :
  lookup_file fs (HostSource piggybacked_hostname source_hostname) = Some f →
  max_cache_age settings source_hostname piggybacked_hostname = inr allowed →
  ∃ i, res (_get_piggyback_processed_file_info now source_hostname piggybacked_hostname
              (_get_piggybacked_file_path source_hostname piggybacked_hostname) settings fs)
       = inr i
       ∧ (valid i, status i)
         = verdict now settings source_hostname piggybacked_hostname allowed fs f.
Proof.
  intros Hf Hallowed.
  destruct (_get_piggyback_processed_file_info_outcome now source_hostname
              piggybacked_hostname
              (_get_piggybacked_file_path source_hostname piggybacked_hostname)
              settings fs) as (r & t & Hrun & _ & Hr).
  change (_get_piggybacked_file_path source_hostname piggybacked_hostname)
    with (HostSource piggybacked_hostname source_hostname) in *.
  rewrite Hf, Hallowed in Hr. destruct Hr as (i & -> & _ & _ & _ & Hverdict).
  exists i. by rewrite Hrun.
Qed.

(** X11: data just written.  After a source has written a batch that holds
    a piggybacked host, the payload file's times are what [os.utime] makes
    of the floats of the status file's times.  The inspector then builds its
    record from the float age [time.time() - st_mtime] of that file: when
    the way through the float keeps the whole second of the timestamp, the
    pair is not taken as abandoned, and the record is valid with status 0
    exactly when the test [file_age > max_cache_age] fails, whatever the
    validity settings are; when it does not, the pair is taken as abandoned
    and the validity settings decide. *)
Theorem fresh_payload_is_valid written created suffix source_hostname batch
  piggybacked_hostname now settings allowed fs :
  piggybacked_hostname ∈ batch.*1 →
  lookup_file fs (SourceState (tmp_status_name source_hostname suffix)) = None →
  max_cache_age settings source_hostname piggybacked_hostname = inr allowed →
  let age := (time_time now - st_time (utime_round_trip created))%float in
  ∃ i,
    res (_get_piggyback_processed_file_info now source_hostname piggybacked_hostname
           (_get_piggybacked_file_path source_hostname piggybacked_hostname) settings
           (fs_after (store_piggyback_raw_data written created suffix source_hostname
                        batch fs)))
    = inr i
    ∧ (valid i, status i)
      = (if float_gt_Z age allowed then (false, 0)
         else if whole_second_kept created then (true, 0)
         else if still_valid settings source_hostname piggybacked_hostname age
         then (true, validity_state settings source_hostname piggybacked_hostname)
         else (false, 0))
    ∧ (whole_second_kept created = true →
       valid i = negb (float_gt_Z age allowed) ∧ status i = 0).
Proof.
  intros Hmem Hfresh Hallowed age.
  assert (Hne : batch ≠ []) by (by destruct batch; [apply elem_of_nil in Hmem|]).
  destruct (store_piggyback_raw_data_run written created suffix source_hostname
              batch fs Hne Hfresh) as (fs' & Hrun & Hstatus & _ & Hin & _).
  rewrite Hrun. cbn [fs_after].
  destruct (Hin _ Hmem) as (lines & _ & Hfile).
  destruct (inspector_verdict now _ _ _ _ _ _ Hfile Hallowed) as (i & Hi & Hverdict).
  exists i. split; [done|].
  unfold verdict, abandoned_whole_seconds in Hverdict.
  rewrite Hstatus in Hverdict.
  change (file_age now (mkFile (payload_bytes lines) (utime_round_trip created)
                          (utime_round_trip created))) with age in Hverdict.
  change (stat_8 (mkFile (payload_bytes lines) (utime_round_trip created)
                    (utime_round_trip created)) <? stat_8 (mkFile [] created created))
    with (utime_round_trip created / ns_per_s <? created / ns_per_s) in Hverdict.
  rewrite Z.ltb_antisym in Hverdict.
  change (created / ns_per_s <=? utime_round_trip created / ns_per_s)
    with (whole_second_kept created) in Hverdict.
  split; [by destruct (float_gt_Z age allowed), (whole_second_kept created)|].
  intros Hkept. rewrite Hkept in Hverdict.
  destruct (float_gt_Z age allowed); by injection Hverdict as -> ->.
Qed.

Lemma fresh_payload_is_valid_witness :
  ∃ i,
    res (_get_piggyback_processed_file_info (seconds 4000) "srv1" "host1"
           (_get_piggybacked_file_path "srv1" "host1") settings_with_validity
           (fs_after (store_piggyback_raw_data (seconds 499) (seconds 500) "abcd1234" "srv1"
                        example_batch fs_no_status)))
    = inr i
    ∧ valid i = true ∧ status i = 0.
Proof.
  destruct (fresh_payload_is_valid (seconds 499) (seconds 500) "abcd1234" "srv1"
              example_batch "host1" (seconds 4000) settings_with_validity 3600 fs_no_status)
    as (i & Hi & _ & Hkept); [cbn; left | reflexivity | reflexivity |].
  exists i. split; [exact Hi|]. apply Hkept. vm_compute. reflexivity.
Defined.

(** X12: a host left out of the next batch.  A payload file of a source is
    there, and the source writes a batch, not empty, that does not hold the
    file's host.  The file keeps its content and times, and the inspector
    then takes the pair as abandoned exactly when the file was modified in
    an earlier whole second than the batch was written: when the test
    [file_age > max_cache_age] on the float age fails, the record is valid
    with the resolved [validity_state] while the validity period lasts and
    invalid after it, and in the same whole second it is valid with
    status 0. *)
Theorem payload_left_out_of_the_next_batch written created suffix source_hostname batch
  piggybacked_hostname now settings allowed fs f :
  lookup_file fs (HostSource piggybacked_hostname source_hostname) = Some f →
  batch ≠ [] →
  piggybacked_hostname ∉ batch.*1 →
  lookup_file fs (SourceState (tmp_status_name source_hostname suffix)) = None →
  max_cache_age settings source_hostname piggybacked_hostname = inr allowed →
  let fs' := fs_after (store_piggyback_raw_data written created suffix source_hostname
                         batch fs) in
  lookup_file fs' (HostSource piggybacked_hostname source_hostname) = Some f
  ∧ ∃ i,
      res (_get_piggyback_processed_file_info now source_hostname piggybacked_hostname
             (_get_piggybacked_file_path source_hostname piggybacked_hostname) settings fs')
      = inr i
      ∧ (valid i, status i)
        = if float_gt_Z (file_age now f) allowed then (false, 0)
          else if stat_8 f <? created / ns_per_s then
            if still_valid settings source_hostname piggybacked_hostname
                 (file_age now f)
            then (true, validity_state settings source_hostname piggybacked_hostname)
            else (false, 0)
          else (true, 0).
Proof.
  intros Hf Hne Hout Hfresh Hallowed fs'. subst fs'.
  destruct (store_piggyback_raw_data_run written created suffix source_hostname
              batch fs Hne Hfresh) as (fs' & Hrun & Hstatus & _ & _ & Hframe).
  rewrite Hrun. cbn [fs_after].
  assert (Hkept : lookup_file fs' (HostSource piggybacked_hostname source_hostname) = Some f).
  { rewrite Hframe; [done|done|done|].
    intros ([h lines] & [= ->] & Hitem)%list_elem_of_fmap.
    apply Hout, list_elem_of_fmap. by exists (h, lines). }
  split; [done|].
  destruct (inspector_verdict now _ _ _ _ _ _ Hkept Hallowed) as (i & Hi & Hverdict).
  exists i. split; [done|].
  unfold verdict, abandoned_whole_seconds in Hverdict. by rewrite Hstatus in Hverdict.
Qed.

Lemma payload_left_out_of_the_next_batch_witness :
  let fs' := fs_after (store_piggyback_raw_data (seconds 499) (seconds 500) "abcd1234" "srv1"
                         [("host2", [[x64]])] fs_no_status) in
  lookup_file fs' (HostSource "host1" "srv1") = Some payload_100_2
  ∧ ∃ i,
      res (_get_piggyback_processed_file_info (seconds 600) "srv1" "host1"
             (_get_piggybacked_file_path "srv1" "host1") settings_with_validity fs')
      = inr i
      ∧ (valid i, status i)
        = if float_gt_Z (file_age (seconds 600) payload_100_2) 3600 then (false, 0)
          else if stat_8 payload_100_2 <? seconds 500 / ns_per_s then
            if still_valid settings_with_validity "srv1" "host1"
                 (file_age (seconds 600) payload_100_2)
            then (true, validity_state settings_with_validity "srv1" "host1")
            else (false, 0)
          else (true, 0).
Proof.
  apply (payload_left_out_of_the_next_batch (seconds 499) (seconds 500) "abcd1234" "srv1"
           [("host2", [[x64]])] "host1" (seconds 600) settings_with_validity 3600
           fs_no_status payload_100_2);
    [reflexivity | discriminate | | reflexivity | reflexivity].
  cbn. intros Hin. apply list_elem_of_singleton in Hin. discriminate Hin.
Defined.

(** X13: a source that reports without data.  After the writer was called
    with an empty batch, every payload file of the source, under whatever
    host, is taken as abandoned by the inspector: when the test
    [file_age > max_cache_age] on the float age fails, its record is valid
    with the resolved [validity_state] while the validity period lasts, and
    invalid when no validity period resolves or it is over. *)
Theorem payload_after_an_empty_batch written created suffix source_hostname
  piggybacked_hostname now settings allowed fs f :
  lookup_file fs (HostSource piggybacked_hostname source_hostname) = Some f →
  max_cache_age settings source_hostname piggybacked_hostname = inr allowed →
  ∃ i,
    res (_get_piggyback_processed_file_info now source_hostname piggybacked_hostname
           (_get_piggybacked_file_path source_hostname piggybacked_hostname) settings
           (fs_after (store_piggyback_raw_data written created suffix source_hostname []
                        fs)))
    = inr i
    ∧ (valid i, status i)
      = if float_gt_Z (file_age now f) allowed then (false, 0)
        else if still_valid settings source_hostname piggybacked_hostname
                  (file_age now f)
        then (true, validity_state settings source_hostname piggybacked_hostname)
        else (false, 0).
Proof.
  intros Hf Hallowed.
  unfold store_piggyback_raw_data, remove_source_status_file.
  erewrite bind_inr by apply _remove_piggyback_file_run.
  cbn [after ret fs_after].
  set (fs' := remove_file (_get_source_status_file_path source_hostname) fs).
  assert (Hkept : lookup_file fs' (HostSource piggybacked_hostname source_hostname) = Some f).
  { unfold fs'. by rewrite lookup_remove_file_ne. }
  destruct (inspector_verdict now _ _ _ _ _ _ Hkept Hallowed) as (i & Hi & Hverdict).
  exists i. split; [done|].
  unfold verdict, abandoned_whole_seconds in Hverdict.
  unfold fs' in Hverdict at 1. by rewrite lookup_remove_file_eq in Hverdict.
Qed.

Lemma payload_after_an_empty_batch_witness :
  ∃ i,
    res (_get_piggyback_processed_file_info (seconds 600) "srv1" "host1"
           (_get_piggybacked_file_path "srv1" "host1") settings_with_validity
           (fs_after (store_piggyback_raw_data (seconds 499) (seconds 500) "abcd1234" "srv1"
                        [] fs_same_second)))
    = inr i
    ∧ (valid i, status i)
      = if float_gt_Z (file_age (seconds 600) payload_100_2) 3600 then (false, 0)
        else if still_valid settings_with_validity "srv1" "host1"
                  (file_age (seconds 600) payload_100_2)
        then (true, validity_state settings_with_validity "srv1" "host1")
        else (false, 0).
Proof.
  apply (payload_after_an_empty_batch (seconds 499) (seconds 500) "abcd1234" "srv1" "host1"
           (seconds 600) settings_with_validity 3600 fs_same_second payload_100_2);
    reflexivity.
Defined.

(** X14: the writer keeps to the files of its source.  Writing a batch that
    is not empty, with an unused temporary name, returns normally, leaves no
    temporary file, and leaves every payload file of another source and
    every status file of another source as it was, under every host. *)
Theorem writer_keeps_to_its_source written created suffix source_hostname batch fs :
  batch ≠ [] →
  lookup_file fs (SourceState (tmp_status_name source_hostname suffix)) = None →
  let o := store_piggyback_raw_data written created suffix source_hostname batch fs in
  res o = inr tt
  ∧ lookup_file (fs_after o) (SourceState (tmp_status_name source_hostname suffix)) = None
  ∧ (∀ h s, s ≠ source_hostname →
       lookup_file (fs_after o) (HostSource h s) = lookup_file fs (HostSource h s))
  ∧ (∀ n, n ≠ source_hostname →
       lookup_file (fs_after o) (SourceState n) = lookup_file fs (SourceState n)).
Proof.
  intros Hne Hfresh o. subst o.
  destruct (store_piggyback_raw_data_run written created suffix source_hostname
              batch fs Hne Hfresh) as (fs' & Hrun & _ & Htmp & _ & Hframe).
  rewrite Hrun. cbn [res fs_after].
  assert (Hpaths : ∀ q, q ∈ payload_paths source_hostname batch →
            ∃ h, q = HostSource h source_hostname).
  { intros q ([h lines] & -> & _)%list_elem_of_fmap. by exists h. }
  split; [done|]. split; [done|]. split.
  - intros h s Hs. apply Hframe; [done|done|].
    intros [h' [= _ ->]]%Hpaths. done.
  - intros n Hn.
    destruct (decide (n = tmp_status_name source_hostname suffix)) as [->|Htmpne].
    { by rewrite Htmp, Hfresh. }
    apply Hframe.
    + unfold _get_source_status_file_path. congruence.
    + congruence.
    + by intros [h' [=]]%Hpaths.
Qed.

Lemma writer_keeps_to_its_source_witness :
  lookup_file
    (fs_after (store_piggyback_raw_data (seconds 499) (seconds 500) "abcd1234" "srv2"
                 example_batch fs_same_second))
    (SourceState "srv1")
  = Some status_100_7.
Proof.
  destruct (writer_keeps_to_its_source (seconds 499) (seconds 500) "abcd1234" "srv2"
              example_batch fs_same_second ltac:(discriminate) eq_refl)
    as (_ & _ & _ & Hstate).
  rewrite Hstate; [reflexivity|discriminate].
Defined.

(** ** The sweep run on its own *)

Lemma remove_file_tree p fs h :
  piggyback_tree (remove_file p fs) !! h
  = match p with
    | HostSource h0 s =>
        if bool_decide (h = h0) then delete s <$> piggyback_tree fs !! h
        else piggyback_tree fs !! h
    | _ => piggyback_tree fs !! h
    end.
Proof.
  unfold remove_file. destruct p as [| |h0|h0 s|n]; try done.
  destruct (piggyback_tree fs !! h0) as [d|] eqn:Hd.
  - cbn [set_piggyback_tree piggyback_tree]. case_bool_decide as Hh.
    + subst. by rewrite lookup_insert_eq, Hd.
    + by rewrite lookup_insert_ne.
  - case_bool_decide as Hh; [|done]. subst. by rewrite Hd.
Qed.

Lemma remove_file_source_tree h s fs :
  source_tree (remove_file (HostSource h s) fs) = source_tree fs.
Proof. unfold remove_file. by destruct (piggyback_tree fs !! h). Qed.

(** The loop over the source files of one folder, when every pair resolves
    its [max_cache_age]: it returns normally and removes no folder. *)
Lemma payload_folder_alone now h ts sources fs :
  (∀ q, q ∈ sources →
     ∃ s allowed, q = HostSource h s ∧ max_cache_age ts s h = inr allowed) →
  ∃ fs' t,
    for_each sources (_cleanup_old_piggybacked_file now (HostFolder h) ts) fs
    = mkOutcome (inr tt) fs' t
    ∧ source_tree fs' = source_tree fs
    ∧ (∀ h', is_Some (piggyback_tree fs' !! h') ↔ is_Some (piggyback_tree fs !! h'))
    ∧ (∀ h', h' ≠ h → piggyback_tree fs' !! h' = piggyback_tree fs !! h').
Proof.
  revert fs. induction sources as [|p rest IH]; intros fs Hall.
  - by exists fs, [].
  - destruct (Hall p) as (s & allowed & -> & Hallowed); [left|].
    destruct (_cleanup_old_piggybacked_file_run now (HostFolder h) ts (HostSource h s) fs)
      as [t1 Hbody].
    cbn [name] in Hbody. rewrite Hallowed in Hbody.
    assert (∃ fs1,
              _cleanup_old_piggybacked_file now (HostFolder h) ts (HostSource h s) fs
              = mkOutcome (inr tt) fs1 t1
              ∧ (fs1 = fs ∨ fs1 = remove_file (HostSource h s) fs))
      as (fs1 & Hbody1 & Hfs1).
    { destruct (lookup_file fs (HostSource h s)) as [f|]; [|by exists fs; split; [|left]].
      destruct (payload_expired now ts s h f); eexists; (split; [exact Hbody|]);
        [by right|by left]. }
    assert (Htree1 : source_tree fs1 = source_tree fs
              ∧ (∀ h', is_Some (piggyback_tree fs1 !! h')
                       ↔ is_Some (piggyback_tree fs !! h'))
              ∧ (∀ h', h' ≠ h → piggyback_tree fs1 !! h' = piggyback_tree fs !! h')).
    { destruct Hfs1 as [->| ->]; [done|].
      split; [apply remove_file_source_tree|]. split.
      - intros h'. rewrite remove_file_tree. case_bool_decide; [|done].
        by rewrite fmap_is_Some.
      - intros h' Hne. rewrite remove_file_tree. by rewrite bool_decide_eq_false_2. }
    destruct Htree1 as (Hsrc1 & Hdom1 & Hframe1).
    destruct (IH fs1) as (fs' & t & Hloop & Hsrc & Hdom & Hframe).
    { intros q Hq. apply Hall. by right. }
    exists fs', (t1 ++ t). split; [|split; [|split]].
    + cbn [for_each]. erewrite bind_inr by exact Hbody1. by rewrite Hloop.
    + by rewrite Hsrc.
    + intros h'. by rewrite Hdom.
    + intros h' Hne. by rewrite Hframe, Hframe1.
Qed.

(** The payload pass over folders that are there, each listed once, when
    every pair resolves its [max_cache_age]: it returns normally, leaves the
    folders it does not visit as they are, and leaves none of the folders it
    visits empty. *)
Lemma payload_pass_alone now settings_list fs :
  NoDup (settings_list.*1.*1) →
  (∀ folder sources ts, (folder, sources, ts) ∈ settings_list →
     ∃ h, folder = HostFolder h ∧ is_Some (piggyback_tree fs !! h)
          ∧ ∀ q, q ∈ sources →
              ∃ s allowed, q = HostSource h s ∧ max_cache_age ts s h = inr allowed) →
  ∃ fs' t,
    _cleanup_old_piggybacked_files now settings_list fs = mkOutcome (inr tt) fs' t
    ∧ source_tree fs' = source_tree fs
    ∧ (∀ h, HostFolder h ∉ settings_list.*1.*1 →
            piggyback_tree fs' !! h = piggyback_tree fs !! h)
    ∧ (∀ h, HostFolder h ∈ settings_list.*1.*1 → piggyback_tree fs' !! h ≠ Some ∅).
Proof.
  unfold _cleanup_old_piggybacked_files.
  revert fs. induction settings_list as [|[[folder sources] ts] rest IH]; intros fs Hdup Hall.
  - exists fs, []. split; [done|]. split; [done|]. split; [done|].
    by intros h ?%elem_of_nil.
  - cbn [fmap list_fmap fst] in Hdup. apply NoDup_cons in Hdup as [Hfresh Hdup].
    destruct (Hall folder sources ts) as (h & -> & [d Hd] & Hsources); [left|].
    destruct (payload_folder_alone now h ts sources fs Hsources)
      as (fs1 & t1 & Hinner & Hsrc1 & Hdom1 & Hframe1).
    destruct (proj2 (Hdom1 h)) as [d1 Hd1]; [by eexists|].
    pose proof (_remove_empty_folder_run h fs1) as Hrmdir. rewrite Hd1 in Hrmdir.
    assert (∃ fs2,
              _remove_empty_folder (HostFolder h) fs1
              = mkOutcome (inr tt) fs2 [sys_rmdir (HostFolder h)]
              ∧ source_tree fs2 = source_tree fs1
              ∧ piggyback_tree fs2 !! h ≠ Some ∅
              ∧ ∀ h', h' ≠ h → piggyback_tree fs2 !! h' = piggyback_tree fs1 !! h')
      as (fs2 & Hrmdir2 & Hsrc2 & Hempty2 & Hframe2).
    { case_bool_decide as Hempty; eexists; (split; [exact Hrmdir|]).
      - cbn [set_piggyback_tree piggyback_tree source_tree]. split; [done|].
        split; [by rewrite lookup_delete_eq|].
        intros h' Hne. by rewrite lookup_delete_ne.
      - split; [done|]. split; [|done]. rewrite Hd1. congruence. }
    destruct (IH fs2 Hdup) as (fs' & t & Hrest & Hsrc & Hout & Hin).
    { intros folder' sources' ts' Hmem.
      destruct (Hall folder' sources' ts') as (h' & -> & Hsome & Hsources');
        [by right|].
      exists h'. split; [done|]. split; [|done].
      assert (h' ≠ h) as Hne.
      { intros ->. apply Hfresh. apply list_elem_of_fmap.
        exists (HostFolder h, sources'). split; [done|].
        apply list_elem_of_fmap. by exists (HostFolder h, sources', ts'). }
      rewrite Hframe2 by done. by apply Hdom1. }
    exists fs', ((t1 ++ [sys_rmdir (HostFolder h)]) ++ t). split; [|split; [|split]].
    + cbn [for_each]. erewrite bind_inr.
      2:{ erewrite bind_inr by exact Hinner. by rewrite Hrmdir2. }
      cbn [trace fs_after]. by rewrite Hrest.
    + by rewrite Hsrc, Hsrc2.
    + intros h' Hnot. cbn [fmap list_fmap fst] in Hnot.
      apply not_elem_of_cons in Hnot as [Hne Hnot].
      assert (h' ≠ h) by congruence.
      by rewrite Hout, Hframe2, Hframe1.
    + intros h' Hmem. cbn [fmap list_fmap fst] in Hmem.
      destruct (decide (HostFolder h' ∈ rest.*1.*1)) as [Hrestmem|Hnot]; [by apply Hin|].
      apply elem_of_cons in Hmem as [[= ->]|?]; [|done].
      by rewrite Hout.
Qed.

Lemma max_cache_age_of_folder_resolves folder ts sources acc :
  match max_cache_age_of_folder folder ts sources acc with
  | inl e => e = KeyError (None, "max_cache_age")
  | inr _ =>
      ∀ q, q ∈ sources →
           ∃ allowed, max_cache_age ts (name q) (name folder) = inr allowed
  end.
Proof.
  revert acc. induction sources as [|q rest IH]; intros acc; cbn [max_cache_age_of_folder].
  - by intros q ?%elem_of_nil.
  - destruct (max_cache_age ts (name q) (name folder)) as [e|age] eqn:Hage.
    + by apply _match_raises in Hage.
    + specialize (IH (keep_greatest acc (name q) age)).
      destruct (max_cache_age_of_folder folder ts rest _); [done|].
      intros q' [->|Hq']%elem_of_cons; [by eexists|by apply IH].
Qed.

Lemma max_cache_age_of_folders_resolves settings_list acc :
  match max_cache_age_of_folders settings_list acc with
  | inl e => e = KeyError (None, "max_cache_age")
  | inr _ =>
      ∀ folder sources ts q, (folder, sources, ts) ∈ settings_list → q ∈ sources →
        ∃ allowed, max_cache_age ts (name q) (name folder) = inr allowed
  end.
Proof.
  revert acc. induction settings_list as [|[[folder sources] ts] rest IH]; intros acc;
    cbn [max_cache_age_of_folders].
  - by intros ? ? ? ? ?%elem_of_nil.
  - pose proof (max_cache_age_of_folder_resolves folder ts sources acc) as Hfolder.
    destruct (max_cache_age_of_folder folder ts sources acc) as [e|m]; [done|].
    specialize (IH m). destruct (max_cache_age_of_folders rest m); [done|].
    intros folder' sources' ts' q [[= -> -> ->]|Hmem]%elem_of_cons Hq;
      [by apply Hfolder|by apply (IH folder' sources' ts')].
Qed.

Lemma visible_folders_NoDup fs : NoDup (visible_entries fs PiggybackDir).
Proof.
  unfold visible_entries, dir_entries.
  apply NoDup_ListNoDup, List.NoDup_filter, NoDup_ListNoDup.
  apply NoDup_fmap; [by intros ? ? [=]|]. apply NoDup_fst_map_to_list.
Qed.

Lemma visible_folder_listed fs folder :
  folder ∈ visible_entries fs PiggybackDir →
  ∃ h, folder = HostFolder h ∧ is_Some (piggyback_tree fs !! h)
       ∧ startswith h "." = false.
Proof.
  intros Hfolder. pose proof (visible_entries_not_hidden _ _ _ Hfolder) as Hvis.
  apply visible_entries_are_entries in Hfolder. cbn [dir_entries] in Hfolder.
  apply list_elem_of_fmap in Hfolder as (h & -> & Hh).
  apply list_elem_of_fmap in Hh as ([h' d] & -> & Hmem%elem_of_map_to_list).
  exists h'. split; [done|]. split; [by eexists|done].
Qed.

Lemma visible_payload_listed fs h q :
  q ∈ visible_entries fs (HostFolder h) →
  ∃ s, q = HostSource h s ∧ is_Some (lookup_file fs q) ∧ startswith s "." = false.
Proof.
  intros Hq. pose proof (visible_entries_not_hidden _ _ _ Hq) as Hvis.
  pose proof (visible_entries_are_entries _ _ _ Hq) as Hentry.
  apply dir_entries_are_children in Hentry as [s ->].
  exists s. split; [done|]. split; [|done].
  apply (visible_names_of_host_elem fs h s). apply list_elem_of_fmap.
  by exists (HostSource h s).
Qed.

Section SweepAlone.
Context `{Regex}.

Lemma _get_piggybacked_hosts_settings_outcome time_settings fs :
  ∃ r t,
    _get_piggybacked_hosts_settings time_settings fs = mkOutcome r fs t
    ∧ match r with
      | inl e => ∃ pattern, e = ReError pattern
      | inr settings_list =>
          Forall2 (λ folder entry,
                     ∃ ts, entry = (folder, visible_entries fs folder, ts)
                           ∧ _TimeSettingsMap_init (name <$> visible_entries fs folder)
                               (name folder) time_settings = inr ts)
            (visible_entries fs PiggybackDir) settings_list
      end.
Proof.
  unfold _get_piggybacked_hosts_settings, _get_piggybacked_host_folders.
  erewrite bind_inr by (by apply _files_in_dir).
  destruct (list_comp_inspect (visible_entries fs PiggybackDir)
              (λ piggybacked_host_folder,
                 source_hosts <- _files_in piggybacked_host_folder ;;
                 time_settings_map <-
                   lift (_TimeSettingsMap_init (name <$> source_hosts)
                           (name piggybacked_host_folder) time_settings) ;;
                 ret (piggybacked_host_folder, source_hosts, time_settings_map))
              (λ folder entry,
                 ∃ ts, entry = (folder, visible_entries fs folder, ts)
                       ∧ _TimeSettingsMap_init (name <$> visible_entries fs folder)
                           (name folder) time_settings = inr ts)
              (λ e, ∃ pattern, e = ReError pattern)
              (λ _, True)
              fs) as (r & t & Hrun & _ & Hr).
  { intros folder Hfolder.
    apply visible_entries_are_entries, dir_entries_are_children in Hfolder as [h ->].
    erewrite bind_inr by (by apply _files_in_dir).
    destruct (_TimeSettingsMap_init (name <$> visible_entries fs (HostFolder h))
                (name (HostFolder h)) time_settings) as [e|ts] eqn:Hinit.
    - eexists (inl e), _. split; [reflexivity|]. split; [by apply Forall_true|].
      by apply _TimeSettingsMap_init_raises in Hinit.
    - eexists (inr _), _. split; [reflexivity|]. split; [by apply Forall_true|].
      by exists ts. }
  rewrite Hrun. by eexists _, _.
Qed.

Lemma settings_list_folders fs time_settings
  (settings_list : list (Path * list Path * _TimeSettingsMap)) :
  Forall2 (λ folder entry,
             ∃ ts, entry = (folder, visible_entries fs folder, ts)
                   ∧ _TimeSettingsMap_init (name <$> visible_entries fs folder)
                       (name folder) time_settings = inr ts)
    (visible_entries fs PiggybackDir) settings_list →
  settings_list.*1.*1 = visible_entries fs PiggybackDir.
Proof.
  induction 1 as [|folder entry folders entries (ts & -> & _) _ IH]; [done|].
  cbn [fmap list_fmap fst]. cbn [fmap] in IH. by rewrite IH.
Qed.

(** The sweep with nothing else at work on the storage. *)
Lemma cleanup_piggyback_files_alone now time_settings fs :
  ∃ r fs' t,
    cleanup_piggyback_files now time_settings fs = mkOutcome r fs' t
    ∧ (∀ q, lookup_file fs' q = lookup_file fs q
            ∨ (lookup_file fs' q = None ∧ is_Some (lookup_file fs q)
               ∧ listed_file q = true))
    ∧ match r with
      | inl e =>
          (e = KeyError (None, "max_cache_age") ∨ ∃ pattern, e = ReError pattern)
          ∧ fs' = fs
      | inr _ =>
          (∀ h, startswith h "." = true →
                piggyback_tree fs' !! h = piggyback_tree fs !! h)
          ∧ (∀ h, startswith h "." = false → piggyback_tree fs' !! h ≠ Some ∅)
          ∧ ∃ settings_list by_sources,
              Forall2 (λ folder entry,
                         ∃ ts, entry = (folder, visible_entries fs folder, ts)
                               ∧ _TimeSettingsMap_init (name <$> visible_entries fs folder)
                                   (name folder) time_settings = inr ts)
                (visible_entries fs PiggybackDir) settings_list
              ∧ max_cache_age_of_folders settings_list ∅ = inr by_sources
              ∧ ∀ n, lookup_file fs' (SourceState n)
                     = if bool_decide (SourceState n ∈ visible_entries fs PiggybackSourceDir)
                          && status_file_expired now by_sources fs (SourceState n)
                       then None else lookup_file fs (SourceState n)
      end.
Proof.
  unfold cleanup_piggyback_files.
  destruct (_get_piggybacked_hosts_settings_outcome time_settings fs)
    as (r0 & t0 & Hsettings & Hall).
  destruct r0 as [e|settings_list].
  { exists (inl e), fs, t0. split; [by erewrite bind_inl by exact Hsettings|].
    split; [by left|]. split; [by right|done]. }
  erewrite bind_inr by exact Hsettings.
  pose proof (settings_list_folders _ _ _ Hall) as Hfolders.
  pose proof (_cleanup_old_source_status_files_run now settings_list fs) as Hstatus.
  pose proof (max_cache_age_of_folders_resolves settings_list ∅) as Hresolve.
  destruct (max_cache_age_of_folders settings_list ∅) as [e|by_sources] eqn:Hby.
  { exists (inl e), fs, (t0 ++ []). split; [by erewrite bind_inl by exact Hstatus|].
    split; [by left|]. split; [by left|done]. }
  destruct Hstatus as (fs1 & t1 & Hstatus & Hlook1 & Htree).
  assert (Hsame : ∀ h s, lookup_file fs1 (HostSource h s) = lookup_file fs (HostSource h s)).
  { intros h s. unfold lookup_file. by rewrite Htree. }
  destruct (payload_pass_alone now settings_list fs1)
    as (fs' & t & Hpass & Hsrc & Hout & Hin).
  { rewrite Hfolders. apply visible_folders_NoDup. }
  { intros folder sources ts Hmem.
    destruct (Forall2_elem_of_r _ _ _ _ Hall Hmem) as (folder' & Hfolder' & ts' & Heq & _).
    injection Heq as -> -> ->.
    destruct (visible_folder_listed _ _ Hfolder') as (h & -> & Hsome & _).
    exists h. split; [done|]. split; [by rewrite Htree|].
    intros q Hq. destruct (Hresolve _ _ _ q Hmem Hq) as [allowed Hallowed].
    destruct (visible_payload_listed _ _ _ Hq) as (s & -> & _).
    by exists s, allowed. }
  destruct (_cleanup_old_piggybacked_files_run now settings_list fs1)
    as (r & fs'' & t' & Hpass' & Hsafe & _).
  rewrite Hpass in Hpass'. injection Hpass' as <- <- <-.
  exists (inr tt), fs', (t0 ++ t1 ++ t). split; [|split; [|split; [|split]]].
  5:{ exists settings_list, by_sources. split; [done|]. split; [done|].
      intros n. rewrite <- Hlook1. unfold lookup_file. by rewrite Hsrc. }
  - erewrite bind_inr by exact Hstatus. by rewrite Hpass.
  - intros q. destruct (Hsafe q) as [Heq|(Hnone & folder & sources & ts & f & Hmem & Hq & Hf & _)].
    + rewrite Heq, Hlook1.
      destruct (bool_decide (q ∈ visible_entries fs PiggybackSourceDir)) eqn:Hlisted;
        [|by left].
      apply bool_decide_eq_true in Hlisted.
      destruct (status_file_expired now by_sources fs q) eqn:Hexp; [|by left].
      right. split; [done|].
      pose proof (visible_entries_not_hidden _ _ _ Hlisted) as Hvis.
      apply visible_entries_are_entries, dir_entries_are_children in Hlisted as [n ->].
      split.
      * unfold status_file_expired in Hexp.
        by destruct (lookup_file fs (SourceState n)).
      * cbn [listed_file name] in *. by rewrite Hvis.
    + right. split; [done|].
      destruct (Forall2_elem_of_r _ _ _ _ Hall Hmem) as (folder' & Hfolder' & ts' & Heq & _).
      injection Heq as -> -> ->.
      destruct (visible_folder_listed _ _ Hfolder') as (h & -> & _ & Hh).
      destruct (visible_payload_listed _ _ _ Hq) as (s & -> & Hsome & Hs).
      split; [done|]. cbn [listed_file]. by rewrite Hh, Hs.
  - intros h Hh. rewrite Hout, Htree; [done|].
    rewrite Hfolders. intros Hmem%visible_entries_not_hidden. cbn [name] in Hmem. congruence.
  - intros h Hh.
    destruct (piggyback_tree fs !! h) as [d|] eqn:Hd.
    + apply Hin. rewrite Hfolders. unfold visible_entries, dir_entries.
      apply list_elem_of_In, filter_In. split.
      * apply list_elem_of_In, list_elem_of_fmap. exists h. split; [done|].
        apply list_elem_of_fmap. exists (h, d). split; [done|].
        by apply elem_of_map_to_list.
      * cbn [name]. by rewrite Hh.
    + rewrite Hout, Htree, Hd; [done|].
      rewrite Hfolders. intros Hmem.
      destruct (visible_folder_listed _ _ Hmem) as (h' & [= <-] & [d' Hd'] & _). congruence.
Qed.

(** X15: how the sweep can fail when nothing else works on the storage.
    It returns normally, or it raises the [KeyError] of a [max_cache_age]
    that does not resolve or the [re.error] of a rule, and then it has
    changed nothing: the settings of all folders are built and all pairs are
    resolved before the first file is deleted, and no [OSError] comes up. *)
Theorem sweep_alone_fails_only_on_settings now time_settings fs :
  let o := cleanup_piggyback_files now time_settings fs in
  res o = inr tt
  ∨ ((res o = inl (KeyError (None, "max_cache_age"))
      ∨ ∃ pattern, res o = inl (ReError pattern))
     ∧ fs_after o = fs).
Proof.
  intros o. subst o.
  destruct (cleanup_piggyback_files_alone now time_settings fs)
    as (r & fs' & t & Hrun & _ & Hr).
  rewrite Hrun. cbn [res fs_after].
  destruct r as [e|[]]; [|by left].
  right. destruct Hr as [[->|[pattern ->]] ->]; (split; [|done]); [by left|].
  right. by exists pattern.
Qed.

(** X16: folders after the sweep.  When the sweep, with nothing else at work
    on the storage, returns normally, no folder of a piggybacked host with a
    visible name is left empty; a folder whose name starts with a dot is as
    it was; and a folder that is gone held no file with a name that starts
    with a dot. *)
Theorem sweep_leaves_no_empty_folder now time_settings fs :
  let o := cleanup_piggyback_files now time_settings fs in
  res o = inr tt →
  (∀ h, startswith h "." = false → piggyback_tree (fs_after o) !! h ≠ Some ∅)
  ∧ (∀ h, startswith h "." = true →
          piggyback_tree (fs_after o) !! h = piggyback_tree fs !! h)
  ∧ (∀ h d s, piggyback_tree fs !! h = Some d →
              piggyback_tree (fs_after o) !! h = None →
              is_Some (d !! s) → startswith s "." = false).
Proof.
  intros o. subst o.
  destruct (cleanup_piggyback_files_alone now time_settings fs)
    as (r & fs' & t & Hrun & Hlook & Hr).
  rewrite Hrun. cbn [res fs_after]. intros ->. destruct Hr as (Hhidden & Hvisible & _).
  split; [done|]. split; [done|].
  intros h d s Hd Hgone [f Hf].
  assert (lookup_file fs (HostSource h s) = Some f) as Hbefore.
  { unfold lookup_file. rewrite Hd. done. }
  assert (lookup_file fs' (HostSource h s) = None) as Hafter.
  { unfold lookup_file. by rewrite Hgone. }
  destruct (Hlook (HostSource h s)) as [Heq|(_ & _ & Hlisted)]; [congruence|].
  cbn [listed_file] in Hlisted. apply andb_true_iff in Hlisted as [_ Hs].
  by apply negb_true_iff in Hs.
Qed.

(** X17: the sweep only deletes, and only what its listings reach.  However
    it ends, every file is afterwards as it was before or gone, and a file
    that is gone was there and no name on the way to it starts with a dot.
    So the temporary status file of a writer is never deleted by the sweep. *)
Theorem sweep_only_deletes_listed_files now time_settings fs :
  let o := cleanup_piggyback_files now time_settings fs in
  (∀ q, lookup_file (fs_after o) q = lookup_file fs q
        ∨ (lookup_file (fs_after o) q = None ∧ is_Some (lookup_file fs q)
           ∧ listed_file q = true))
  ∧ (∀ source_hostname suffix,
       lookup_file (fs_after o) (SourceState (tmp_status_name source_hostname suffix))
       = lookup_file fs (SourceState (tmp_status_name source_hostname suffix))).
Proof.
  intros o. subst o.
  destruct (cleanup_piggyback_files_alone now time_settings fs)
    as (r & fs' & t & Hrun & Hlook & _).
  rewrite Hrun. cbn [fs_after]. split; [done|].
  intros source_hostname suffix.
  destruct (Hlook (SourceState (tmp_status_name source_hostname suffix)))
    as [Heq|(_ & _ & Hlisted)]; [done|].
  cbn [listed_file] in Hlisted. by rewrite tmp_status_name_hidden in Hlisted.
Qed.

(** X18: the sweep and the readers.  A payload file that the inspector, at
    the same time and under the same rules, takes as valid, and whose float
    age [time.time() - st_mtime] is a number, is not deleted by the sweep,
    however the sweep ends: the inspector's test [file_age > max_cache_age]
    failed, so the sweep's test [file_age <= max_cache_age] holds. *)
Theorem sweep_keeps_valid_payloads now time_settings fs h s f settings :
  lookup_file fs (HostSource h s) = Some f →
  _TimeSettingsMap_init (name <$> visible_entries fs (HostFolder h)) h time_settings
    = inr settings →
  usable now settings s h fs f →
  is_nan (file_age now f) = false →
  lookup_file (fs_after (cleanup_piggyback_files now time_settings fs)) (HostSource h s)
  = Some f.
Proof.
  intros Hf Hinit (allowed & Hallowed & Hage & _) Hnan.
  destruct (cleanup_piggyback_files_run now time_settings fs)
    as (r & fs' & t & Hrun & Hsafe & _).
  destruct (cleanup_piggyback_files_alone now time_settings fs)
    as (r' & fs'' & t' & Hrun' & Hlook & _).
  rewrite Hrun in Hrun'. injection Hrun' as <- <- <-.
  rewrite Hrun. cbn [fs_after].
  destruct (Hlook (HostSource h s)) as [Heq|(Hgone & _ & _)]; [congruence|].
  destruct (Hsafe h s f Hf Hgone) as (ts & Hinit' & Hexp).
  rewrite Hinit in Hinit'. injection Hinit' as <-.
  unfold payload_expired in Hexp. rewrite Hallowed in Hexp.
  by rewrite (float_le_gt _ allowed Hnan), Hage in Hexp.
Qed.

(** X19: the status file of a source that still counts.  With nothing else
    at work on the storage, the sweep keeps the status file of a source as
    long as the float age [time.time() - st_mtime] of the status file is not
    greater than the [max_cache_age] of one pair of the source whose names
    do not start with a dot: the retention of a source is at least the
    [max_cache_age] of each of its pairs. *)
Theorem sweep_keeps_status_of_live_source now time_settings fs h s f st settings allowed :
  startswith h "." = false →
  startswith s "." = false →
  lookup_file fs (HostSource h s) = Some f →
  lookup_file fs (SourceState s) = Some st →
  _TimeSettingsMap_init (name <$> visible_entries fs (HostFolder h)) h time_settings
    = inr settings →
  max_cache_age settings s h = inr allowed →
  float_gt_Z (file_age now st) allowed = false →
  lookup_file (fs_after (cleanup_piggyback_files now time_settings fs)) (SourceState s)
  = Some st.
Proof.
  intros Hh Hs Hf Hst Hinit Hallowed Hage.
  destruct (cleanup_piggyback_files_alone now time_settings fs)
    as (r & fs' & t & Hrun & _ & Hr).
  rewrite Hrun. cbn [fs_after].
  destruct r as [e|[]]; [by destruct Hr as [_ ->]|].
  destruct Hr as (_ & _ & settings_list & by_sources & Hall & Hby & Hlook).
  rewrite Hlook.
  destruct (status_file_expired now by_sources fs (SourceState s)) eqn:Hexp;
    [|by rewrite andb_false_r].
  exfalso. unfold status_file_expired in Hexp. rewrite Hst in Hexp. cbn [name] in Hexp.
  destruct (by_sources !! s) as [m|] eqn:Hm; [|done].
  pose proof (max_cache_age_of_folders_lookup settings_list [] ∅ by_sources s Hby) as Hgreatest.
  rewrite lookup_empty, Hm in Hgreatest. destruct (Hgreatest eq_refl) as [_ Hmax].
  assert (allowed ∈ retention_candidates settings_list s) as Hcandidate.
  { destruct (Forall2_elem_of_l _ _ _ _ Hall (folder_visible _ _ _ _ Hf Hh))
      as (entry & Hentry & ts & -> & Hinit').
    cbn [name] in Hinit'. rewrite Hinit in Hinit'. injection Hinit' as <-.
    unfold retention_candidates. apply list_elem_of_bind.
    exists (HostFolder h, visible_entries fs (HostFolder h), settings). split; [|done].
    unfold folder_candidates. apply list_elem_of_bind.
    exists (HostSource h s). split; [|by apply (lookup_file_visible _ _ _ f)].
    cbn [name]. rewrite bool_decide_eq_true_2 by done. rewrite Hallowed.
    by apply list_elem_of_singleton. }
  specialize (Hmax allowed Hcandidate). cbn [app] in Hmax.
  by rewrite (float_gt_Z_mono _ m allowed Hmax Hexp) in Hage.
Qed.

End SweepAlone.

Lemma sweep_leaves_no_empty_folder_witness :
  piggyback_tree
    (fs_after (@cleanup_piggyback_files literal_regex (seconds 1000) example_rules
                 fs_no_status)) !! "host1"
  ≠ Some ∅.
Proof.
  assert (res (@cleanup_piggyback_files literal_regex (seconds 1000) example_rules
                 fs_no_status) = inr tt) as Hres by (vm_compute; reflexivity).
  destruct (@sweep_leaves_no_empty_folder literal_regex (seconds 1000) example_rules
              fs_no_status Hres) as (Hvisible & _ & _).
  apply Hvisible. reflexivity.
Defined.

(** ** The writer, then the readers *)

Section WrittenDataIsFound.
Context `{Regex}.

(** X20: data just written is found.  After a source whose name does not
    start with a dot has written a batch that holds a piggybacked host, and
    under rules that resolve [max_cache_age] (a global default, every regex
    compiles), the settings of the host are built and [max_cache_age]
    resolves for the pair.  The payload file's times are what [os.utime]
    makes of the floats of the status file's times; when that keeps the
    whole second of the timestamp, and while the float age of the payload
    file is not greater than the resolved [max_cache_age],
    [has_piggyback_raw_data] returns [True] for the host. *)
Theorem written_data_is_found written created suffix source_hostname batch
  piggybacked_hostname now time_settings fs :
  piggybacked_hostname ∈ batch.*1 →
  lookup_file fs (SourceState (tmp_status_name source_hostname suffix)) = None →
  startswith source_hostname "." = false →
  resolvable time_settings piggybacked_hostname →
  let fs' := fs_after (store_piggyback_raw_data written created suffix source_hostname
                         batch fs) in
  ∃ settings allowed,
    _TimeSettingsMap_init (name <$> visible_entries fs' (HostFolder piggybacked_hostname))
      piggybacked_hostname time_settings = inr settings
    ∧ max_cache_age settings source_hostname piggybacked_hostname = inr allowed
    ∧ (whole_second_kept created = true →
       float_gt_Z (time_time now - st_time (utime_round_trip created))%float allowed
       = false →
       res (has_piggyback_raw_data now piggybacked_hostname time_settings fs') = inr true).
Proof.
  intros Hmem Hfresh Hvisible Hresolvable fs'. subst fs'.
  assert (Hne : batch ≠ []) by (by destruct batch; [apply elem_of_nil in Hmem|]).
  destruct (store_piggyback_raw_data_run written created suffix source_hostname
              batch fs Hne Hfresh) as (fs' & Hrun & Hstatus & _ & Hin & _).
  rewrite Hrun. cbn [fs_after].
  destruct (Hin _ Hmem) as (lines & _ & Hfile).
  change (_get_piggybacked_file_path source_hostname piggybacked_hostname)
    with (HostSource piggybacked_hostname source_hostname) in Hfile.
  destruct (_get_piggyback_processed_file_infos_run now piggybacked_hostname
              time_settings fs' Hresolvable) as (infos & t & Hinfos & _).
  destruct (_get_piggyback_processed_file_infos_outcome now piggybacked_hostname
              time_settings fs') as (r & t' & Hinfos' & _ & Hr).
  rewrite Hinfos in Hinfos'. injection Hinfos' as <- <-.
  destruct Hresolvable as [[value Hglobal] _].
  destruct (_TimeSettingsMap_init _ piggybacked_hostname time_settings)
    as [e|settings] eqn:Hinit; [done|].
  destruct (max_cache_age_resolves _ _ _ _ _ source_hostname Hinit Hglobal)
    as [allowed Hallowed].
  exists settings, allowed. split; [done|]. split; [done|].
  intros Hkept Hage. unfold has_piggyback_raw_data.
  erewrite bind_inr by exact Hinfos. cbn [after ret res]. f_equal.
  apply existsb_exists.
  destruct (proj2 (record_of_valid _ _ _ _ _ Hr source_hostname))
    as (i & Hi & Hvalid & _).
  { split; [done|]. eexists. split; [exact Hfile|].
    exists allowed. split; [done|]. split; [done|]. left.
    unfold abandoned_whole_seconds. rewrite Hstatus.
    by apply Z.ltb_ge, Z.leb_le. }
  exists i. split; [by apply list_elem_of_In|done].
Qed.

End WrittenDataIsFound.

Lemma written_data_is_found_witness :
  res (@has_piggyback_raw_data literal_regex (seconds 600) "host1" example_rules
         (fs_after (store_piggyback_raw_data (seconds 499) (seconds 500) "abcd1234" "srv1"
                      example_batch fs_no_status)))
  = inr true.
Proof.
  assert (Hresolvable : @resolvable literal_regex example_rules "host1").
  { split.
    - exists 3600. unfold example_rules. do 3 right. left.
    - intros e key value _ _. done. }
  assert (Hmem : "host1" ∈ example_batch.*1) by (cbn; left).
  destruct (@written_data_is_found literal_regex (seconds 499) (seconds 500) "abcd1234"
              "srv1" example_batch "host1" (seconds 600) example_rules fs_no_status
              Hmem eq_refl eq_refl Hresolvable)
    as (settings & allowed & Hinit & Hallowed & Hfound).
  vm_compute in Hinit. injection Hinit as <-.
  vm_compute in Hallowed. injection Hallowed as <-.
  apply Hfound; vm_compute; reflexivity.
Defined.

Lemma sweep_keeps_valid_payloads_witness :
  lookup_file
    (fs_after (@cleanup_piggyback_files literal_regex (seconds 600) example_rules
                 fs_same_second))
    (HostSource "host1" "srv1")
  = Some payload_100_2.
Proof.
  apply (@sweep_keeps_valid_payloads literal_regex (seconds 600) example_rules
           fs_same_second "host1" "srv1" payload_100_2
           (mk_TimeSettingsMap
              (<[ (Some "host1", "max_cache_age") := 600 ]>
                 (<[ (Some "srv1", "validity_period") := 60 ]>
                    {[ (None, "max_cache_age") := 3600 ]}))));
    [reflexivity | vm_compute; reflexivity | | vm_compute; reflexivity].
  exists 600. split; [vm_compute; reflexivity|]. split; [vm_compute; reflexivity|].
  left. vm_compute. reflexivity.
Defined.

Lemma sweep_keeps_status_of_live_source_witness :
  lookup_file
    (fs_after (@cleanup_piggyback_files literal_regex (seconds 600) example_rules
                 fs_same_second))
    (SourceState "srv1")
  = Some status_100_7.
Proof.
  apply (@sweep_keeps_status_of_live_source literal_regex (seconds 600) example_rules
           fs_same_second "host1" "srv1" payload_100_2 status_100_7
           (mk_TimeSettingsMap
              (<[ (Some "host1", "max_cache_age") := 600 ]>
                 (<[ (Some "srv1", "validity_period") := 60 ]>
                    {[ (None, "max_cache_age") := 3600 ]}))) 600);
    [reflexivity | reflexivity | reflexivity | reflexivity | vm_compute; reflexivity
    | vm_compute; reflexivity | vm_compute; reflexivity].
Defined.
